(** * Property underwriting tool: the risk computations of [app.py]

    A shallow embedding of the pure core of the Streamlit application
    (elevation lookup, flood-risk classifier, urban flood zones, nearest
    fire station, exposure sampler and the text of the PDF report) and the
    properties its specification states about them.

    Python's [float] is IEEE-754 binary64: it is modelled by Rocq's
    primitive [float], whose operations are the same binary64 operations,
    and [None] by [option].  Third-party libraries ([geopy], [numpy],
    [requests], [fpdf]) are not part of the program: the functions that
    call them take the library operation as a parameter. *)

From Stdlib Require Import ZArith List String Ascii Bool Lia.
From Stdlib Require Import Floats.
From Stdlib Require Uint63.
Import ListNotations.

(* Decimal literals denote the nearest binary64 value, as in Python. *)
#[local] Set Warnings "-inexact-float,-register-all".

Local Open Scope string_scope.

(** ** Binary64 comparisons

    Python's [<] and [<=] on floats are the IEEE comparisons [<?] and
    [<=?]; every comparison with a NaN is false. *)
Module PyFloat.

Local Open Scope float_scope.

Definition lt (x y : float) : Prop := (x <? y) = true.
Definition le (x y : float) : Prop := (x <=? y) = true.

(** Truth value of a float in a condition ([if x:]): false exactly for
    [0.0] and [-0.0]. *)
Definition truthy (x : float) : bool := negb (x =? 0).

End PyFloat.

Local Open Scope float_scope.

(** ** Python values, as [json] decoding produces them *)

Inductive pyval : Type :=
| PNone
| PBool (b : bool)
| PInt (z : Z)
| PFloat (f : float)
| PStr (s : string)
| PList (l : list pyval)
| PDict (d : list (string * pyval)).

(** The exceptions the modelled code can meet; all derive from
    [Exception]. *)
Inductive py_exception : Type :=
| RequestException (msg : string)
| HTTPError (status : Z)
| JSONDecodeError
| AttributeError (msg : string)
| TypeError (msg : string)
| KeyError (msg : string)
| IndexError (msg : string).

(** A computation that returns or raises. *)
Inductive outcome (A : Type) : Type :=
| Ok (a : A)
| Raise (e : py_exception).
Arguments Ok {A} a.
Arguments Raise {A} e.

Definition bind {A B : Type} (m : outcome A) (k : A -> outcome B) : outcome B :=
  match m with
  | Ok a => k a
  | Raise e => Raise e
  end.

Notation "x <- m ;; k" := (bind m (fun x => k))
  (at level 61, m at next level, right associativity).

(** Truth value of a Python object ([if v:], [v and ...]). *)
Definition py_truthy (v : pyval) : bool :=
  match v with
  | PNone => false
  | PBool b => b
  | PInt z => negb (z =? 0)%Z
  | PFloat f => PyFloat.truthy f
  | PStr s => negb (s =? "")%string
  | PList l => match l with [] => false | _ :: _ => true end
  | PDict d => match d with [] => false | _ :: _ => true end
  end.

(** [len(v)]. *)
Definition py_len (v : pyval) : outcome Z :=
  match v with
  | PStr s => Ok (Z.of_nat (String.length s))
  | PList l => Ok (Z.of_nat (List.length l))
  | PDict d => Ok (Z.of_nat (List.length d))
  | _ => Raise (TypeError "object has no len()")
  end.

(** [v[0]]. *)
Definition py_getitem0 (v : pyval) : outcome pyval :=
  match v with
  | PList (x :: _) => Ok x
  | PList [] => Raise (IndexError "list index out of range")
  | PStr (String c _) => Ok (PStr (String c ""))
  | PStr EmptyString => Raise (IndexError "string index out of range")
  | PDict _ => Raise (KeyError "0")
  | _ => Raise (TypeError "object is not subscriptable")
  end.

Fixpoint dict_lookup (key : string) (d : list (string * pyval)) : option pyval :=
  match d with
  | [] => None
  | (k, v) :: rest => if (k =? key)%string then Some v else dict_lookup key rest
  end.

(** [v.get(key)]: only a dict has the method; a missing key gives [None]. *)
Definition py_get (v : pyval) (key : string) : outcome pyval :=
  match v with
  | PDict d => Ok (match dict_lookup key d with Some x => x | None => PNone end)
  | _ => Raise (AttributeError "object has no attribute 'get'")
  end.

(** ** Elevation API: [get_elevation] (app.py, lines 15-25) *)

(** What [requests.get] hands back: the status line and, when the body
    parses as JSON, its value ([r.json()] raises otherwise). *)
Record response : Type := {
  status_code : Z;
  json_body : option pyval
}.

(** [r.raise_for_status()]: raises for the 4xx and 5xx statuses. *)
Definition raise_for_status (r : response) : outcome unit :=
  if ((400 <=? status_code r) && (status_code r <? 600))%Z
  then Raise (HTTPError (status_code r))
  else Ok tt.

Definition json (r : response) : outcome pyval :=
  match json_body r with
  | Some v => Ok v
  | None => Raise JSONDecodeError
  end.

(** [str(e)] of a caught exception, for the message shown to the user. *)
Definition exception_str (e : py_exception) : string :=
  match e with
  | RequestException msg => msg
  | HTTPError _ => "HTTP error"
  | JSONDecodeError => "Expecting value"
  | AttributeError msg => msg
  | TypeError msg => msg
  | KeyError msg => msg
  | IndexError msg => msg
  end.

(** The URL of line 17 and the message of line 24. *)
Definition elevation_url (py_str_float : float -> string) (lat lon : float)
    : string :=
  "https://api.open-elevation.com/api/v1/lookup?locations="
  ++ py_str_float lat ++ "," ++ py_str_float lon.

Definition error_message (e : py_exception) : string :=
  "Error fetching elevation data: " ++ exception_str e.

Section ElevationLookup.

(** The transport: [requests.get(url)] returns a response or raises. *)
Variable requests_get : string -> outcome response.
(** [str] of a float, as an f-string interpolates it. *)
Variable py_str_float : float -> string.

(** The body of the [try] block.  [Ok (Some v)] is the [return] of
    line 22, [Ok None] is falling out of the [if]. *)
Definition get_elevation_try (lat lon : float) : outcome (option pyval) :=
  let url := elevation_url py_str_float lat lon in
  r <- requests_get url ;;
  _ <- raise_for_status r ;;
  body <- json r ;;
  results <- py_get body "results" ;;
  if py_truthy results then
    n <- py_len results ;;
    if (n >? 0)%Z then
      first <- py_getitem0 results ;;
      elevation <- py_get first "elevation" ;;
      Ok (Some elevation)
    else Ok None
  else Ok None.

(** [get_elevation]: the value returned and the messages passed to
    [st.error].  The [except Exception] clause turns every raise of the
    body into a message and the final [return None]. *)
Definition get_elevation (lat lon : float) : pyval * list string :=
  match get_elevation_try lat lon with
  | Ok (Some elevation) => (elevation, [])
  | Ok None => (PNone, [])
  | Raise e => (PNone, [error_message e])
  end.

End ElevationLookup.

(** The result the specification calls usable: the service answers
    [{"results": [{"elevation": v, ...}, ...]}] and only
    [results[0].elevation] is used. *)
Definition first_elevation (body : pyval) : option pyval :=
  match body with
  | PDict d =>
      match dict_lookup "results" d with
      | Some (PList (PDict first :: _)) => dict_lookup "elevation" first
      | _ => None
      end
  | _ => None
  end.

(** ** Flood risk classification: [classify_flood_risk] (lines 28-36) *)

Definition classify_flood_risk (elevation : option float) : string :=
  match elevation with
  | None => "Unknown"
  | Some elevation =>
      if elevation <? 5 then "High Flood Risk"
      else if elevation <? 15 then "Medium Flood Risk"
      else "Low Flood Risk"
  end.

(** The ordering of the labels the specification uses:
    High > Medium > Low. *)
Definition severity (label : string) : nat :=
  if (label =? "High Flood Risk")%string then 3
  else if (label =? "Medium Flood Risk")%string then 2
  else if (label =? "Low Flood Risk")%string then 1
  else 0.

(** ** Urban flood zones (lines 39-55) *)

Record FloodZone : Type := {
  zone_name : string;
  bounds : (float * float) * (float * float)
}.

Definition flood_zones : list FloodZone := [
  {| zone_name := "Mumbai Flood Zone"; bounds := ((18.90, 72.75), (19.15, 72.95)) |};
  {| zone_name := "Chennai Flood Zone"; bounds := ((13.00, 80.20), (13.15, 80.30)) |};
  {| zone_name := "Kolkata Flood Zone"; bounds := ((22.45, 88.30), (22.60, 88.45)) |};
  {| zone_name := "Delhi Flood Zone"; bounds := ((28.55, 77.15), (28.75, 77.35)) |};
  {| zone_name := "Bengaluru Flood Zone"; bounds := ((12.90, 77.50), (13.05, 77.65)) |}
].

Definition point_in_bounds (lat lon : float)
    (bounds : (float * float) * (float * float)) : bool :=
  let '((lat_min, lon_min), (lat_max, lon_max)) := bounds in
  ((lat_min <=? lat) && (lat <=? lat_max))
  && ((lon_min <=? lon) && (lon <=? lon_max)).

(** The [for] loop of [check_urban_flood_risk], over any zone list. *)
Fixpoint scan_zones (zones : list FloodZone) (lat lon : float) : string :=
  match zones with
  | [] => "Low Urban Flood Risk"
  | zone :: rest =>
      if point_in_bounds lat lon (bounds zone)
      then "High Urban Flood Risk (" ++ zone_name zone ++ ")"
      else scan_zones rest lat lon
  end.

Definition check_urban_flood_risk (lat lon : float) : string :=
  scan_zones flood_zones lat lon.

(** The specification's [zoneContaining]: the first zone in list order
    whose rectangle contains the point, if any. *)
Definition zoneContaining (zones : list FloodZone) (lat lon : float)
    : option string :=
  option_map zone_name
    (find (fun zone => point_in_bounds lat lon (bounds zone)) zones).

(** The rectangle drawn on the map for a zone (lines 142-149): four
    vertices, each as [[lon, lat]]. *)
Definition zone_polygon (zone : FloodZone) : list (float * float) :=
  let '((lat_min, lon_min), (lat_max, lon_max)) := bounds zone in
  [ (lon_min, lat_min);
    (lon_max, lat_min);
    (lon_max, lat_max);
    (lon_min, lat_max) ].

(** The data of the polygon layers, one per zone, in list order. *)
Definition flood_zone_polygons : list (list (float * float)) :=
  map zone_polygon flood_zones.

(** ** Fire stations and response time (lines 58-80) *)

Record FireStation : Type := {
  fs_name : string;
  fs_lat : float;
  fs_lon : float
}.

Definition fire_stations : list FireStation := [
  {| fs_name := "Mumbai Fire Station 1"; fs_lat := 19.015; fs_lon := 72.85 |};
  {| fs_name := "Mumbai Fire Station 2"; fs_lat := 18.975; fs_lon := 72.81 |};
  {| fs_name := "Chennai Fire Station 1"; fs_lat := 13.080; fs_lon := 80.275 |};
  {| fs_name := "Chennai Fire Station 2"; fs_lat := 13.065; fs_lon := 80.250 |};
  {| fs_name := "Kolkata Fire Station 1"; fs_lat := 22.57; fs_lon := 88.36 |};
  {| fs_name := "Kolkata Fire Station 2"; fs_lat := 22.53; fs_lon := 88.38 |};
  {| fs_name := "Delhi Fire Station 1"; fs_lat := 28.65; fs_lon := 77.20 |};
  {| fs_name := "Delhi Fire Station 2"; fs_lat := 28.62; fs_lon := 77.22 |};
  {| fs_name := "Bengaluru Fire Station 1"; fs_lat := 12.98; fs_lon := 77.58 |};
  {| fs_name := "Bengaluru Fire Station 2"; fs_lat := 12.95; fs_lon := 77.60 |}
].

(** Minutes to cover [dist_km] at 40 km/h (line 76). *)
Definition travel_minutes (dist_km : float) : float := dist_km / 40 * 60.

Section NearestStation.

(** [geodesic(p, q).km] of geopy. *)
Variable geodesic_km : float * float -> float * float -> float.
(** [round(x, 1)]. *)
Variable round1 : float -> float.

Definition time_to (lat lon : float) (fs : FireStation) : float :=
  travel_minutes (geodesic_km (lat, lon) (fs_lat fs, fs_lon fs)).

(** One iteration of the loop over the registry: the state is
    [(min_time, closest_station)]. *)
Definition nearest_step (lat lon : float)
    (st : option float * option string) (fs : FireStation)
    : option float * option string :=
  let '(min_time, closest_station) := st in
  let time_min := time_to lat lon fs in
  if match min_time with
     | None => true
     | Some m => time_min <? m
     end
  then (Some time_min, Some (fs_name fs))
  else (min_time, closest_station).

Definition nearest_loop (registry : list FireStation) (lat lon : float)
    (st : option float * option string) : option float * option string :=
  fold_left (nearest_step lat lon) registry st.

(** [estimate_response_time] over an explicit registry.  The returned
    pair is [(closest_station, round(min_time, 1) if min_time else None)]. *)
Definition estimate_response_time_in (registry : list FireStation)
    (lat lon : float) : option string * option float :=
  let '(min_time, closest_station) :=
    nearest_loop registry lat lon (None, None) in
  (closest_station,
   match min_time with
   | Some m => if PyFloat.truthy m then Some (round1 m) else None
   | None => None
   end).

Definition estimate_response_time (lat lon : float)
    : option string * option float :=
  estimate_response_time_in fire_stations lat lon.

End NearestStation.

(** ** Surrounding exposure: [generate_surrounding_exposure] (lines 82-88) *)

(** numpy's global generator, as the three calls of the function use it:
    [np.random.seed] replaces the state, [np.random.rand] and
    [np.random.choice] draw from it and advance it. *)
Record NumpyRandom : Type := {
  rng_state : Type;
  np_seed : Z -> rng_state;
  np_rand : nat -> rng_state -> list float * rng_state;
  np_choice : list string -> nat -> rng_state -> list string * rng_state
}.

(** The three columns of the returned data frame. *)
Record DataFrame : Type := {
  df_lat : list float;
  df_lon : list float;
  df_risk : list string
}.

(** [df.iterrows()]: the rows, in index order. *)
Definition iterrows (df : DataFrame) : list (float * float * string) :=
  combine (combine (df_lat df) (df_lon df)) (df_risk df).

(** The increment [(r - 0.5) / 100] the function adds to a coordinate. *)
Definition jitter (r : float) : float := (r - 0.5) / 100.

(** The function threads the global generator: it takes the state the
    generator is in when called and returns the frame with the state it
    leaves behind. *)
Definition generate_surrounding_exposure (np : NumpyRandom)
    (g : rng_state np) (lat lon : float) (num_points : nat)
    : DataFrame * rng_state np :=
  let g := np_seed np 42 in
  let '(r_lat, g) := np_rand np num_points g in
  let lats := map (fun r => lat + jitter r) r_lat in
  let '(r_lon, g) := np_rand np num_points g in
  let lons := map (fun r => lon + jitter r) r_lon in
  let '(risk_levels, g) := np_choice np ["Low"; "Medium"; "High"] num_points g in
  ({| df_lat := lats; df_lon := lons; df_risk := risk_levels |}, g).

(** What numpy promises of a draw of [rand]: it lies in [[0, 1)]. *)
Definition unit_interval (r : float) : Prop := PyFloat.le 0 r /\ PyFloat.lt r 1.

(** What the function computes for a coordinate: [x] is the binary64 sum
    of [center] and an increment [d] of magnitude at most 0.005.  The
    bound is on the increment that is added, not on the difference
    [x - center], which is rounded once more. *)
Definition displaced_by_increment (center x : float) : Prop :=
  exists d, x = center + d /\ PyFloat.le (-0.005) d /\ PyFloat.le d 0.005.

(** [x] lies between [center - 0.005] and [center + 0.005], both computed
    in binary64. *)
Definition within_bounds (center x : float) : Prop :=
  PyFloat.le (center - 0.005) x /\ PyFloat.le x (center + 0.005).

(** The offset of [x] from [center], recomputed as [x - center], is
    within 0.005. *)
Definition offset_within (center x : float) : Prop :=
  PyFloat.le (-0.005) (x - center) /\ PyFloat.le (x - center) 0.005.

(** The offsets of the generated points from a center, recomputed from
    the frame: [lat_i - center_lat] and [lon_i - center_lon]. *)
Definition offsets_from (lat lon : float) (df : DataFrame)
    : list float * list float :=
  (map (fun x => x - lat) (df_lat df), map (fun x => x - lon) (df_lon df)).

(** ** numpy's legacy generator

    [np.random.seed], [np.random.rand] and [np.random.choice] act on the
    global [RandomState], a Mersenne Twister (MT19937) with 624 words of
    32 bits.  This instance of [NumpyRandom] runs the sampler on concrete
    inputs. *)
Module MT19937.

Local Open Scope Z_scope.

Record state : Type := { key : list Z; pos : nat }.

Definition mask32 : Z := 4294967295.
Definition upper_mask : Z := 2147483648.
Definition lower_mask : Z := 2147483647.
Definition matrix_a : Z := 2567483615.

(** [init_genrand]: the key filled from a 32-bit seed. *)
Fixpoint init_key (n : nat) (i : Z) (w : Z) : list Z :=
  match n with
  | O => []
  | S n' =>
      w :: init_key n' (i + 1)
             (Z.land (1812433253 * Z.lxor w (Z.shiftr w 30) + i + 1) mask32)
  end.

Definition seed (s : Z) : state :=
  {| key := init_key 624 0 (Z.land s mask32); pos := 624 |}.

Fixpoint list_set (k : nat) (v : Z) (l : list Z) : list Z :=
  match l, k with
  | [], _ => []
  | _ :: t, O => v :: t
  | h :: t, S k' => h :: list_set k' v t
  end.

Definition twist (mt : list Z) (k : nat) : Z :=
  let y := Z.lor (Z.land (nth k mt 0) upper_mask)
                 (Z.land (nth ((k + 1) mod 624) mt 0) lower_mask) in
  Z.lxor (Z.lxor (nth ((k + 397) mod 624) mt 0) (Z.shiftr y 1))
         (if Z.odd y then matrix_a else 0).

(** The in-place regeneration of the 624 words. *)
Definition regenerate (mt : list Z) : list Z :=
  fold_left (fun mt k => list_set k (twist mt k) mt) (seq 0 624) mt.

Definition temper (y : Z) : Z :=
  let y := Z.lxor y (Z.shiftr y 11) in
  let y := Z.lxor y (Z.land (Z.shiftl y 7) 2636928640) in
  let y := Z.lxor y (Z.land (Z.shiftl y 15) 4022730752) in
  Z.lxor y (Z.shiftr y 18).

(** The next 32-bit word. *)
Definition next_uint32 (s : state) : Z * state :=
  let s := if (624 <=? pos s)%nat
           then {| key := regenerate (key s); pos := 0 |} else s in
  (temper (nth (pos s) (key s) 0), {| key := key s; pos := S (pos s) |}).

(** The next double in [0, 1): 53 random bits over 2^53. *)
Definition next_double (s : state) : float * state :=
  let '(a, s) := next_uint32 s in
  let '(b, s) := next_uint32 s in
  let k := Z.shiftr a 5 * 67108864 + Z.shiftr b 6 in
  ((of_uint63 (Uint63.of_Z k) / 9007199254740992)%float, s).

Fixpoint rand (n : nat) (s : state) : list float * state :=
  match n with
  | O => ([], s)
  | S n' =>
      let '(x, s) := next_double s in
      let '(xs, s) := rand n' s in
      (x :: xs, s)
  end.

(** A draw in [0, rng] by masked rejection: words are masked to the
    smallest [2^k - 1 >= rng] and drawn again while above [rng].  [fuel]
    bounds the redraws of one value. *)
Fixpoint bounded_masked (fuel : nat) (rng mask : Z) (s : state) : Z * state :=
  match fuel with
  | O => (0, s)
  | S fuel' =>
      let '(w, s) := next_uint32 s in
      let v := Z.land w mask in
      if v >? rng then bounded_masked fuel' rng mask s else (v, s)
  end.

Definition gen_mask (rng : Z) : Z := Z.ones (Z.log2 rng + 1).

Fixpoint randint0 (high : Z) (n : nat) (s : state) : list Z * state :=
  match n with
  | O => ([], s)
  | S n' =>
      let '(v, s) :=
        if high - 1 =? 0 then (0, s)
        else bounded_masked 1024 (high - 1) (gen_mask (high - 1)) s in
      let '(vs, s) := randint0 high n' s in
      (v :: vs, s)
  end.

(** [choice(a, n)]: [n] indices from [randint(0, len(a))], then the
    elements at them. *)
Definition choice (a : list string) (n : nat) (s : state)
    : list string * state :=
  let '(idx, s) := randint0 (Z.of_nat (List.length a)) n s in
  (map (fun i => nth (Z.to_nat i) a ""%string) idx, s).

Definition numpy : NumpyRandom :=
  {| rng_state := state; np_seed := seed; np_rand := rand; np_choice := choice |}.

End MT19937.

(** ** PDF report: [create_pdf_report] (lines 91-124) *)

(** [str] of an optional value interpolated in an f-string: [None]
    prints as the word [None]. *)
Definition py_str_option {A : Type} (str : A -> string) (v : option A) : string :=
  match v with
  | Some a => str a
  | None => "None"
  end.

(** The calls made on the [FPDF] object, in order: the content of the
    document that [pdf.output] serialises. *)
Inductive pdf_op : Type :=
| AddPage
| SetFont (family style : string) (size : Z)
| Cell (w h : Z) (txt : string) (border : Z) (ln : bool) (align : string)
| Ln (h : option Z).

Definition cell_text (op : pdf_op) : option string :=
  match op with
  | Cell _ _ txt _ _ _ => Some txt
  | _ => None
  end.

(** The text the report shows, cell by cell. *)
Fixpoint cell_texts (ops : list pdf_op) : list string :=
  match ops with
  | [] => []
  | op :: rest =>
      match cell_text op with
      | Some txt => txt :: cell_texts rest
      | None => cell_texts rest
      end
  end.

(** [needle in hay]. *)
Fixpoint contains (needle hay : string) : bool :=
  if String.prefix needle hay then true
  else match hay with
       | EmptyString => false
       | String _ rest => contains needle rest
       end.

Section Report.

(** [f"{x:.6f}"] and [f"{x}"] for a float. *)
Variable fmt_6f : float -> string.
Variable py_str_float : float -> string.

Definition exposure_row_cells (row : float * float * string) : list pdf_op :=
  let '(row_lat, row_lon, row_risk) := row in
  [ Cell 40 10 (fmt_6f row_lat) 1 false "";
    Cell 40 10 (fmt_6f row_lon) 1 false "";
    Cell 40 10 row_risk 1 false "";
    Ln None ].

Definition create_pdf_report (lat lon : float) (elevation : option float)
    (flood_risk urban_flood : string) (fire_station : option string)
    (response_time : option float) (exposure_df : DataFrame) : list pdf_op :=
  [ AddPage;
    SetFont "Arial" "B" 16;
    Cell 0 10 "Property Insurance Underwriting Risk Analysis Report" 0 true "C";
    Ln (Some 10%Z);
    SetFont "Arial" "" 12;
    Cell 0 10 ("Location Coordinates: Latitude " ++ fmt_6f lat
               ++ ", Longitude " ++ fmt_6f lon) 0 true "";
    Cell 0 10 ("Elevation: "
               ++ match elevation with
                  | Some e => py_str_float e
                  | None => "N/A"
                  end
               ++ " meters") 0 true "";
    Cell 0 10 ("Flood Risk (Elevation Based): " ++ flood_risk) 0 true "";
    Cell 0 10 ("Urban Flood Risk Zone: " ++ urban_flood) 0 true "";
    Cell 0 10 ("Nearest Fire Station: "
               ++ py_str_option (fun s => s) fire_station) 0 true "";
    Cell 0 10 ("Fire Brigade Response Time Estimate: "
               ++ py_str_option py_str_float response_time
               ++ " minutes") 0 true "";
    Ln (Some 10%Z);
    Cell 0 10 "Nearby Properties Exposure Risk:" 0 true "";
    SetFont "Arial" "" 10;
    Cell 40 10 "Latitude" 1 false "";
    Cell 40 10 "Longitude" 1 false "";
    Cell 40 10 "Risk Level" 1 false "";
    Ln None ]
  ++ flat_map exposure_row_cells (iterrows exposure_df).

(** The two fields the specification requires a fallback for. *)
Definition elevation_field (report : list pdf_op) : string :=
  nth 2 (cell_texts report) "".
Definition response_time_field (report : list pdf_op) : string :=
  nth 6 (cell_texts report) "".

End Report.

(** ** Binary64 formats and magnitudes

    Notions on the specification of the primitive floats ([spec_float])
    that the proofs about rounding use. *)
Module Binary64.

Local Open Scope Z_scope.

(** The exponent the format gives a number of magnitude [2^t]. *)
Definition fexp64 (t : Z) : Z := SpecFloat.fexp prec emax t.

(** Bits were lost by a shift, or before it. *)
Definition inexact (mrs : shr_record) : bool := shr_r mrs || shr_s mrs.

Definition loc_inexact (l : location) : bool :=
  match l with loc_Exact => false | loc_Inexact _ => true end.

(** A float that is not below zero: a zero, a positive number,
    [+inf], or a NaN. *)
Definition not_negative (x : spec_float) : Prop :=
  SFltb x (S754_zero false) = false.

(** A float of magnitude at most one half. *)
Definition at_most_half (x : spec_float) : Prop :=
  match x with
  | S754_zero _ => True
  | S754_finite _ m e => e <= -53 /\ Z.pos m <= 2 ^ (-1 - e)
  | _ => False
  end.

(** The floats 100, 0.005, 0.5 and 1. *)
Definition sf_hundred : spec_float := S754_finite false 7036874417766400 (-46).
Definition sf_bound : spec_float := S754_finite false 5764607523034235 (-60).
Definition sf_half : spec_float := S754_finite false 4503599627370496 (-53).
Definition sf_one : spec_float := S754_finite false 4503599627370496 (-52).

End Binary64.

(** ** Stand-ins for running the model

    The library operations taken as parameters are instantiated here to
    evaluate the functions on concrete inputs. *)

(** A distance on a flat grid of 111.32 km per degree. *)
Definition flat_km (p q : float * float) : float :=
  let dlat := (fst p - fst q) * 111.32 in
  let dlon := (snd p - snd q) * 111.32 in
  PrimFloat.sqrt (dlat * dlat + dlon * dlon).

(** No rounding. *)
Definition keep_float (x : float) : float := x.

(** A placeholder for the textual form of a float. *)
Definition show_float (x : float) : string := "<float>".

(** Two stations at the same distance from the origin, then a farther one. *)
Definition tie_registry : list FireStation := [
  {| fs_name := "North"; fs_lat := 1; fs_lon := 0 |};
  {| fs_name := "South"; fs_lat := -1; fs_lon := 0 |};
  {| fs_name := "East"; fs_lat := 0; fs_lon := 2 |}
].

(** An elevation service that is unreachable, and one that answers. *)
Definition unreachable (url : string) : outcome response :=
  Raise (RequestException "connection refused").

Definition answers (status : Z) (body : option pyval) (url : string)
    : outcome response :=
  Ok {| status_code := status; json_body := body |}.

(** A generator whose every draw is 0.0, the lowest value [rand] can
    return, and whose every label is "Low". *)
Definition lowest_draws : NumpyRandom :=
  {| rng_state := unit;
     np_seed := fun _ => tt;
     np_rand := fun n g => (repeat 0 n, g);
     np_choice := fun _ n g => (repeat "Low" n, g) |}.

(** A station on the meridian of the origin, then two stations nearer by
    one unit in the last place of the latitude, north and south. *)
Definition collision_registry : list FireStation := [
  {| fs_name := "Far"; fs_lat := 0x1.70a3d70a3d70dp-4; fs_lon := 0 |};
  {| fs_name := "Near 1"; fs_lat := 0x1.70a3d70a3d70cp-4; fs_lon := 0 |};
  {| fs_name := "Near 2"; fs_lat := -0x1.70a3d70a3d70cp-4; fs_lon := 0 |}
].

(** ** Positions on the grid of a format

    Rounding looks at a number through its position on a grid: the
    multiple of the unit below it, and where it lies between that
    multiple and the next one (on it, below the middle, at the middle,
    above the middle).  A position is coded by one integer, four times
    the multiple plus 0, 1, 2 or 3, so that the order of the codes is
    the order of the numbers. *)
Module Rounding.

Local Open Scope Z_scope.

Definition loc_code (l : location) : Z :=
  match l with
  | loc_Exact => 0
  | loc_Inexact Lt => 1
  | loc_Inexact Eq => 2
  | loc_Inexact Gt => 3
  end.

(** The position a shift record stands for. *)
Definition code (mrs : shr_record) : Z :=
  4 * shr_m mrs + (if shr_r mrs then 2 else 0) + (if shr_s mrs then 1 else 0).

(** 1 when [b] does not divide [a]. *)
Definition sticky (a b : Z) : Z := if a mod b =? 0 then 0 else 1.

(** The position on the grid whose unit is [2^n] times larger. *)
Definition shift_code (n P : Z) : Z :=
  2 * (P / 2 ^ (n + 1)) + sticky P (2 ^ (n + 1)).

(** The position of the fraction [N / K]. *)
Definition pos_code (N K : Z) : Z := 2 * (2 * N / K) + sticky (2 * N) K.

(** Rounding a position to the nearest multiple, ties to even. *)
Definition rne_code (P : Z) : Z :=
  let m := P / 4 in
  let c := P mod 4 in
  if (c =? 3) || ((c =? 2) && Z.odd m) then m + 1 else m.

(** The float made of a rounded mantissa [M] of at most [2^53] on the
    grid of unit [2^E]: a carry to [2^53] moves to the next exponent, an
    exponent above 971 overflows. *)
Definition finish (s : bool) (M E : Z) : spec_float :=
  match M with
  | Z.pos p =>
      if M <? 2 ^ 53 then
        if E <=? 971 then S754_finite s p E else S754_infinity s
      else
        if E + 1 <=? 971 then S754_finite s 4503599627370496 (E + 1)
        else S754_infinity s
  | Z0 => S754_zero s
  | Z.neg _ => S754_nan
  end.

(** The float that rounding returns for the position [P] on the grid of
    unit [2^E]. *)
Definition rounded (s : bool) (P E : Z) : spec_float := finish s (rne_code P) E.

(** The fraction [N / K], in units of [2^E], is on the grid of the
    format: its integer part has at most 53 digits, and exactly 53 above
    the smallest exponent. *)
Definition on_grid (N K E : Z) : Prop :=
  0 <= N /\ 0 < K /\ -1074 <= E
  /\ N / K < 2 ^ 53 /\ (-1074 < E -> 2 ^ 52 <= N / K).

(** [r] is the rounding of [c2 / c1] times the number [V], counted in
    units of [2^-1074]. *)
Definition rounds (c1 c2 V : Z) (r : spec_float) : Prop :=
  exists N K E,
    r = rounded false (pos_code N K) E
    /\ on_grid N K E
    /\ c1 * (N * 2 ^ (E + 1074)) = c2 * (V * K).

(** The floats 40 and 60. *)
Definition sf_forty : spec_float := S754_finite false 5629499534213120 (-47).
Definition sf_sixty : spec_float := S754_finite false 8444249301319680 (-47).

End Rounding.

(** ** Signed values

    The number a zero or a finite float stands for, counted in units of
    [2^-1074], and what it means for a float to be the rounding of such
    a number. *)
Module Signed.

Import Rounding.
Local Open Scope Z_scope.

Definition sval (x : spec_float) : Z :=
  match x with
  | S754_finite s m e => cond_Zopp s (Z.pos m * 2 ^ (e + 1074))
  | _ => 0
  end.

(** A zero or a finite number: neither an infinity nor a NaN. *)
Definition is_finite (x : spec_float) : bool :=
  match x with
  | S754_zero _ | S754_finite _ _ _ => true
  | _ => false
  end.

(** [r] is the rounding of the number [V]: a zero for 0, the rounding of
    [V] for a positive [V], the opposite of the rounding of [-V] for a
    negative one. *)
Definition rounds_signed (V : Z) (r : spec_float) : Prop :=
  (V = 0 -> exists s, r = S754_zero s)
  /\ (0 < V -> rounds 1 1 V r)
  /\ (V < 0 -> exists r', r = SFopp r' /\ rounds 1 1 (- V) r').

End Signed.

(** * Properties *)

(** ** Order facts of the binary64 comparisons

    Proved on the specification of the primitive comparisons
    ([SFcompare]): a sign, then an exponent, then a mantissa. *)
Module PyFloatFacts.

Local Open Scope float_scope.

Ltac order_cases :=
  repeat match goal with
    | |- context [Pos.compare_cont Eq ?a ?b] =>
        change (Pos.compare_cont Eq a b) with (Pos.compare a b)
    | H : context [Pos.compare_cont Eq ?a ?b] |- _ =>
        change (Pos.compare_cont Eq a b) with (Pos.compare a b) in H
    end;
  repeat match goal with
    | |- context [Z.compare ?a ?b] =>
        destruct (Z.compare_spec a b); subst
    | H : context [Z.compare ?a ?b] |- _ =>
        destruct (Z.compare_spec a b); subst
    | |- context [Pos.compare ?a ?b] =>
        destruct (Pos.compare_spec a b); subst
    | H : context [Pos.compare ?a ?b] |- _ =>
        destruct (Pos.compare_spec a b); subst
    end;
  simpl in *; try discriminate; try reflexivity; try lia.

Lemma SFltb_trans (x y z : spec_float) :
  SFltb x y = true -> SFltb y z = true -> SFltb x z = true.
Proof.
  unfold SFltb, SFcompare.
  destruct x as [sx|sx| |sx mx ex], y as [sy|sy| |sy my ey],
           z as [sz|sz| |sz mz ez];
    try destruct sx; try destruct sy; try destruct sz;
    simpl; try discriminate; try reflexivity;
    intros Hxy Hyz; order_cases.
Qed.

Lemma SFleb_not_gt (x y : spec_float) :
  SFleb x y = true -> SFltb y x = false.
Proof.
  unfold SFleb, SFltb, SFcompare.
  destruct x as [sx|sx| |sx mx ex], y as [sy|sy| |sy my ey];
    try destruct sx; try destruct sy;
    simpl; try discriminate; try reflexivity;
    intros Hxy; order_cases.
Qed.

Lemma SFltb_irrefl (x : spec_float) : SFltb x x = false.
Proof.
  unfold SFltb, SFcompare.
  destruct x as [sx|sx| |sx mx ex]; try destruct sx; simpl;
    try reflexivity;
    change (Pos.compare_cont Eq mx mx) with (Pos.compare mx mx);
    rewrite Z.compare_refl, Pos.compare_refl; reflexivity.
Qed.

Lemma lt_trans (x y z : float) :
  PyFloat.lt x y -> PyFloat.lt y z -> PyFloat.lt x z.
Proof. unfold PyFloat.lt. rewrite !FloatAxioms.ltb_spec. apply SFltb_trans. Qed.

Lemma le_not_gt (x y : float) : PyFloat.le x y -> (y <? x) = false.
Proof. unfold PyFloat.le. rewrite FloatAxioms.leb_spec, FloatAxioms.ltb_spec. apply SFleb_not_gt. Qed.

Lemma ltb_irrefl (x : float) : (x <? x) = false.
Proof. rewrite FloatAxioms.ltb_spec. apply SFltb_irrefl. Qed.

End PyFloatFacts.

(** ** Rounding of binary64 operations

    The primitive operations are specified by [SFsub], [SFdiv], ...,
    which round an exact result with [binary_round_aux].  The lemmas
    below bound what rounding returns, by integer arithmetic on mantissas
    and exponents. *)
Module Binary64Facts.

Import Binary64.
Local Open Scope Z_scope.

Lemma fexp64_eq (t : Z) : fexp64 t = Z.max (t - 53) (-1074).
Proof. reflexivity. Qed.

(** *** Number of binary digits *)

Lemma digits2_pos_size (p : positive) : digits2_pos p = Pos.size p.
Proof. induction p; simpl; congruence. Qed.

Lemma digits2_pos_bounds (p : positive) :
  2 ^ (Z.pos (digits2_pos p) - 1) <= Z.pos p < 2 ^ Z.pos (digits2_pos p).
Proof.
  rewrite digits2_pos_size. split.
  - pose proof (Pos.size_le p) as H.
    apply Pos2Z.pos_le_pos in H. rewrite Pos2Z.inj_pow in H.
    change (Z.pos p~0) with (2 * Z.pos p) in H.
    replace (Z.pos (Pos.size p)) with (Z.pos (Pos.size p) - 1 + 1) in H by lia.
    rewrite Z.pow_add_r in H by lia. lia.
  - pose proof (Pos.size_gt p) as H.
    apply Pos2Z.pos_lt_pos in H. now rewrite Pos2Z.inj_pow in H.
Qed.

Lemma Zdigits2_nonneg (m : Z) : 0 <= Zdigits2 m.
Proof. destruct m; simpl; lia. Qed.

(** A number below [2^k] has at most [k] digits. *)
Lemma Zdigits2_le (m k : Z) : 0 <= m < 2 ^ k -> 0 <= k -> Zdigits2 m <= k.
Proof.
  intros [Hm Hk] Hk0. destruct m as [|p|p]; simpl; try lia.
  pose proof (digits2_pos_bounds p) as [Hlo _].
  destruct (Z_le_gt_dec (Z.pos (digits2_pos p)) k) as [|Hgt]; [assumption|].
  exfalso.
  assert (2 ^ k <= 2 ^ (Z.pos (digits2_pos p) - 1))
    by (apply Z.pow_le_mono_r; lia).
  lia.
Qed.

(** *** Shifting right with a round bit and a sticky bit *)

Lemma shr_1_spec (mrs : shr_record) :
  0 <= shr_m mrs ->
  shr_m (shr_1 mrs) = shr_m mrs / 2
  /\ inexact (shr_1 mrs) = negb (shr_m mrs mod 2 =? 0) || inexact mrs.
Proof.
  destruct mrs as [m r s]. unfold inexact. simpl. intros Hm.
  destruct m as [|[p|p|]|p]; simpl; try lia.
  - split; [reflexivity | now destruct r, s].
  - split.
    + change (Z.pos p~1) with (2 * Z.pos p + 1).
      apply Z.div_unique with (r := 1); lia.
    + change (Z.pos p~1) with (2 * Z.pos p + 1).
      replace ((2 * Z.pos p + 1) mod 2) with 1
        by (apply Z.mod_unique with (q := Z.pos p); lia).
      reflexivity.
  - split.
    + change (Z.pos p~0) with (2 * Z.pos p).
      apply Z.div_unique with (r := 0); lia.
    + change (Z.pos p~0) with (2 * Z.pos p).
      replace ((2 * Z.pos p) mod 2) with 0
        by (apply Z.mod_unique with (q := Z.pos p); lia).
      simpl. now destruct r, s.
  - split; reflexivity.
Qed.

Lemma mod_mul_zero (m a b : Z) : 0 < a -> 0 < b ->
  (m mod (a * b) =? 0) = (m mod a =? 0) && ((m / a) mod b =? 0).
Proof.
  intros Ha Hb. rewrite Z.rem_mul_r by lia.
  pose proof (Z.mod_pos_bound m a Ha).
  pose proof (Z.mod_pos_bound (m / a) b Hb).
  destruct (m mod a =? 0) eqn:E1; destruct ((m / a) mod b =? 0) eqn:E2; simpl;
    rewrite ?Z.eqb_eq, ?Z.eqb_neq in *; nia.
Qed.

Lemma iter_shr_1_spec (n : positive) (mrs : shr_record) :
  0 <= shr_m mrs ->
  shr_m (iter_pos shr_1 n mrs) = shr_m mrs / 2 ^ Z.pos n
  /\ inexact (iter_pos shr_1 n mrs)
     = negb (shr_m mrs mod 2 ^ Z.pos n =? 0) || inexact mrs.
Proof.
  revert mrs. induction n as [n IH|n IH|]; intros mrs Hm; cbn [iter_pos].
  - destruct (shr_1_spec mrs Hm) as [M1 I1].
    assert (H1 : 0 <= shr_m (shr_1 mrs)) by (rewrite M1; apply Z.div_pos; lia).
    destruct (IH _ H1) as [M2 I2].
    assert (H2 : 0 <= shr_m (iter_pos shr_1 n (shr_1 mrs)))
      by (rewrite M2; apply Z.div_pos; lia).
    destruct (IH _ H2) as [M3 I3].
    assert (P : 0 < 2 ^ Z.pos n) by (apply Z.pow_pos_nonneg; lia).
    replace (2 ^ Z.pos n~1) with (2 * (2 ^ Z.pos n * 2 ^ Z.pos n))
      by (change (Z.pos n~1) with (2 * Z.pos n + 1);
          rewrite Z.pow_add_r, Z.pow_1_r by lia;
          replace (2 * Z.pos n) with (Z.pos n + Z.pos n) by lia;
          rewrite Z.pow_add_r by lia; ring).
    split.
    + rewrite M3, M2, M1. rewrite !Z.div_div by lia. reflexivity.
    + rewrite I3, I2, I1, M2, M1.
      rewrite (mod_mul_zero (shr_m mrs) 2) by lia.
      rewrite (mod_mul_zero (shr_m mrs / 2)) by lia.
      destruct (shr_m mrs mod 2 =? 0), ((shr_m mrs / 2) mod 2 ^ Z.pos n =? 0),
        ((shr_m mrs / 2 / 2 ^ Z.pos n) mod 2 ^ Z.pos n =? 0), (inexact mrs);
        reflexivity.
  - destruct (IH _ Hm) as [M2 I2].
    assert (H2 : 0 <= shr_m (iter_pos shr_1 n mrs))
      by (rewrite M2; apply Z.div_pos; lia).
    destruct (IH _ H2) as [M3 I3].
    assert (P : 0 < 2 ^ Z.pos n) by (apply Z.pow_pos_nonneg; lia).
    replace (2 ^ Z.pos n~0) with (2 ^ Z.pos n * 2 ^ Z.pos n)
      by (change (Z.pos n~0) with (2 * Z.pos n);
          replace (2 * Z.pos n) with (Z.pos n + Z.pos n) by lia;
          rewrite Z.pow_add_r by lia; ring).
    split.
    + rewrite M3, M2. rewrite !Z.div_div by lia. reflexivity.
    + rewrite I3, I2, M2.
      rewrite (mod_mul_zero (shr_m mrs)) by lia.
      destruct (shr_m mrs mod 2 ^ Z.pos n =? 0),
        ((shr_m mrs / 2 ^ Z.pos n) mod 2 ^ Z.pos n =? 0), (inexact mrs);
        reflexivity.
  - rewrite Z.pow_1_r. apply shr_1_spec, Hm.
Qed.

Lemma inexact_of_loc (m : Z) (l : location) :
  shr_m (shr_record_of_loc m l) = m
  /\ inexact (shr_record_of_loc m l) = loc_inexact l.
Proof. destruct l as [|[| |]]; split; reflexivity. Qed.

Lemma loc_of_shr_record_inexact (mrs : shr_record) :
  loc_inexact (loc_of_shr_record mrs) = inexact mrs.
Proof. destruct mrs as [m [|] [|]]; reflexivity. Qed.

(** [shr_fexp] drops the [n] low bits that do not fit the format. *)
Lemma shr_fexp_spec (m e : Z) (l : location) :
  0 <= m ->
  let n := Z.max 0 (fexp64 (Zdigits2 m + e) - e) in
  shr_m (fst (shr_fexp prec emax m e l)) = m / 2 ^ n
  /\ snd (shr_fexp prec emax m e l) = e + n
  /\ inexact (fst (shr_fexp prec emax m e l))
     = negb (m mod 2 ^ n =? 0) || loc_inexact l.
Proof.
  intros Hm n. unfold shr_fexp, shr. fold (fexp64 (Zdigits2 m + e)).
  destruct (inexact_of_loc m l) as [M0 I0].
  subst n. destruct (fexp64 (Zdigits2 m + e) - e) as [|p|p] eqn:E; simpl fst; simpl snd.
  - rewrite M0, I0. change (Z.max 0 0) with 0. rewrite Z.pow_0_r, Z.div_1_r, Z.mod_1_r.
    repeat split; lia.
  - replace (Z.max 0 (Z.pos p)) with (Z.pos p) by lia.
    destruct (iter_shr_1_spec p (shr_record_of_loc m l)) as [M1 I1];
      [rewrite M0; exact Hm|].
    rewrite M1, I1, M0, I0. repeat split; reflexivity.
  - replace (Z.max 0 (Z.neg p)) with 0 by lia.
    rewrite M0, I0, Z.pow_0_r, Z.div_1_r, Z.mod_1_r.
    repeat split; lia.
Qed.

Lemma round_nearest_even_spec (m : Z) (l : location) :
  m <= round_nearest_even m l <= m + 1
  /\ (loc_inexact l = false -> round_nearest_even m l = m).
Proof.
  destruct l as [|[| |]]; simpl; try (split; [lia | intros; congruence || reflexivity]).
  destruct (Z.even m); split; try lia; discriminate.
Qed.

(** *** An upper bound on what rounding returns

    [mx] with location [lx] at exponent [ex] stands for a number of
    [[mx, mx + 1)] in units of [2^ex].  If [U], a multiple of the unit
    the format keeps at that magnitude, is not below it, the rounded
    number is not above [U]. *)
Lemma binary_round_aux_upper (s : bool) (mx ex : Z) (lx : location) (U : Z) :
  0 <= mx ->
  U mod 2 ^ Z.max 0 (fexp64 (Zdigits2 mx + ex) - ex) = 0 ->
  mx <= U ->
  (loc_inexact lx = true -> mx < U) ->
  U <= 2 ^ (971 - ex) ->
  binary_round_aux prec emax s mx ex lx = S754_zero s
  \/ exists m2 e2,
       binary_round_aux prec emax s mx ex lx = S754_finite s m2 e2
       /\ ex <= e2 /\ Z.pos m2 * 2 ^ (e2 - ex) <= U.
Proof.
  intros Hmx Hdiv Hle Hlt Hmax.
  unfold binary_round_aux.
  pose proof (shr_fexp_spec mx ex lx Hmx) as (M1 & X1 & I1).
  set (n := Z.max 0 (fexp64 (Zdigits2 mx + ex) - ex)) in *.
  assert (Hn : 0 <= n) by (subst n; lia).
  assert (P : 0 < 2 ^ n) by (apply Z.pow_pos_nonneg; lia).
  destruct (shr_fexp prec emax mx ex lx) as [mrs1 e1]. simpl in M1, X1, I1.
  pose proof (round_nearest_even_spec (shr_m mrs1) (loc_of_shr_record mrs1))
    as [R1 R2].
  rewrite loc_of_shr_record_inexact in R2.
  set (m1r := round_nearest_even (shr_m mrs1) (loc_of_shr_record mrs1)) in *.
  assert (Hm1 : 0 <= shr_m mrs1) by (rewrite M1; apply Z.div_pos; lia).
  assert (Hm1r : 0 <= m1r) by lia.
  (* the rounded mantissa stays below the bound *)
  assert (HK : m1r * 2 ^ n <= U).
  { pose proof (Z.div_mod U (2 ^ n)) as HU. rewrite Hdiv in HU.
    assert (HU' : U = 2 ^ n * (U / 2 ^ n)) by lia. clear HU.
    destruct (inexact mrs1) eqn:Ein.
    - assert (Hstrict : mx < U).
      { symmetry in I1. apply orb_true_iff in I1. destruct I1 as [I1|I1].
        - apply negb_true_iff, Z.eqb_neq in I1.
          destruct (Z.eq_dec mx U) as [->|]; [congruence | lia].
        - now apply Hlt. }
      assert (mx / 2 ^ n < U / 2 ^ n).
      { apply Z.div_lt_upper_bound; [lia|]. lia. }
      nia.
    - rewrite (R2 eq_refl).
      assert (mx / 2 ^ n <= U / 2 ^ n) by (apply Z.div_le_mono; lia).
      nia. }
  pose proof (shr_fexp_spec m1r e1 loc_Exact Hm1r) as (M2 & X2 & _).
  set (n2 := Z.max 0 (fexp64 (Zdigits2 m1r + e1) - e1)) in *.
  assert (Hn2 : 0 <= n2) by (subst n2; lia).
  assert (P2 : 0 < 2 ^ n2) by (apply Z.pow_pos_nonneg; lia).
  destruct (shr_fexp prec emax m1r e1 loc_Exact) as [mrs2 e2].
  simpl in M2, X2. cbv beta iota zeta.
  assert (Hm2 : shr_m mrs2 * 2 ^ n2 <= m1r).
  { rewrite M2. rewrite Z.mul_comm. apply Z.mul_div_le. lia. }
  assert (Hval : shr_m mrs2 * 2 ^ (e2 - ex) <= U).
  { replace (e2 - ex) with (n2 + n) by lia.
    rewrite Z.pow_add_r by lia. nia. }
  destruct (shr_m mrs2) as [|m2|m2] eqn:Em2.
  - now left.
  - right. exists m2, e2.
    assert (He2 : e2 <= 971).
    { assert (2 ^ (e2 - ex) <= 2 ^ (971 - ex)).
      { assert (0 < 2 ^ (e2 - ex)) by (apply Z.pow_pos_nonneg; lia). nia. }
      destruct (Z_lt_le_dec (971 - ex) 0) as [Hneg|Hpos].
      - rewrite (Z.pow_neg_r 2 (971 - ex)) in H by lia.
        assert (0 < 2 ^ (e2 - ex)) by (apply Z.pow_pos_nonneg; lia). lia.
      - apply Z.pow_le_mono_r_iff in H; lia. }
    change (Z.sub emax prec) with 971.
    rewrite (proj2 (Z.leb_le e2 971) He2).
    repeat split; [lia | exact Hval].
  - exfalso. assert (0 <= m1r / 2 ^ n2) by (apply Z.div_pos; lia). lia.
Qed.

(** *** Comparing valid floats by their values *)

Lemma valid_finite (s : bool) (m : positive) (e : Z) :
  valid_binary (S754_finite s m e) = true ->
  -1074 <= e /\ Z.pos (digits2_pos m) <= 53
  /\ (-1074 < e -> Z.pos (digits2_pos m) = 53).
Proof.
  unfold SpecFloat.valid_binary, bounded, canonical_mantissa.
  intros H. apply andb_true_iff in H. destruct H as [H _].
  apply Z.eqb_eq in H. fold (fexp64 (Z.pos (digits2_pos m) + e)) in H.
  rewrite fexp64_eq in H. lia.
Qed.

Lemma valid_mantissa_bounds (s : bool) (m : positive) (e : Z) :
  valid_binary (S754_finite s m e) = true ->
  Z.pos m < 2 ^ 53 /\ (-1074 < e -> 2 ^ 52 <= Z.pos m).
Proof.
  intros H. destruct (valid_finite s m e H) as (_ & Hd & Hn).
  pose proof (digits2_pos_bounds m) as [Hlo Hhi]. split.
  - assert (2 ^ Z.pos (digits2_pos m) <= 2 ^ 53)
      by (apply Z.pow_le_mono_r; lia). lia.
  - intros He. rewrite (Hn He) in Hlo. exact Hlo.
Qed.

Lemma value_le_cases (m1 : positive) (e1 : Z) (m2 : positive) (e2 b : Z) :
  valid_binary (S754_finite false m1 e1) = true ->
  valid_binary (S754_finite false m2 e2) = true ->
  b <= e1 -> b <= e2 ->
  Z.pos m1 * 2 ^ (e1 - b) <= Z.pos m2 * 2 ^ (e2 - b) ->
  e1 < e2 \/ (e1 = e2 /\ (m1 <= m2)%positive).
Proof.
  intros V1 V2 B1 B2 H.
  destruct (Z.compare_spec e1 e2) as [E|E|E]; [right | now left | exfalso].
  - subst e2. split; [reflexivity|].
    assert (0 < 2 ^ (e1 - b)) by (apply Z.pow_pos_nonneg; lia).
    assert (Z.pos m1 <= Z.pos m2) by nia. lia.
  - destruct (valid_finite false m2 e2 V2) as (Hmin & _).
    destruct (valid_mantissa_bounds false m1 e1 V1) as (_ & Hlo).
    destruct (valid_mantissa_bounds false m2 e2 V2) as (Hhi & _).
    specialize (Hlo ltac:(lia)).
    replace (e1 - b) with ((e1 - e2) + (e2 - b)) in H by lia.
    rewrite Z.pow_add_r in H by lia.
    assert (0 < 2 ^ (e2 - b)) by (apply Z.pow_pos_nonneg; lia).
    assert (2 ^ 1 <= 2 ^ (e1 - e2)) by (apply Z.pow_le_mono_r; lia).
    change (2 ^ 1) with 2 in *.
    set (A := 2 ^ (e1 - e2)) in *. set (B := 2 ^ (e2 - b)) in *.
    assert (HA : 2 ^ 53 <= Z.pos m1 * A).
    { change (2 ^ 53) with (2 ^ 52 * 2).
      apply Z.mul_le_mono_nonneg; lia. }
    assert (HB : Z.pos m1 * A * B <= Z.pos m2 * B) by lia.
    apply Z.mul_le_mono_pos_r in HB; lia.
Qed.

Lemma SFleb_of_value (m1 : positive) (e1 : Z) (m2 : positive) (e2 b : Z) :
  valid_binary (S754_finite false m1 e1) = true ->
  valid_binary (S754_finite false m2 e2) = true ->
  b <= e1 -> b <= e2 ->
  Z.pos m1 * 2 ^ (e1 - b) <= Z.pos m2 * 2 ^ (e2 - b) ->
  SFleb (S754_finite false m1 e1) (S754_finite false m2 e2) = true
  /\ SFleb (S754_finite true m2 e2) (S754_finite true m1 e1) = true.
Proof.
  intros V1 V2 B1 B2 H.
  destruct (value_le_cases m1 e1 m2 e2 b V1 V2 B1 B2 H) as [E|[E L]];
    unfold SFleb, SFcompare.
  - rewrite (proj2 (Z.compare_lt_iff e1 e2) E).
    rewrite (proj2 (Z.compare_gt_iff e2 e1) E). split; reflexivity.
  - subst e2. rewrite Z.compare_refl.
    change (Pos.compare_cont Eq m1 m2) with (Pos.compare m1 m2).
    change (Pos.compare_cont Eq m2 m1) with (Pos.compare m2 m1).
    rewrite (Pos.compare_antisym m1 m2).
    destruct (Pos.compare_spec m1 m2); split; try reflexivity; lia.
Qed.

(** *** Dividing by 100 *)

Lemma pow2_split (a b : Z) : 0 <= a -> 0 <= b -> 2 ^ (a + b) = 2 ^ a * 2 ^ b.
Proof. intros. apply Z.pow_add_r; assumption. Qed.

(** The quotient and the remainder that [SFdiv] rounds, for the divisor
    100. *)
Lemma SFdiv_core_hundred (m : positive) (e : Z) :
  exists q r e',
    SFdiv_core_binary prec emax (Z.pos m) e 7036874417766400 (-46)
    = (q, e', new_location 7036874417766400 r)
    /\ e' = Z.min (fexp64 (Z.pos (digits2_pos m) + e - 7)) (e + 46)
    /\ Z.pos m * 2 ^ (e + 46 - e') = 7036874417766400 * q + r
    /\ 0 <= r < 7036874417766400.
Proof.
  unfold SFdiv_core_binary.
  change (Zdigits2 7036874417766400) with 53.
  change (Zdigits2 (Z.pos m)) with (Z.pos (digits2_pos m)).
  fold (fexp64 (Z.pos (digits2_pos m) + e - (53 + -46))).
  replace (Z.pos (digits2_pos m) + e - (53 + -46))
    with (Z.pos (digits2_pos m) + e - 7) by lia.
  replace (e - -46) with (e + 46) by lia.
  set (e' := Z.min (fexp64 (Z.pos (digits2_pos m) + e - 7)) (e + 46)).
  assert (Hs : 0 <= e + 46 - e') by (subst e'; lia).
  set (m' := match e + 46 - e' with
             | Z.pos _ => Z.shiftl (Z.pos m) (e + 46 - e')
             | 0 => Z.pos m
             | Z.neg _ => 0
             end).
  assert (Hm' : m' = Z.pos m * 2 ^ (e + 46 - e')).
  { subst m'. destruct (e + 46 - e') as [|p|p] eqn:E.
    - rewrite Z.pow_0_r. lia.
    - rewrite Z.shiftl_mul_pow2 by lia. reflexivity.
    - lia. }
  pose proof (Z_div_mod m' 7036874417766400 ltac:(reflexivity)) as Hdm.
  destruct (Z.div_eucl m' 7036874417766400) as [q r].
  exists q, r, e'. repeat split; try lia.
Qed.

Lemma new_location_hundred (r : Z) :
  loc_inexact (new_location 7036874417766400 r) = negb (r =? 0).
Proof.
  unfold new_location. change (Z.even 7036874417766400) with true.
  unfold new_location_even. destruct (r =? 0); reflexivity.
Qed.

(** Dividing a float of magnitude at most 0.5 by 100 gives a float of
    magnitude at most the float 0.005. *)
Lemma div_hundred_bound (x : spec_float) :
  at_most_half x ->
  valid_binary (SF64div x sf_hundred) = true ->
  SFleb (SFopp sf_bound) (SF64div x sf_hundred) = true
  /\ SFleb (SF64div x sf_hundred) sf_bound = true.
Proof.
  destruct x as [s|s| |s m e]; unfold at_most_half; try contradiction.
  - intros _ _. destruct s; split; reflexivity.
  - intros [He Hm] Hvalid.
    unfold SF64div, SFdiv, sf_hundred in *.
    destruct (SFdiv_core_hundred m e) as (q & r & e' & Hcore & He' & Hqr & Hr).
    rewrite Hcore in *.
    pose proof (digits2_pos_bounds m) as [Hdlo _].
    (* the magnitude of the dividend *)
    assert (Hd : Z.pos (digits2_pos m) + e <= 0).
    { destruct (Z_le_gt_dec (Z.pos (digits2_pos m) + e) 0); [assumption|].
      exfalso.
      assert (2 ^ (-1 - e + 1) <= 2 ^ (Z.pos (digits2_pos m) - 1))
        by (apply Z.pow_le_mono_r; lia).
      rewrite pow2_split in H by lia. change (2 ^ 1) with 2 in H.
      assert (0 < 2 ^ (-1 - e)) by (apply Z.pow_pos_nonneg; lia). lia. }
    assert (He60 : e' <= -60).
    { rewrite He', fexp64_eq. lia. }
    assert (Hs : 0 <= e + 46 - e') by (rewrite He'; lia).
    set (U := 5764607523034235 * 2 ^ (-60 - e')).
    assert (P60 : 0 < 2 ^ (-60 - e')) by (apply Z.pow_pos_nonneg; lia).
    (* the dividend is at most 100 times the bound *)
    assert (HMU : Z.pos m * 2 ^ (e + 46 - e') <= 7036874417766400 * U).
    { assert (Z.pos m * 2 ^ (e + 46 - e') <= 2 ^ (-1 - e) * 2 ^ (e + 46 - e')).
      { apply Z.mul_le_mono_nonneg_r; [apply Z.pow_nonneg; lia | exact Hm]. }
      rewrite <- pow2_split in H by lia.
      replace (-1 - e + (e + 46 - e')) with (105 + (-60 - e')) in H by lia.
      rewrite pow2_split in H by lia.
      subst U.
      assert (2 ^ 105 <= 7036874417766400 * 5764607523034235) by (vm_compute; discriminate).
      nia. }
    assert (Hq0 : 0 <= q).
    { destruct (Z_le_gt_dec 0 q); [assumption|]. exfalso.
      assert (0 <= Z.pos m * 2 ^ (e + 46 - e'))
        by (apply Z.mul_nonneg_nonneg; [lia | apply Z.pow_nonneg; lia]).
      nia. }
    assert (HqU : q <= U) by nia.
    assert (HqU' : r <> 0 -> q < U) by (intros; nia).
    assert (HU53 : U < 2 ^ (-7 - e')).
    { subst U. replace (-7 - e') with (53 + (-60 - e')) by lia.
      rewrite pow2_split by lia.
      assert (5764607523034235 < 2 ^ 53) by (vm_compute; reflexivity). nia. }
    destruct (binary_round_aux_upper (xorb s false) q e'
                (new_location 7036874417766400 r) U) as [Hz|(m2 & e2 & Hf & He2 & Hv)];
      try assumption.
    + (* divisibility *)
      assert (Hdq : Zdigits2 q <= -7 - e') by (apply Zdigits2_le; lia).
      pose proof (Zdigits2_nonneg q).
      set (n := Z.max 0 (fexp64 (Zdigits2 q + e') - e')).
      assert (Hn : 0 <= n <= -60 - e').
      { subst n. rewrite fexp64_eq. lia. }
      subst U. replace (-60 - e') with ((-60 - e' - n) + n) by lia.
      rewrite pow2_split by lia. rewrite Z.mul_assoc. apply Z.mod_mul.
      apply Z.pow_nonzero; lia.
    + rewrite new_location_hundred. intros Hin.
      apply HqU'. apply negb_true_iff, Z.eqb_neq in Hin. exact Hin.
    + apply Z.lt_le_incl. eapply Z.lt_le_trans; [exact HU53|].
      apply Z.pow_le_mono_r; lia.
    + rewrite Hz. destruct (xorb s false); split; reflexivity.
    + rewrite Hf in *.
      assert (V2 : valid_binary (S754_finite false m2 e2) = true) by exact Hvalid.
      destruct (SFleb_of_value m2 e2 5764607523034235 (-60) e' V2 eq_refl He2 He60 Hv)
        as [L1 L2].
      destruct (xorb s false); unfold sf_bound; split;
        try exact L1; try exact L2; reflexivity.
Qed.

(** *** Aligning two mantissas *)

Lemma pos_iter_xO (p d : positive) :
  Z.pos (Pos.iter xO p d) = Z.pos p * 2 ^ Z.pos d.
Proof.
  induction d as [|d IH] using Pos.peano_ind.
  - simpl Pos.iter. rewrite Z.pow_1_r. lia.
  - rewrite Pos.iter_succ, Pos2Z.inj_xO, IH, Pos2Z.inj_succ, Z.pow_succ_r by lia.
    ring.
Qed.

Lemma shl_align_spec (mx : positive) (ex ex' : Z) :
  snd (shl_align mx ex ex') = Z.min ex ex'
  /\ Z.pos (fst (shl_align mx ex ex')) = Z.pos mx * 2 ^ (ex - Z.min ex ex').
Proof.
  unfold shl_align. destruct (ex' - ex) as [|d|d] eqn:E; simpl fst; simpl snd.
  - replace (Z.min ex ex') with ex by lia. rewrite Z.sub_diag, Z.pow_0_r. lia.
  - replace (Z.min ex ex') with ex by lia. rewrite Z.sub_diag, Z.pow_0_r. lia.
  - replace (Z.min ex ex') with ex' by lia. split; [reflexivity|].
    rewrite pos_iter_xO. replace (ex - ex') with (Z.pos d) by lia. reflexivity.
Qed.

(** Rounding a number below one half gives at most one half. *)
Lemma binary_round_half (s : bool) (p : positive) (e : Z) :
  e <= -53 ->
  Z.pos p <= 2 ^ (-1 - e) ->
  valid_binary (binary_round prec emax s p e) = true ->
  at_most_half (binary_round prec emax s p e).
Proof.
  intros He Hp. unfold binary_round.
  fold (fexp64 (Z.pos (digits2_pos p) + e)).
  destruct (shl_align_spec p e (fexp64 (Z.pos (digits2_pos p) + e)))
    as [Hsnd Hfst].
  destruct (shl_align p e (fexp64 (Z.pos (digits2_pos p) + e))) as [mz ez].
  cbn [fst snd] in Hsnd, Hfst.
  assert (Hez : ez <= e) by lia.
  rewrite <- Hsnd in Hfst.
  assert (Hmz : Z.pos mz <= 2 ^ (-1 - ez)).
  { rewrite Hfst. replace (-1 - ez) with ((-1 - e) + (e - ez)) by lia.
    rewrite pow2_split by lia.
    apply Z.mul_le_mono_nonneg_r; [apply Z.pow_nonneg; lia | exact Hp]. }
  intros Hvalid.
  assert (Hdz : Zdigits2 (Z.pos mz) <= -1 - ez + 1).
  { apply Zdigits2_le; [|lia]. rewrite pow2_split by lia.
    change (2 ^ 1) with 2.
    assert (0 < 2 ^ (-1 - ez)) by (apply Z.pow_pos_nonneg; lia). lia. }
  destruct (binary_round_aux_upper s (Z.pos mz) ez loc_Exact (2 ^ (-1 - ez)))
    as [Hz|(m2 & e2 & Hf & He2 & Hv)].
  - lia.
  - set (n := Z.max 0 (fexp64 (Zdigits2 (Z.pos mz) + ez) - ez)).
    assert (Hn : 0 <= n <= -1 - ez).
    { subst n. rewrite fexp64_eq. lia. }
    replace (-1 - ez) with ((-1 - ez - n) + n) by lia.
    rewrite pow2_split by lia. apply Z.mod_mul. apply Z.pow_nonzero; lia.
  - exact Hmz.
  - discriminate.
  - apply Z.pow_le_mono_r; lia.
  - rewrite Hz. exact I.
  - rewrite Hf in *. unfold at_most_half.
    assert (P : 0 < 2 ^ (e2 - ez)) by (apply Z.pow_pos_nonneg; lia).
    assert (He21 : e2 <= -1).
    { destruct (Z_le_gt_dec e2 (-1)); [assumption|]. exfalso.
      assert (2 ^ (-1 - ez + 1) <= 2 ^ (e2 - ez))
        by (apply Z.pow_le_mono_r; lia).
      rewrite pow2_split in H by lia. change (2 ^ 1) with 2 in H.
      assert (0 < 2 ^ (-1 - ez)) by (apply Z.pow_pos_nonneg; lia). nia. }
    assert (Hm2 : Z.pos m2 <= 2 ^ (-1 - e2)).
    { replace (-1 - ez) with ((-1 - e2) + (e2 - ez)) in Hv by lia.
      rewrite pow2_split in Hv by lia.
      apply Z.mul_le_mono_pos_r in Hv; assumption. }
    split; [|exact Hm2].
    destruct (valid_finite s m2 e2 Hvalid) as (Hmin & Hd53 & Hnorm).
    pose proof (digits2_pos_bounds m2) as [Hlo _].
    destruct (Z_le_gt_dec e2 (-53)); [assumption|]. exfalso.
    rewrite Hnorm in Hlo by lia. change (53 - 1) with 52 in Hlo.
    assert (2 ^ (-1 - e2) < 2 ^ 52) by (apply Z.pow_lt_mono_r; lia).
    lia.
Qed.

Lemma SFltb_finite (m1 : positive) (e1 : Z) (m2 : positive) (e2 : Z) :
  SFltb (S754_finite false m1 e1) (S754_finite false m2 e2) = true ->
  e1 < e2 \/ (e1 = e2 /\ Z.pos m1 < Z.pos m2).
Proof.
  unfold SFltb, SFcompare.
  change (Pos.compare_cont Eq m1 m2) with (Pos.compare m1 m2).
  destruct (Z.compare_spec e1 e2) as [E|E|E]; intros H.
  - right. split; [exact E|].
    destruct (Pos.compare_spec m1 m2) as [F|F|F]; try discriminate H. lia.
  - now left.
  - discriminate H.
Qed.

(** Subtracting 0.5 from a float of [[0, 1)] gives a float of magnitude
    at most 0.5. *)
Lemma sub_half_bound (x : spec_float) :
  valid_binary x = true ->
  SFleb (S754_zero false) x = true ->
  SFltb x sf_one = true ->
  valid_binary (SF64sub x sf_half) = true ->
  at_most_half (SF64sub x sf_half).
Proof.
  intros Vx H0 H1.
  destruct x as [[|]|[|]| |[|] m e].
  - intros _. split; [reflexivity | vm_compute; discriminate].
  - intros _. split; [reflexivity | vm_compute; discriminate].
  - discriminate H0.
  - discriminate H1.
  - discriminate H0.
  - discriminate H0.
  - (* a positive number below one *)
    destruct (valid_finite false m e Vx) as (Hmin & Hd53 & Hnorm).
    destruct (valid_mantissa_bounds false m e Vx) as (Hhi & Hlo).
    assert (He : e <= -53).
    { destruct (SFltb_finite _ _ _ _ H1) as [E|[E F]]; [lia|].
      exfalso. specialize (Hlo ltac:(lia)).
      change (2 ^ 52) with 4503599627370496 in Hlo. lia. }
    unfold SF64sub, SFsub, sf_half.
    replace (Z.min e (-53)) with e by lia.
    destruct (shl_align_spec m e e) as [_ Ha].
    destruct (shl_align_spec 4503599627370496 (-53) e) as [_ Hb].
    replace (Z.min e e) with e in Ha by lia.
    replace (Z.min (-53) e) with e in Hb by lia.
    rewrite Z.sub_diag, Z.pow_0_r, Z.mul_1_r in Ha.
    unfold cond_Zopp. rewrite Ha, Hb.
    change (Z.pos 4503599627370496) with (2 ^ 52).
    rewrite <- pow2_split by lia.
    replace (52 + (-53 - e)) with (-1 - e) by lia.
    assert (P : 0 < 2 ^ (-1 - e)) by (apply Z.pow_pos_nonneg; lia).
    assert (Hm : Z.pos m < 2 * 2 ^ (-1 - e)).
    { assert (2 ^ 53 <= 2 ^ (-1 - e + 1)) by (apply Z.pow_le_mono_r; lia).
      rewrite pow2_split in H by lia. change (2 ^ 1) with 2 in H. lia. }
    unfold binary_normalize.
    destruct (Z.pos m - 2 ^ (-1 - e)) as [|p|p] eqn:Ez.
    + intros _. exact I.
    + apply binary_round_half; lia.
    + apply binary_round_half; lia.
Qed.

End Binary64Facts.

(** ** Flood risk classifier *)

Lemma classify_flood_risk_cases (e : float) :
  classify_flood_risk (Some e) = "High Flood Risk"
  \/ classify_flood_risk (Some e) = "Medium Flood Risk"
  \/ classify_flood_risk (Some e) = "Low Flood Risk".
Proof.
  unfold classify_flood_risk.
  destruct (e <? 5); [now left|].
  destruct (e <? 15); [right; now left | right; now right].
Qed.

(** C3: an absent elevation is classified Unknown and the thresholds are
    exact: 4.999 is High, 5.0 and 14.999 are Medium, 15.0 is Low; for
    every float, below 5 is High, from 5 (included) to 15 (excluded) is
    Medium, from 15 on is Low. *)
Theorem classify_flood_risk_thresholds :
  classify_flood_risk None = "Unknown"
  /\ classify_flood_risk (Some 4.999) = "High Flood Risk"
  /\ classify_flood_risk (Some 5.0) = "Medium Flood Risk"
  /\ classify_flood_risk (Some 14.999) = "Medium Flood Risk"
  /\ classify_flood_risk (Some 15.0) = "Low Flood Risk"
  /\ (forall e, PyFloat.lt e 5 ->
        classify_flood_risk (Some e) = "High Flood Risk")
  /\ (forall e, PyFloat.le 5 e -> PyFloat.lt e 15 ->
        classify_flood_risk (Some e) = "Medium Flood Risk")
  /\ (forall e, PyFloat.le 15 e ->
        classify_flood_risk (Some e) = "Low Flood Risk").
Proof.
  repeat split; try reflexivity.
  - intros e H. unfold classify_flood_risk. now rewrite H.
  - intros e H5 H15. unfold classify_flood_risk.
    rewrite (PyFloatFacts.le_not_gt _ _ H5). now rewrite H15.
  - intros e H15. unfold classify_flood_risk.
    rewrite (PyFloatFacts.le_not_gt _ _ H15).
    assert (H5 : (e <? 5) = false).
    { destruct (e <? 5) eqn:E; [|reflexivity].
      assert (L : PyFloat.lt e 15)
        by (apply (PyFloatFacts.lt_trans e 5 15); [exact E | reflexivity]).
      unfold PyFloat.lt in L.
      rewrite (PyFloatFacts.le_not_gt _ _ H15) in L. discriminate. }
    now rewrite H5.
Qed.

(** C4: the classifier is total over float-or-absent (it always answers
    one of the four labels), absent is Unknown, and for present
    elevations [e1 < e2] the label of [e1] is at least as severe as the
    label of [e2] (High > Medium > Low). *)
Theorem classify_flood_risk_monotone :
  (forall elevation,
      In (classify_flood_risk elevation)
         ["Unknown"; "High Flood Risk"; "Medium Flood Risk"; "Low Flood Risk"])
  /\ classify_flood_risk None = "Unknown"
  /\ (forall e1 e2, PyFloat.lt e1 e2 ->
        (severity (classify_flood_risk (Some e2))
         <= severity (classify_flood_risk (Some e1)))%nat).
Proof.
  split; [|split].
  - intros [e|]; simpl.
    + destruct (e <? 5); [now right; left|].
      destruct (e <? 15); [now right; right; left | now right; right; right; left].
    + now left.
  - reflexivity.
  - intros e1 e2 H12. unfold classify_flood_risk.
    destruct (e2 <? 5) eqn:E25.
    + rewrite (PyFloatFacts.lt_trans e1 e2 5 H12 E25). apply le_n.
    + destruct (e2 <? 15) eqn:E215.
      * pose proof (PyFloatFacts.lt_trans e1 e2 15 H12 E215) as E115.
        unfold PyFloat.lt in E115. rewrite E115.
        destruct (e1 <? 5); vm_compute; lia.
      * destruct (e1 <? 5); [vm_compute; lia|].
        destruct (e1 <? 15); vm_compute; lia.
Qed.

(** ** Urban flood zones *)

Lemma point_in_bounds_iff (lat lon lat_min lon_min lat_max lon_max : float) :
  point_in_bounds lat lon ((lat_min, lon_min), (lat_max, lon_max)) = true
  <-> (PyFloat.le lat_min lat /\ PyFloat.le lat lat_max)
      /\ (PyFloat.le lon_min lon /\ PyFloat.le lon lon_max).
Proof.
  unfold point_in_bounds, PyFloat.le.
  rewrite !andb_true_iff. reflexivity.
Qed.

(** The loop returns what the specification's [zoneContaining] finds. *)
Lemma scan_zones_zoneContaining (zones : list FloodZone) (lat lon : float) :
  scan_zones zones lat lon
  = match zoneContaining zones lat lon with
    | Some name => "High Urban Flood Risk (" ++ name ++ ")"
    | None => "Low Urban Flood Risk"
    end.
Proof.
  unfold zoneContaining.
  induction zones as [|zone rest IH]; simpl; [reflexivity|].
  destruct (point_in_bounds lat lon (bounds zone)); [reflexivity | exact IH].
Qed.

(** The first match wins: zones before it that do not contain the point
    are skipped, zones after it are not looked at. *)
Lemma scan_zones_first_match (before after : list FloodZone)
    (zone : FloodZone) (lat lon : float) :
  Forall (fun z => point_in_bounds lat lon (bounds z) = false) before ->
  point_in_bounds lat lon (bounds zone) = true ->
  scan_zones (before ++ zone :: after)%list lat lon
  = "High Urban Flood Risk (" ++ zone_name zone ++ ")".
Proof.
  intros Hbefore Hzone.
  induction Hbefore as [|z before Hz _ IH]; simpl.
  - now rewrite Hzone.
  - now rewrite Hz.
Qed.

Lemma scan_zones_no_match (zones : list FloodZone) (lat lon : float) :
  Forall (fun z => point_in_bounds lat lon (bounds z) = false) zones ->
  scan_zones zones lat lon = "Low Urban Flood Risk".
Proof.
  induction 1 as [|z zones Hz _ IH]; simpl; [reflexivity|].
  now rewrite Hz.
Qed.

(** C5: the urban-zone query scans the fixed list of five zones; a point
    is in a zone exactly when it is within the four bounds, all
    inclusive; the first zone in list order that contains the point is
    the one reported, and no zone gives "Low Urban Flood Risk";
    (19.0, 72.8) is in the Mumbai zone and (20.0, 75.0) is in none. *)
Theorem check_urban_flood_risk_first_match :
  List.length flood_zones = 5%nat
  /\ (forall lat lon lat_min lon_min lat_max lon_max,
        point_in_bounds lat lon ((lat_min, lon_min), (lat_max, lon_max)) = true
        <-> (PyFloat.le lat_min lat /\ PyFloat.le lat lat_max)
            /\ (PyFloat.le lon_min lon /\ PyFloat.le lon lon_max))
  /\ (forall lat lon,
        check_urban_flood_risk lat lon
        = match zoneContaining flood_zones lat lon with
          | Some name => "High Urban Flood Risk (" ++ name ++ ")"
          | None => "Low Urban Flood Risk"
          end)
  /\ (forall lat lon before zone after,
        flood_zones = (before ++ zone :: after)%list ->
        Forall (fun z => point_in_bounds lat lon (bounds z) = false) before ->
        point_in_bounds lat lon (bounds zone) = true ->
        check_urban_flood_risk lat lon
        = "High Urban Flood Risk (" ++ zone_name zone ++ ")")
  /\ (forall lat lon,
        Forall (fun z => point_in_bounds lat lon (bounds z) = false) flood_zones ->
        check_urban_flood_risk lat lon = "Low Urban Flood Risk")
  /\ check_urban_flood_risk 19.0 72.8 = "High Urban Flood Risk (Mumbai Flood Zone)"
  /\ check_urban_flood_risk 20.0 75.0 = "Low Urban Flood Risk".
Proof.
  split; [reflexivity|].
  split; [intros; apply point_in_bounds_iff|].
  split; [intros; apply scan_zones_zoneContaining|].
  split.
  { intros lat lon before zone after Hsplit Hbefore Hzone.
    unfold check_urban_flood_risk. rewrite Hsplit.
    now apply scan_zones_first_match. }
  split; [intros lat lon H; now apply scan_zones_no_match|].
  split; reflexivity.
Qed.

(** ** Nearest fire station *)

Module TravelTime.

Import Binary64.
Local Open Scope float_scope.

Lemma round_not_negative (mx ex : Z) (lx : location) :
  not_negative (binary_round_aux prec emax false mx ex lx).
Proof.
  unfold not_negative, binary_round_aux.
  destruct (shr_fexp prec emax mx ex lx) as [mrs e].
  destruct (shr_fexp prec emax _ e loc_Exact) as [mrs' e'].
  destruct (shr_m mrs'); [reflexivity| |reflexivity].
  destruct (Z.leb e' (Z.sub emax prec)); reflexivity.
Qed.

Lemma div_pos_not_negative (x : spec_float) (m : positive) (e : Z) :
  SFleb (S754_zero false) x = true ->
  not_negative (SF64div x (S754_finite false m e)).
Proof.
  destruct x as [s|s| |s mx ex]; try destruct s; simpl;
    try discriminate; try reflexivity; intros _.
  unfold SF64div, SFdiv.
  destruct (SFdiv_core_binary prec emax (Z.pos mx) ex (Z.pos m) e)
    as [[mz ez] lz].
  apply round_not_negative.
Qed.

Lemma mul_pos_not_negative (x : spec_float) (m : positive) (e : Z) :
  not_negative x ->
  not_negative (SF64mul x (S754_finite false m e)).
Proof.
  destruct x as [s|s| |s mx ex]; try destruct s; simpl;
    try discriminate; try reflexivity; intros _.
  apply round_not_negative.
Qed.

(** A distance that is not negative takes a time that is not negative. *)
Lemma travel_minutes_not_negative (dist_km : float) :
  PyFloat.le 0 dist_km -> (travel_minutes dist_km <? 0) = false.
Proof.
  unfold PyFloat.le, travel_minutes. intros H.
  rewrite FloatAxioms.leb_spec in H.
  rewrite FloatAxioms.ltb_spec, FloatAxioms.mul_spec, FloatAxioms.div_spec.
  change (Prim2SF 0) with (S754_zero false) in *.
  change (Prim2SF 40) with (S754_finite false 5629499534213120 (-47)).
  change (Prim2SF 60) with (S754_finite false 8444249301319680 (-47)).
  apply mul_pos_not_negative, div_pos_not_negative, H.
Qed.

End TravelTime.

Section NearestStationFacts.

Variable geodesic_km : float * float -> float * float -> float.
Variable round1 : float -> float.
Variables lat lon : float.

Let time (fs : FireStation) : float := time_to geodesic_km lat lon fs.
Let loop (registry : list FireStation) (st : option float * option string) :=
  nearest_loop geodesic_km registry lat lon st.

Lemma nearest_loop_cons (fs : FireStation) (registry : list FireStation)
    (st : option float * option string) :
  loop (fs :: registry) st
  = loop registry (nearest_step geodesic_km lat lon st fs).
Proof. reflexivity. Qed.

Lemma nearest_loop_app (before after : list FireStation)
    (st : option float * option string) :
  loop (before ++ after)%list st = loop after (loop before st).
Proof. apply fold_left_app. Qed.

(** Stations that are not strictly faster leave the minimum alone. *)
Lemma nearest_loop_keeps (after : list FireStation) (m : float)
    (closest : option string) :
  Forall (fun q => (time q <? m) = false) after ->
  loop after (Some m, closest) = (Some m, closest).
Proof.
  induction 1 as [|q after Hq _ IH]; [reflexivity|].
  rewrite nearest_loop_cons. unfold nearest_step.
  fold (time q). rewrite Hq. exact IH.
Qed.

(** While every station seen is strictly slower than [m], so is the
    running minimum. *)
Lemma nearest_loop_above (before : list FireStation) (m : float)
    (st : option float * option string) :
  Forall (fun p => PyFloat.lt m (time p)) before ->
  match fst st with None => True | Some t => PyFloat.lt m t end ->
  match fst (loop before st) with
  | None => True
  | Some t => PyFloat.lt m t
  end.
Proof.
  intros Hbefore. revert st.
  induction Hbefore as [|p before Hp _ IH]; intros st Hst; [exact Hst|].
  rewrite nearest_loop_cons. apply IH.
  destruct st as [[t|] c]; unfold nearest_step; fold (time p); simpl in *.
  - destruct (time p <? t); simpl; assumption.
  - exact Hp.
Qed.

(** The earliest station that attains the minimum is the one kept. *)
Lemma nearest_loop_first_minimum (before after : list FireStation)
    (fs : FireStation) :
  Forall (fun p => PyFloat.lt (time fs) (time p)) before ->
  Forall (fun q => (time q <? time fs) = false) after ->
  loop (before ++ fs :: after)%list (None, None)
  = (Some (time fs), Some (fs_name fs)).
Proof.
  intros Hbefore Hafter.
  rewrite nearest_loop_app, nearest_loop_cons.
  pose proof (nearest_loop_above before (time fs) (None, None) Hbefore I)
    as Habove.
  destruct (loop before (None, None)) as [[t|] c];
    unfold nearest_step; fold (time fs); simpl in Habove.
  - unfold PyFloat.lt in Habove. rewrite Habove.
    now apply nearest_loop_keeps.
  - now apply nearest_loop_keeps.
Qed.

(** Once a station is named, one stays named; the first iteration
    always names one. *)
Lemma nearest_loop_named (registry : list FireStation)
    (st : option float * option string) :
  (fst st = None -> registry <> []) ->
  (fst st <> None -> snd st <> None) ->
  fst (loop registry st) <> None /\ snd (loop registry st) <> None.
Proof.
  revert st. induction registry as [|fs registry IH]; intros st Hne Hst.
  - destruct st as [[t|] c]; simpl in *.
    + split; [discriminate | apply Hst; discriminate].
    + now exfalso; apply Hne.
  - rewrite nearest_loop_cons. apply IH.
    + destruct st as [[t|] c]; unfold nearest_step; simpl; [|discriminate].
      destruct (_ <? t); discriminate.
    + destruct st as [[t|] c]; unfold nearest_step; simpl; [|discriminate].
      destruct (_ <? t); simpl; [discriminate|].
      intros _. apply Hst. discriminate.
Qed.

End NearestStationFacts.

(** Without stations there is nothing to return. *)
Lemma estimate_response_time_in_empty
    (geodesic_km : float * float -> float * float -> float)
    (round1 : float -> float) (lat lon : float) :
  estimate_response_time_in geodesic_km round1 [] lat lon = (None, None).
Proof. reflexivity. Qed.

(** With at least one station, a name is always returned, and the time is
    absent exactly when the minimum is a zero. *)
Lemma estimate_response_time_in_nonempty
    (geodesic_km : float * float -> float * float -> float)
    (round1 : float -> float) (registry : list FireStation) (lat lon : float) :
  registry <> [] ->
  exists name min_time,
    nearest_loop geodesic_km registry lat lon (None, None)
    = (Some min_time, Some name)
    /\ estimate_response_time_in geodesic_km round1 registry lat lon
       = (Some name,
          if PyFloat.truthy min_time then Some (round1 min_time) else None).
Proof.
  intros Hne.
  destruct (nearest_loop_named geodesic_km lat lon registry (None, None))
    as [Hfst Hsnd]; [intros _; exact Hne | intros H; now elim H |].
  unfold estimate_response_time_in.
  destruct (nearest_loop geodesic_km registry lat lon (None, None))
    as [[m|] [c|]]; simpl in *; try congruence.
  exists c, m. split; reflexivity.
Qed.




(** C1, at the location of a station: the distance to "Mumbai Fire
    Station 1" is 0.0, its travel time 0.0 is the minimum, and since 0.0
    is false in a condition the returned time is absent although the
    registry holds ten stations. *)
Theorem estimate_response_time_at_station
    (geodesic_km : float * float -> float * float -> float)
    (round1 : float -> float) :
  geodesic_km (19.015, 72.85) (19.015, 72.85) = 0 ->
  Forall (fun fs => PyFloat.le 0 (geodesic_km (19.015, 72.85)
                                    (fs_lat fs, fs_lon fs))) fire_stations ->
  fire_stations <> []
  /\ estimate_response_time geodesic_km round1 19.015 72.85
     = (Some "Mumbai Fire Station 1", None).
Proof.
  intros Hzero Hdist. split; [discriminate|].
  unfold estimate_response_time, estimate_response_time_in.
  change fire_stations
    with ([] ++ {| fs_name := "Mumbai Fire Station 1";
                   fs_lat := 19.015; fs_lon := 72.85 |}
             :: tl fire_stations)%list.
  rewrite nearest_loop_first_minimum.
  - unfold time_to. simpl fs_lat. simpl fs_lon. rewrite Hzero. reflexivity.
  - constructor.
  - unfold time_to at 2. simpl fs_lat. simpl fs_lon. rewrite Hzero.
    change (travel_minutes 0) with 0.
    inversion Hdist as [|fs0 rest _ Hrest]; subst.
    eapply Forall_impl; [|exact Hrest].
    intros fs Hfs. now apply TravelTime.travel_minutes_not_negative.
Qed.

Lemma estimate_response_time_at_station_witness :
  estimate_response_time flat_km keep_float 19.015 72.85
  = (Some "Mumbai Fire Station 1", None).
Proof.
  apply (estimate_response_time_at_station flat_km keep_float).
  - vm_compute. reflexivity.
  - repeat constructor.
Defined.

(** ** Exposure sampler *)

(** The frame is built from the draws that follow [seed(42)]; neither
    the state the generator was in before the call nor the center takes
    part in the draws. *)
Lemma generate_surrounding_exposure_unfold (np : NumpyRandom)
    (g : rng_state np) (lat lon : float) (num_points : nat) :
  let g0 := np_seed np 42 in
  let r_lat := np_rand np num_points g0 in
  let r_lon := np_rand np num_points (snd r_lat) in
  let risk := np_choice np ["Low"; "Medium"; "High"] num_points (snd r_lon) in
  generate_surrounding_exposure np g lat lon num_points
  = ({| df_lat := map (fun r => lat + jitter r) (fst r_lat);
        df_lon := map (fun r => lon + jitter r) (fst r_lon);
        df_risk := fst risk |}, snd risk).
Proof.
  cbv zeta. unfold generate_surrounding_exposure.
  destruct (np_rand np num_points (np_seed np 42)) as [r_lat g1]. simpl.
  destruct (np_rand np num_points g1) as [r_lon g2]. simpl.
  destruct (np_choice np _ num_points g2) as [risk g3]. reflexivity.
Qed.

(** C7: two calls with the same center and count return the same frame,
    the same coordinates and the same risk labels in the same order,
    whatever state the global generator is in at each call; in
    particular when the second call starts from the state the first one
    left.  The seed is the constant 42 of the function. *)
Theorem generate_surrounding_exposure_deterministic (np : NumpyRandom)
    (g1 g2 : rng_state np) (lat lon : float) (count : nat) :
  generate_surrounding_exposure np g1 lat lon count
  = generate_surrounding_exposure np g2 lat lon count
  /\ (let '(first, g) := generate_surrounding_exposure np g1 lat lon count in
      let '(second, _) := generate_surrounding_exposure np g lat lon count in
      first = second /\ iterrows first = iterrows second).
Proof.
  split.
  - now rewrite !generate_surrounding_exposure_unfold.
  - rewrite (generate_surrounding_exposure_unfold np g1). cbv zeta.
    rewrite generate_surrounding_exposure_unfold. cbv zeta.
    split; reflexivity.
Qed.

(** The increment of a draw of [[0, 1)] is at most 0.005 in magnitude:
    [r - 0.5] has magnitude at most 0.5 and its quotient by 100 is at
    most the float 0.005, through both roundings. *)
Lemma jitter_bound (r : float) :
  unit_interval r ->
  PyFloat.le (-0.005) (jitter r) /\ PyFloat.le (jitter r) 0.005.
Proof.
  unfold unit_interval, PyFloat.le, PyFloat.lt, jitter. intros [H0 H1].
  rewrite FloatAxioms.leb_spec in H0. rewrite FloatAxioms.ltb_spec in H1.
  rewrite !FloatAxioms.leb_spec.
  pose proof (Prim2SF_valid r) as Vr.
  pose proof (Prim2SF_valid (r - 0.5)) as Vs.
  pose proof (Prim2SF_valid ((r - 0.5) / 100)) as Vd.
  rewrite FloatAxioms.div_spec in *. rewrite FloatAxioms.sub_spec in *.
  change (Prim2SF 0) with (S754_zero false) in H0.
  change (Prim2SF 1) with Binary64.sf_one in H1.
  change (Prim2SF 0.5) with Binary64.sf_half in *.
  change (Prim2SF 100) with Binary64.sf_hundred in *.
  change (Prim2SF (-0.005)) with (SFopp Binary64.sf_bound).
  change (Prim2SF 0.005) with Binary64.sf_bound.
  apply Binary64Facts.div_hundred_bound; [|exact Vd].
  apply Binary64Facts.sub_half_bound; assumption.
Qed.

Lemma iterrows_length (df : DataFrame) (count : nat) :
  List.length (df_lat df) = count ->
  List.length (df_lon df) = count ->
  List.length (df_risk df) = count ->
  List.length (iterrows df) = count.
Proof.
  unfold iterrows. intros H1 H2 H3.
  rewrite !length_combine, H1, H2, H3. now rewrite !Nat.min_id.
Qed.

Lemma iterrows_columns (df : DataFrame) (row_lat row_lon : float)
    (row_risk : string) :
  In (row_lat, row_lon, row_risk) (iterrows df) ->
  In row_lat (df_lat df) /\ In row_lon (df_lon df).
Proof.
  unfold iterrows. intros H. apply in_combine_l in H.
  split; [eapply in_combine_l | eapply in_combine_r]; exact H.
Qed.

(** C10, as stated, fails: with numpy's generator the offsets
    [lat_i - center_lat] recomputed from the frames of the centers
    (20.5937, 78.9629) and (13.0827, 80.2707) differ in their last
    digits, because each coordinate is the rounded sum of the center and
    the increment. *)
Lemma offsets_from_center_not_invariant :
  ~ (forall (g : MT19937.state) (lat1 lon1 lat2 lon2 : float) (count : nat),
        offsets_from lat1 lon1
          (fst (generate_surrounding_exposure MT19937.numpy g lat1 lon1 count))
        = offsets_from lat2 lon2
            (fst (generate_surrounding_exposure MT19937.numpy g lat2 lon2 count))).
Proof.
  intros H.
  specialize (H (MT19937.seed 0) 20.5937 78.9629 13.0827 80.2707 5%nat).
  apply (f_equal (fun offsets =>
                    match fst offsets with
                    | x :: _ => x =? -0.0012545988115277851
                    | [] => false
                    end)) in H.
  vm_compute in H. discriminate H.
Qed.

(** C10, amended: for every two centers and the same count the function
    adds the same increments [(r_i - 0.5) / 100], those of the draws that
    follow [seed(42)], to the latitude and to the longitude of the
    center, and returns the same risk labels. *)
Theorem generate_surrounding_exposure_same_increments (np : NumpyRandom)
    (g1 g2 : rng_state np) (lat1 lon1 lat2 lon2 : float) (count : nat) :
  let df1 := fst (generate_surrounding_exposure np g1 lat1 lon1 count) in
  let df2 := fst (generate_surrounding_exposure np g2 lat2 lon2 count) in
  let r_lat := np_rand np count (np_seed np 42) in
  let r_lon := np_rand np count (snd r_lat) in
  let dlat := map jitter (fst r_lat) in
  let dlon := map jitter (fst r_lon) in
  df_lat df1 = map (fun d => lat1 + d) dlat
  /\ df_lat df2 = map (fun d => lat2 + d) dlat
  /\ df_lon df1 = map (fun d => lon1 + d) dlon
  /\ df_lon df2 = map (fun d => lon2 + d) dlon
  /\ df_risk df1 = df_risk df2.
Proof.
  cbv zeta. rewrite !generate_surrounding_exposure_unfold. cbv zeta. simpl.
  rewrite !map_map. repeat split; reflexivity.
Qed.

(** ** Elevation lookup *)

Section ElevationLookupFacts.

Variable requests_get : string -> outcome response.
Variable py_str_float : float -> string.
Variables lat lon : float.

Let url : string := elevation_url py_str_float lat lon.
Let lookup : pyval * list string :=
  get_elevation requests_get py_str_float lat lon.

Lemma get_elevation_transport_failure (e : py_exception) :
  requests_get url = Raise e -> lookup = (PNone, [error_message e]).
Proof.
  unfold lookup, get_elevation, get_elevation_try. fold url.
  intros H. rewrite H. reflexivity.
Qed.

Lemma get_elevation_error_status (r : response) :
  requests_get url = Ok r ->
  (400 <= status_code r < 600)%Z ->
  lookup = (PNone, [error_message (HTTPError (status_code r))]).
Proof.
  unfold lookup, get_elevation, get_elevation_try. fold url.
  intros H Hs. rewrite H. simpl. unfold raise_for_status.
  replace ((400 <=? status_code r)%Z && (status_code r <? 600)%Z) with true
    by (symmetry; apply andb_true_iff; split;
        [apply Z.leb_le | apply Z.ltb_lt]; lia).
  reflexivity.
Qed.

Lemma get_elevation_not_json (r : response) :
  requests_get url = Ok r ->
  ~ (400 <= status_code r < 600)%Z ->
  json_body r = None ->
  lookup = (PNone, [error_message JSONDecodeError]).
Proof.
  unfold lookup, get_elevation, get_elevation_try. fold url.
  intros H Hs Hb. rewrite H. simpl. unfold raise_for_status.
  replace ((400 <=? status_code r)%Z && (status_code r <? 600)%Z) with false
    by (symmetry; apply andb_false_iff;
        rewrite Z.leb_gt, Z.ltb_ge; lia).
  simpl. unfold json. rewrite Hb. reflexivity.
Qed.

(** What the body of a decoded answer leads to. *)
Lemma get_elevation_body (r : response) (body : pyval) :
  requests_get url = Ok r ->
  ~ (400 <= status_code r < 600)%Z ->
  json_body r = Some body ->
  match first_elevation body with
  | Some elevation => lookup = (elevation, [])
  | None => fst lookup = PNone /\ (List.length (snd lookup) <= 1)%nat
  end.
Proof.
  unfold lookup, get_elevation, get_elevation_try. fold url.
  intros H Hs Hb. rewrite H. simpl. unfold raise_for_status.
  replace ((400 <=? status_code r)%Z && (status_code r <? 600)%Z) with false
    by (symmetry; apply andb_false_iff;
        rewrite Z.leb_gt, Z.ltb_ge; lia).
  simpl. unfold json. rewrite Hb. simpl.
  destruct body as [| b | z | f | str | l | d]; simpl; auto.
  destruct (dict_lookup "results" d) as [results|]; simpl; auto.
  destruct results as [| b | z | f | str | l | d']; simpl; auto.
  - destruct b; simpl; auto.
  - destruct (z =? 0)%Z; simpl; auto.
  - destruct (PyFloat.truthy f); simpl; auto.
  - destruct str as [|c str]; simpl; auto.
  - destruct l as [|first rest]; simpl; auto.
    destruct first as [| b | z | f | str | l | d']; simpl; auto.
    destruct (dict_lookup "elevation" d'); simpl; auto.
  - destruct d' as [|kv d']; simpl; auto.
Qed.

(** The lookup always returns: a value and at most one message. *)
Lemma get_elevation_total :
  exists value messages,
    lookup = (value, messages) /\ (List.length messages <= 1)%nat.
Proof.
  unfold lookup, get_elevation.
  destruct (get_elevation_try requests_get py_str_float lat lon)
    as [[v|]|e]; eexists; eexists; split; try reflexivity; simpl; lia.
Qed.

End ElevationLookupFacts.

(** C9, as stated, fails on two counts.  A body that is JSON but has no
    usable result, here an empty "results", gives [None] with no message
    at all: [st.error] is called only when the body of the [try] raises.
    And a status that is not a success but also not an error status for
    [raise_for_status], here 304, does not give [None]: with a usable
    body the value comes back. *)
Lemma get_elevation_silent_or_value :
  ~ (forall (requests_get : string -> outcome response)
            (py_str_float : float -> string) (lat lon : float) (r : response),
        requests_get (elevation_url py_str_float lat lon) = Ok r ->
        (exists body, json_body r = Some body /\ first_elevation body = None) ->
        exists message,
          get_elevation requests_get py_str_float lat lon = (PNone, [message]))
  /\ ~ (forall (requests_get : string -> outcome response)
               (py_str_float : float -> string) (lat lon : float)
               (r : response),
           requests_get (elevation_url py_str_float lat lon) = Ok r ->
           ~ (200 <= status_code r < 300)%Z ->
           fst (get_elevation requests_get py_str_float lat lon) = PNone).
Proof.
  split.
  - intros H.
    destruct (H (answers 200 (Some (PDict [("results", PList [])])))
                show_float 20.5937 78.9629
                {| status_code := 200;
                   json_body := Some (PDict [("results", PList [])]) |}
                eq_refl)
      as (message & Hm).
    + eexists. split; reflexivity.
    + vm_compute in Hm. discriminate Hm.
  - intros H.
    specialize (H (answers 304
                     (Some (PDict [("results",
                                    PList [PDict [("elevation", PFloat 2)]])])))
                  show_float 20.5937 78.9629
                  {| status_code := 304;
                     json_body :=
                       Some (PDict [("results",
                                     PList [PDict [("elevation", PFloat 2)]])]) |}
                  eq_refl).
    assert (Hs : ~ (200 <= 304 < 300)%Z) by lia.
    specialize (H Hs). vm_compute in H. discriminate H.
Qed.

(** C9, amended: for every coordinate the lookup returns, a value and at
    most one message shown with [st.error], and never raises.  When the
    transport fails, when the status is an error status (4xx or 5xx,
    those [raise_for_status] rejects) and when the body is not JSON, the
    value is [None] and the one message of the failure is shown.  When
    the body is JSON and has no usable result the value is [None]; no
    message is shown for a missing "results", an empty "results" or a
    first result without "elevation".  For every other status, success
    or not, a body with a usable result gives the value of its first
    result, with no message. *)
Theorem get_elevation_never_raises
    (requests_get : string -> outcome response)
    (py_str_float : float -> string) (lat lon : float) :
  let url := elevation_url py_str_float lat lon in
  let lookup := get_elevation requests_get py_str_float lat lon in
  (exists value messages,
      lookup = (value, messages) /\ (List.length messages <= 1)%nat)
  /\ (forall e, requests_get url = Raise e ->
        lookup = (PNone, [error_message e]))
  /\ (forall r, requests_get url = Ok r ->
        (400 <= status_code r < 600)%Z ->
        lookup = (PNone, [error_message (HTTPError (status_code r))]))
  /\ (forall r, requests_get url = Ok r ->
        ~ (400 <= status_code r < 600)%Z ->
        json_body r = None ->
        lookup = (PNone, [error_message JSONDecodeError]))
  /\ (forall r body, requests_get url = Ok r ->
        ~ (400 <= status_code r < 600)%Z ->
        json_body r = Some body ->
        first_elevation body = None ->
        fst lookup = PNone /\ (List.length (snd lookup) <= 1)%nat)
  /\ (forall r d, requests_get url = Ok r ->
        ~ (400 <= status_code r < 600)%Z ->
        json_body r = Some (PDict d) ->
        dict_lookup "results" d = None
        \/ dict_lookup "results" d = Some (PList [])
        \/ (exists first rest,
               dict_lookup "results" d = Some (PList (PDict first :: rest))
               /\ dict_lookup "elevation" first = None) ->
        lookup = (PNone, []))
  /\ (forall r body elevation, requests_get url = Ok r ->
        ~ (400 <= status_code r < 600)%Z ->
        json_body r = Some body ->
        first_elevation body = Some elevation ->
        lookup = (elevation, [])).
Proof.
  cbv zeta.
  split; [apply get_elevation_total|].
  split; [intros e; apply get_elevation_transport_failure|].
  split; [intros r; apply get_elevation_error_status|].
  split; [intros r; apply get_elevation_not_json|].
  split; [|split].
  - intros r body Hr Hs Hb Hnone.
    pose proof (get_elevation_body requests_get py_str_float lat lon
                  r body Hr Hs Hb) as H.
    cbv zeta in H. now rewrite Hnone in H.
  - intros r d Hr Hs Hb Hshape.
    unfold get_elevation, get_elevation_try. cbv zeta.
    rewrite Hr. simpl. unfold raise_for_status.
    replace ((400 <=? status_code r)%Z && (status_code r <? 600)%Z) with false
      by (symmetry; apply andb_false_iff;
          rewrite Z.leb_gt, Z.ltb_ge; lia).
    simpl. unfold json. rewrite Hb. simpl.
    destruct Hshape as [H | [H | (first & rest & H & He)]]; rewrite H; simpl;
      try reflexivity.
    now rewrite He.
  - intros r body elevation Hr Hs Hb Hsome.
    pose proof (get_elevation_body requests_get py_str_float lat lon
                  r body Hr Hs Hb) as H.
    cbv zeta in H. now rewrite Hsome in H.
Qed.

(** ** PDF report *)

(** C2, with both fields absent: the elevation is printed as "N/A", the
    response time is printed as the word "None"; its field does not
    contain "N/A". *)
Theorem create_pdf_report_absent_fields
    (fmt_6f py_str_float : float -> string) (lat lon : float)
    (flood_risk urban_flood : string) (fire_station : option string)
    (exposure_df : DataFrame) :
  let report :=
    create_pdf_report fmt_6f py_str_float lat lon None flood_risk urban_flood
      fire_station None exposure_df in
  elevation_field report = "Elevation: N/A meters"
  /\ response_time_field report
     = "Fire Brigade Response Time Estimate: None minutes"
  /\ contains "N/A" (response_time_field report) = false.
Proof.
  cbv zeta. repeat split; reflexivity.
Qed.

(** * Further properties *)

(** ** More order facts of the binary64 comparisons *)
Module PyFloatOrder.

Local Open Scope float_scope.

Ltac compare_cases :=
  repeat match goal with
    | |- context [Pos.compare_cont Eq ?a ?b] =>
        change (Pos.compare_cont Eq a b) with (Pos.compare a b)
    | H : context [Pos.compare_cont Eq ?a ?b] |- _ =>
        change (Pos.compare_cont Eq a b) with (Pos.compare a b) in H
    end;
  repeat match goal with
    | |- context [Z.compare ?a ?b] =>
        destruct (Z.compare_spec a b); subst
    | H : context [Z.compare ?a ?b] |- _ =>
        destruct (Z.compare_spec a b); subst
    | |- context [Pos.compare ?a ?b] =>
        destruct (Pos.compare_spec a b); subst
    | H : context [Pos.compare ?a ?b] |- _ =>
        destruct (Pos.compare_spec a b); subst
    end;
  simpl in *; try discriminate; try reflexivity; try lia.

Lemma SFleb_trans (x y z : spec_float) :
  SFleb x y = true -> SFleb y z = true -> SFleb x z = true.
Proof.
  unfold SFleb, SFcompare.
  destruct x as [sx|sx| |sx mx ex], y as [sy|sy| |sy my ey],
           z as [sz|sz| |sz mz ez];
    try destruct sx; try destruct sy; try destruct sz;
    simpl; try discriminate; try reflexivity;
    intros Hxy Hyz; compare_cases.
Qed.

(** Two floats that are not NaN are comparable. *)
Lemma SFleb_total (x y : spec_float) :
  x <> S754_nan -> y <> S754_nan ->
  SFltb x y = false -> SFleb y x = true.
Proof.
  unfold SFleb, SFltb, SFcompare.
  destruct x as [sx|sx| |sx mx ex], y as [sy|sy| |sy my ey];
    try destruct sx; try destruct sy;
    simpl; try discriminate; try reflexivity; try congruence;
    intros _ _ H; compare_cases.
Qed.

Lemma SFleb_not_nan (x y : spec_float) :
  SFleb x y = true -> x <> S754_nan /\ y <> S754_nan.
Proof.
  destruct x as [sx|sx| |sx mx ex], y as [sy|sy| |sy my ey];
    try discriminate; intros _; split; discriminate.
Qed.

Lemma SFltb_not_nan (x y : spec_float) :
  SFltb x y = true -> x <> S754_nan /\ y <> S754_nan.
Proof.
  destruct x as [sx|sx| |sx mx ex], y as [sy|sy| |sy my ey];
    try discriminate; intros _; split; discriminate.
Qed.

Lemma SFeqb_refl (x : spec_float) : x <> S754_nan -> SFeqb x x = true.
Proof.
  unfold SFeqb, SFcompare.
  destruct x as [sx|sx| |sx mx ex]; try destruct sx; simpl;
    try reflexivity; try congruence; intros _;
    change (Pos.compare_cont Eq mx mx) with (Pos.compare mx mx);
    rewrite Z.compare_refl, Pos.compare_refl; reflexivity.
Qed.

Lemma SFleb_refl (x : spec_float) : x <> S754_nan -> SFleb x x = true.
Proof.
  unfold SFleb, SFcompare.
  destruct x as [sx|sx| |sx mx ex]; try destruct sx; simpl;
    try reflexivity; try congruence; intros _;
    change (Pos.compare_cont Eq mx mx) with (Pos.compare mx mx);
    rewrite Z.compare_refl, Pos.compare_refl; reflexivity.
Qed.

(** [is_nan] says that the float is the NaN of the specification. *)
Lemma is_nan_spec (x : float) :
  PrimFloat.is_nan x = true <-> Prim2SF x = S754_nan.
Proof.
  unfold PrimFloat.is_nan. rewrite FloatAxioms.eqb_spec. split.
  - intros H. apply negb_true_iff in H.
    destruct (Prim2SF x) as [s|s| |s m e] eqn:E; try reflexivity;
      rewrite SFeqb_refl in H by discriminate; discriminate.
  - intros ->. reflexivity.
Qed.

Lemma is_nan_false (x : float) :
  PrimFloat.is_nan x = false <-> Prim2SF x <> S754_nan.
Proof.
  rewrite <- is_nan_spec. destruct (PrimFloat.is_nan x); split; congruence.
Qed.

Lemma le_trans (x y z : float) :
  PyFloat.le x y -> PyFloat.le y z -> PyFloat.le x z.
Proof. unfold PyFloat.le. rewrite !FloatAxioms.leb_spec. apply SFleb_trans. Qed.

Lemma le_refl_l (x y : float) : PyFloat.le x y -> PyFloat.le x x.
Proof.
  unfold PyFloat.le. rewrite !FloatAxioms.leb_spec. intros H.
  apply SFleb_refl. now apply SFleb_not_nan in H.
Qed.

Lemma le_refl_r (x y : float) : PyFloat.le x y -> PyFloat.le y y.
Proof.
  unfold PyFloat.le. rewrite !FloatAxioms.leb_spec. intros H.
  apply SFleb_refl. now apply SFleb_not_nan in H.
Qed.

(** A comparison with a NaN is false. *)
Lemma nan_compares_false (x y : float) :
  PrimFloat.is_nan x = true ->
  (x <? y) = false /\ (y <? x) = false
  /\ (x <=? y) = false /\ (y <=? x) = false.
Proof.
  intros H. apply is_nan_spec in H.
  rewrite !FloatAxioms.ltb_spec, !FloatAxioms.leb_spec, H.
  unfold SFltb, SFleb, SFcompare. destruct (Prim2SF y); repeat split.
Qed.

(** Of two floats that are not NaN, the one that is not below the other
    is at least the other. *)
Lemma not_lt_le (x y : float) :
  PrimFloat.is_nan x = false -> PrimFloat.is_nan y = false ->
  (x <? y) = false -> PyFloat.le y x.
Proof.
  unfold PyFloat.le. rewrite FloatAxioms.ltb_spec, FloatAxioms.leb_spec.
  intros Hx Hy. apply SFleb_total; now apply is_nan_false.
Qed.

Lemma lt_not_nan (x y : float) :
  PyFloat.lt x y -> PrimFloat.is_nan x = false /\ PrimFloat.is_nan y = false.
Proof.
  unfold PyFloat.lt. rewrite FloatAxioms.ltb_spec. intros H.
  apply SFltb_not_nan in H. now rewrite !is_nan_false.
Qed.

Lemma le_not_nan (x y : float) :
  PyFloat.le x y -> PrimFloat.is_nan x = false /\ PrimFloat.is_nan y = false.
Proof.
  unfold PyFloat.le. rewrite FloatAxioms.leb_spec. intros H.
  apply SFleb_not_nan in H. now rewrite !is_nan_false.
Qed.

End PyFloatOrder.

(** ** Flood risk classifier: which elevations get which label *)

(** The label of a present elevation tells its range, and conversely:
    High exactly below 5, Medium exactly from 5 (included) to 15
    (excluded), Low exactly from 15 on or for a NaN, which fails both
    comparisons; a present elevation is never Unknown. *)
Theorem classify_flood_risk_label_iff (e : float) :
  (classify_flood_risk (Some e) = "High Flood Risk" <-> PyFloat.lt e 5)
  /\ (classify_flood_risk (Some e) = "Medium Flood Risk"
      <-> PyFloat.le 5 e /\ PyFloat.lt e 15)
  /\ (classify_flood_risk (Some e) = "Low Flood Risk"
      <-> PyFloat.le 15 e \/ PrimFloat.is_nan e = true)
  /\ classify_flood_risk (Some e) <> "Unknown".
Proof.
  unfold classify_flood_risk, PyFloat.lt.
  destruct (e <? 5) eqn:E5; [|destruct (e <? 15) eqn:E15].
  - (* below 5 *)
    destruct (PyFloatOrder.lt_not_nan e 5 E5) as [Hnan _].
    assert (L15 : (e <? 15) = true)
      by (apply (PyFloatFacts.lt_trans e 5 15); [exact E5 | reflexivity]).
    repeat split; try discriminate; try reflexivity.
    + intros [H _]. apply PyFloatFacts.le_not_gt in H. congruence.
    + intros [H|H]; [|congruence].
      apply PyFloatFacts.le_not_gt in H. congruence.
  - (* from 5 to 15 *)
    destruct (PyFloatOrder.lt_not_nan e 15 E15) as [Hnan _].
    repeat split; try discriminate; try reflexivity.
    + apply PyFloatOrder.not_lt_le; [exact Hnan | reflexivity | exact E5].
    + intros [H|H]; [|congruence].
      apply PyFloatFacts.le_not_gt in H. congruence.
  - (* from 15 on, or a NaN *)
    repeat split; try discriminate; try reflexivity.
    + intros [_ H]. discriminate H.
    + intros _. destruct (PrimFloat.is_nan e) eqn:Hnan; [now right|left].
      apply PyFloatOrder.not_lt_le; [exact Hnan | reflexivity | exact E15].
Qed.

(** ** Urban flood zones: what a zone contains *)

(** A coordinate that is a NaN lies in no rectangle. *)
Lemma point_in_bounds_nan (lat lon : float)
    (b : (float * float) * (float * float)) :
  PrimFloat.is_nan lat = true \/ PrimFloat.is_nan lon = true ->
  point_in_bounds lat lon b = false.
Proof.
  destruct b as [[lat_min lon_min] [lat_max lon_max]].
  unfold point_in_bounds. intros [H|H].
  - destruct (PyFloatOrder.nan_compares_false lat lat_min H) as (_ & _ & _ & ->).
    reflexivity.
  - destruct (PyFloatOrder.nan_compares_false lon lon_min H) as (_ & _ & _ & ->).
    now rewrite andb_false_r.
Qed.

(** A point whose latitude or longitude is a NaN is in no zone, whatever
    the zones are: the query answers "Low Urban Flood Risk". *)
Theorem check_urban_flood_risk_nan (lat lon : float) :
  PrimFloat.is_nan lat = true \/ PrimFloat.is_nan lon = true ->
  (forall zones, scan_zones zones lat lon = "Low Urban Flood Risk")
  /\ check_urban_flood_risk lat lon = "Low Urban Flood Risk".
Proof.
  intros H.
  assert (Hall : forall zones, scan_zones zones lat lon = "Low Urban Flood Risk").
  { intros zones. apply scan_zones_no_match, Forall_forall.
    intros z _. now apply point_in_bounds_nan. }
  split; [exact Hall | apply Hall].
Qed.

Lemma check_urban_flood_risk_nan_witness :
  (forall zones, scan_zones zones nan 72.8 = "Low Urban Flood Risk")
  /\ check_urban_flood_risk nan 72.8 = "Low Urban Flood Risk".
Proof.
  apply (check_urban_flood_risk_nan nan 72.8).
  left. reflexivity.
Defined.

(** A rectangle with a point in it has its bounds in order. *)
Lemma point_in_bounds_ordered (lat lon lat_min lon_min lat_max lon_max : float) :
  point_in_bounds lat lon ((lat_min, lon_min), (lat_max, lon_max)) = true ->
  PyFloat.le lat_min lat_max /\ PyFloat.le lon_min lon_max.
Proof.
  intros H. apply point_in_bounds_iff in H.
  destruct H as [[H1 H2] [H3 H4]].
  split; eapply PyFloatOrder.le_trans; eassumption.
Qed.

(** The label of a zone tells its name. *)
Lemma append_paren_inj (a b : string) : a ++ ")" = b ++ ")" -> a = b.
Proof.
  revert b. induction a as [|c a IH]; intros [|d b] H; simpl in H.
  - reflexivity.
  - injection H as _ H. destruct b; discriminate H.
  - injection H as _ H. destruct a; discriminate H.
  - injection H as -> H. f_equal. now apply IH.
Qed.

Lemma zone_label_inj (a b : string) :
  "High Urban Flood Risk (" ++ a ++ ")" = "High Urban Flood Risk (" ++ b ++ ")"
  -> a = b.
Proof.
  intros H. simpl in H. injection H as H. now apply append_paren_inj.
Qed.

(** When the rectangles of a zone list do not overlap and no two zones
    share a name, the loop names a zone exactly when the point is in it:
    the order of the list plays no part. *)
Lemma scan_zones_names_iff (zones : list FloodZone) (lat lon : float)
    (zone : FloodZone) :
  (forall z1 z2, In z1 zones -> In z2 zones ->
     point_in_bounds lat lon (bounds z1) = true ->
     point_in_bounds lat lon (bounds z2) = true -> z1 = z2) ->
  (forall z1 z2, In z1 zones -> In z2 zones ->
     zone_name z1 = zone_name z2 -> z1 = z2) ->
  In zone zones ->
  (scan_zones zones lat lon = "High Urban Flood Risk (" ++ zone_name zone ++ ")"
   <-> point_in_bounds lat lon (bounds zone) = true).
Proof.
  intros Hsep Hnames Hin.
  rewrite scan_zones_zoneContaining. unfold zoneContaining.
  destruct (find (fun z => point_in_bounds lat lon (bounds z)) zones)
    as [z|] eqn:F; simpl.
  - apply find_some in F. destruct F as [Hz Hpz]. split.
    + intros H. apply zone_label_inj in H.
      now rewrite <- (Hnames z zone Hz Hin H).
    + intros H. now rewrite (Hsep z zone Hz Hin Hpz H).
  - split; [discriminate|].
    intros H. pose proof (find_none _ _ F zone Hin) as Hnone.
    simpl in Hnone. congruence.
Qed.

(** From [a <= x] and [x <= b] with [b < a]: no such [x]. *)
Ltac separate_axis :=
  match goal with
  | H1 : PyFloat.le ?a ?x, H2 : PyFloat.le ?x ?b |- _ =>
      let H := fresh "H" in
      pose proof (PyFloatOrder.le_trans a x b H1 H2) as H;
      vm_compute in H; discriminate H
  end.

(** The five rectangles do not overlap: Chennai and Bengaluru share
    latitudes but not longitudes, all other pairs share no latitude. *)
Lemma flood_zones_separated (lat lon : float) (z1 z2 : FloodZone) :
  In z1 flood_zones -> In z2 flood_zones ->
  point_in_bounds lat lon (bounds z1) = true ->
  point_in_bounds lat lon (bounds z2) = true -> z1 = z2.
Proof.
  unfold flood_zones. simpl In.
  intros H1 H2 P1 P2.
  repeat match goal with
         | H : _ \/ _ |- _ => destruct H as [H|H]
         | H : False |- _ => destruct H
         end;
    subst z1 z2; try reflexivity; exfalso;
    cbn [bounds] in P1, P2;
    apply point_in_bounds_iff in P1; apply point_in_bounds_iff in P2;
    destruct P1 as [[A1 A2] [A3 A4]]; destruct P2 as [[B1 B2] [B3 B4]];
    separate_axis.
Qed.

Lemma flood_zones_names_distinct (z1 z2 : FloodZone) :
  In z1 flood_zones -> In z2 flood_zones ->
  zone_name z1 = zone_name z2 -> z1 = z2.
Proof.
  unfold flood_zones. simpl In.
  intros H1 H2 N.
  repeat match goal with
         | H : _ \/ _ |- _ => destruct H as [H|H]
         | H : False |- _ => destruct H
         end;
    subst z1 z2; try reflexivity; discriminate N.
Qed.

(** A zone list answers "Low Urban Flood Risk" only for a point that is
    in none of its rectangles. *)
Lemma scan_zones_low_iff (zones : list FloodZone) (lat lon : float) :
  scan_zones zones lat lon = "Low Urban Flood Risk"
  <-> Forall (fun z => point_in_bounds lat lon (bounds z) = false) zones.
Proof.
  split; [|apply scan_zones_no_match].
  induction zones as [|zone zones IH]; simpl; [constructor|].
  destruct (point_in_bounds lat lon (bounds zone)) eqn:E.
  - discriminate.
  - intros H. constructor; [exact E | now apply IH].
Qed.

(** Over the five fixed zones the answer tells where the point is: it is
    "Low Urban Flood Risk" exactly when the point is in no zone, it names
    a zone exactly when the point is within the bounds of that zone, and
    a point lies in at most one zone, so the order of the list plays no
    part. *)
Theorem check_urban_flood_risk_zone_iff (lat lon : float) :
  (check_urban_flood_risk lat lon = "Low Urban Flood Risk"
   <-> Forall (fun z => point_in_bounds lat lon (bounds z) = false)
              flood_zones)
  /\ (forall zone, In zone flood_zones ->
        (check_urban_flood_risk lat lon
         = "High Urban Flood Risk (" ++ zone_name zone ++ ")"
         <-> point_in_bounds lat lon (bounds zone) = true))
  /\ (forall z1 z2, In z1 flood_zones -> In z2 flood_zones ->
        point_in_bounds lat lon (bounds z1) = true ->
        point_in_bounds lat lon (bounds z2) = true -> z1 = z2).
Proof.
  split; [apply scan_zones_low_iff|]. split.
  - intros zone Hin.
    unfold check_urban_flood_risk. apply scan_zones_names_iff.
    + apply flood_zones_separated.
    + apply flood_zones_names_distinct.
    + exact Hin.
  - apply flood_zones_separated.
Qed.

(** ** The rectangles drawn on the map *)

(** A zone contains some point exactly when its bounds are in order
    (south-west corner first), and exactly then the four vertices drawn
    for it, given as [[lon, lat]], are points of the zone; each vertex
    drawn for one of the five fixed zones is classified into that zone. *)
Theorem zone_polygon_corners_in_bounds :
  (forall zone : FloodZone,
      let '((lat_min, lon_min), (lat_max, lon_max)) := bounds zone in
      ((exists lat lon, point_in_bounds lat lon (bounds zone) = true)
       <-> PyFloat.le lat_min lat_max /\ PyFloat.le lon_min lon_max)
      /\ (PyFloat.le lat_min lat_max /\ PyFloat.le lon_min lon_max
          <-> Forall (fun vertex =>
                        point_in_bounds (snd vertex) (fst vertex) (bounds zone)
                        = true)
                     (zone_polygon zone)))
  /\ Forall2 (fun zone polygon =>
                Forall (fun vertex =>
                          check_urban_flood_risk (snd vertex) (fst vertex)
                          = "High Urban Flood Risk (" ++ zone_name zone ++ ")")
                       polygon)
             flood_zones flood_zone_polygons.
Proof.
  split.
  - intros [name [[lat_min lon_min] [lat_max lon_max]]].
    unfold zone_polygon. cbn [bounds].
    assert (Hcorners :
      PyFloat.le lat_min lat_max /\ PyFloat.le lon_min lon_max ->
      Forall (fun vertex =>
                point_in_bounds (snd vertex) (fst vertex)
                  ((lat_min, lon_min), (lat_max, lon_max)) = true)
             [ (lon_min, lat_min); (lon_max, lat_min);
               (lon_max, lat_max); (lon_min, lat_max) ]).
    { intros [Hlat Hlon].
      pose proof (PyFloatOrder.le_refl_l _ _ Hlat).
      pose proof (PyFloatOrder.le_refl_r _ _ Hlat).
      pose proof (PyFloatOrder.le_refl_l _ _ Hlon).
      pose proof (PyFloatOrder.le_refl_r _ _ Hlon).
      repeat constructor; cbn [fst snd]; apply point_in_bounds_iff; tauto. }
    split; split.
    + intros (lat & lon & H). now apply point_in_bounds_ordered in H.
    + intros H. apply Hcorners in H. inversion H as [|v l Hv _]; subst.
      exists lat_min, lon_min. exact Hv.
    + exact Hcorners.
    + intros H. inversion H as [|v l Hv _]; subst. cbn [fst snd] in Hv.
      now apply point_in_bounds_ordered in Hv.
  - unfold flood_zone_polygons, flood_zones.
    repeat constructor.
Qed.

(** ** Nearest fire station: the station returned is a fastest one *)

Section NearestStationMinimum.

Variable geodesic_km : float * float -> float * float -> float.
Variables lat lon : float.

Let time (fs : FireStation) : float := time_to geodesic_km lat lon fs.
Let loop (registry : list FireStation) (st : option float * option string) :=
  nearest_loop geodesic_km registry lat lon st.

Lemma nearest_loop_step (fs : FireStation) (registry : list FireStation)
    (st : option float * option string) :
  loop (fs :: registry) st
  = loop registry (nearest_step geodesic_km lat lon st fs).
Proof. reflexivity. Qed.

(** The loop keeps a station of those seen that none of them strictly
    beats (also when some travel time is a NaN). *)
Lemma nearest_loop_minimal_from (registry seen : list FireStation)
    (fs : FireStation) :
  In fs seen ->
  Forall (fun q => (time q <? time fs) = false) seen ->
  exists best,
    In best (seen ++ registry)%list
    /\ loop registry (Some (time fs), Some (fs_name fs))
       = (Some (time best), Some (fs_name best))
    /\ Forall (fun q => (time q <? time best) = false) (seen ++ registry)%list.
Proof.
  revert seen fs.
  induction registry as [|p registry IH]; intros seen fs Hin Hseen.
  - exists fs. rewrite app_nil_r. now repeat split.
  - rewrite nearest_loop_step. unfold nearest_step.
    fold (time p). destruct (time p <? time fs) eqn:E.
    + destruct (IH (seen ++ [p])%list p) as (best & Hbest & Hloop & Hall).
      * apply in_or_app. right. now left.
      * apply Forall_app. split.
        -- eapply Forall_impl; [|exact Hseen].
           intros q Hq. cbv beta in Hq.
           destruct (time q <? time p) eqn:Eq; [|reflexivity].
           rewrite <- Hq. symmetry.
           exact (PyFloatFacts.lt_trans _ _ _ Eq E).
        -- constructor; [apply PyFloatFacts.ltb_irrefl | constructor].
      * rewrite <- app_assoc in Hbest, Hall. simpl in Hbest, Hall.
        exists best. now repeat split.
    + destruct (IH (seen ++ [p])%list fs) as (best & Hbest & Hloop & Hall).
      * apply in_or_app. now left.
      * apply Forall_app. split; [exact Hseen|].
        constructor; [exact E | constructor].
      * rewrite <- app_assoc in Hbest, Hall. simpl in Hbest, Hall.
        exists best. now repeat split.
Qed.

Lemma nearest_loop_minimal (registry : list FireStation) :
  registry <> [] ->
  exists best,
    In best registry
    /\ loop registry (None, None) = (Some (time best), Some (fs_name best))
    /\ Forall (fun q => (time q <? time best) = false) registry.
Proof.
  destruct registry as [|fs registry]; [congruence|]. intros _.
  rewrite nearest_loop_step.
  change (nearest_step geodesic_km lat lon (None, None) fs)
    with (Some (time fs), Some (fs_name fs)).
  apply (nearest_loop_minimal_from registry [fs] fs).
  - now left.
  - constructor; [apply PyFloatFacts.ltb_irrefl | constructor].
Qed.

(** A station strictly faster than every other one is kept from the
    moment the loop meets it, wherever it stands in the registry. *)
Lemma nearest_step_strict (fs p : FireStation)
    (st : option float * option string) :
  p = fs \/ PyFloat.lt (time fs) (time p) ->
  st = (Some (time fs), Some (fs_name fs))
  \/ match fst st with None => True | Some m => PyFloat.lt (time fs) m end ->
  let st' := nearest_step geodesic_km lat lon st p in
  (p = fs -> st' = (Some (time fs), Some (fs_name fs)))
  /\ (st' = (Some (time fs), Some (fs_name fs))
      \/ match fst st' with None => True | Some m => PyFloat.lt (time fs) m end).
Proof.
  intros Hp Hst. cbv zeta. unfold nearest_step.
  destruct Hst as [->|Hst].
  - fold (time p). destruct Hp as [->|Hp].
    + rewrite PyFloatFacts.ltb_irrefl. split; [reflexivity | now left].
    + assert (E : (time p <? time fs) = false).
      { destruct (time p <? time fs) eqn:E; [|reflexivity].
        rewrite <- (PyFloatFacts.ltb_irrefl (time fs)). symmetry.
        exact (PyFloatFacts.lt_trans _ _ _ Hp E). }
      rewrite E. split; [reflexivity | now left].
  - destruct st as [[m|] c]; fold (time p); cbn [fst] in Hst.
    + destruct Hp as [->|Hp].
      * unfold PyFloat.lt in Hst. rewrite Hst. split; [reflexivity | now left].
      * destruct (time p <? m).
        -- split; [|right; exact Hp].
           intros ->. reflexivity.
        -- split; [|right; exact Hst].
           intros ->. exfalso. unfold PyFloat.lt in Hp.
           rewrite PyFloatFacts.ltb_irrefl in Hp. discriminate Hp.
    + destruct Hp as [->|Hp].
      * split; [reflexivity | now left].
      * split; [|right; exact Hp].
        intros ->. reflexivity.
Qed.

Lemma nearest_loop_strict (registry : list FireStation) (fs : FireStation)
    (st : option float * option string) :
  In fs registry ->
  Forall (fun p => p = fs \/ PyFloat.lt (time fs) (time p)) registry ->
  st = (Some (time fs), Some (fs_name fs))
  \/ match fst st with None => True | Some m => PyFloat.lt (time fs) m end ->
  loop registry st = (Some (time fs), Some (fs_name fs)).
Proof.
  revert st. induction registry as [|p registry IH]; intros st Hin Hall Hst.
  - destruct Hin.
  - inversion Hall as [|p' l Hp Hrest]; subst.
    rewrite nearest_loop_step.
    destruct (nearest_step_strict fs p st Hp Hst) as [Hfs Hst'].
    destruct Hin as [->|Hin].
    + rewrite (Hfs eq_refl).
      apply (nearest_loop_keeps geodesic_km lat lon).
      eapply Forall_impl; [|exact Hrest].
      intros q [->|Hq]; [apply PyFloatFacts.ltb_irrefl|].
      fold (time q) (time fs).
      destruct (time q <? time fs) eqn:E; [|reflexivity].
      rewrite <- (PyFloatFacts.ltb_irrefl (time fs)). symmetry.
      exact (PyFloatFacts.lt_trans _ _ _ Hq E).
    + now apply IH.
Qed.

End NearestStationMinimum.

(** For a registry with at least one station, the station returned is a
    station of the registry whose travel time no station of the registry
    strictly beats; the time returned is that travel time rounded, or
    absent when it is a zero. *)
Theorem estimate_response_time_in_minimal
    (geodesic_km : float * float -> float * float -> float)
    (round1 : float -> float) (registry : list FireStation) (lat lon : float) :
  registry <> [] ->
  exists best,
    In best registry
    /\ Forall (fun q => (time_to geodesic_km lat lon q
                         <? time_to geodesic_km lat lon best) = false) registry
    /\ estimate_response_time_in geodesic_km round1 registry lat lon
       = (Some (fs_name best),
          if PyFloat.truthy (time_to geodesic_km lat lon best)
          then Some (round1 (time_to geodesic_km lat lon best))
          else None).
Proof.
  intros Hne.
  destruct (nearest_loop_minimal geodesic_km lat lon registry Hne)
    as (best & Hin & Hloop & Hall).
  exists best. split; [exact Hin|]. split; [exact Hall|].
  unfold estimate_response_time_in. now rewrite Hloop.
Qed.

Lemma estimate_response_time_in_minimal_witness :
  exists best,
    In best tie_registry
    /\ Forall (fun q => (time_to flat_km 0 0 q
                         <? time_to flat_km 0 0 best) = false) tie_registry
    /\ estimate_response_time_in flat_km keep_float tie_registry 0 0
       = (Some (fs_name best),
          if PyFloat.truthy (time_to flat_km 0 0 best)
          then Some (keep_float (time_to flat_km 0 0 best))
          else None).
Proof.
  apply (estimate_response_time_in_minimal flat_km keep_float tie_registry 0 0).
  discriminate.
Defined.

(** When one station is strictly faster than every other station of the
    registry, it is the one returned, wherever it stands in the
    registry. *)
Theorem estimate_response_time_in_strictly_nearest
    (geodesic_km : float * float -> float * float -> float)
    (round1 : float -> float) (registry : list FireStation)
    (fs : FireStation) (lat lon : float) :
  In fs registry ->
  Forall (fun p => p = fs
                   \/ PyFloat.lt (time_to geodesic_km lat lon fs)
                                 (time_to geodesic_km lat lon p)) registry ->
  estimate_response_time_in geodesic_km round1 registry lat lon
  = (Some (fs_name fs),
     if PyFloat.truthy (time_to geodesic_km lat lon fs)
     then Some (round1 (time_to geodesic_km lat lon fs))
     else None).
Proof.
  intros Hin Hall.
  unfold estimate_response_time_in.
  rewrite (nearest_loop_strict geodesic_km lat lon registry fs (None, None)
             Hin Hall); [reflexivity|].
  right. exact I.
Qed.

Lemma estimate_response_time_in_strictly_nearest_witness :
  let south := {| fs_name := "South"; fs_lat := -1; fs_lon := 0 |} in
  estimate_response_time_in flat_km keep_float (rev (tl tie_registry)) 0 0
  = (Some (fs_name south),
     if PyFloat.truthy (time_to flat_km 0 0 south)
     then Some (keep_float (time_to flat_km 0 0 south))
     else None).
Proof.
  apply (estimate_response_time_in_strictly_nearest flat_km keep_float
           (rev (tl tie_registry))
           {| fs_name := "South"; fs_lat := -1; fs_lon := 0 |} 0 0).
  - right. left. reflexivity.
  - apply Forall_cons; [right; vm_compute; reflexivity|].
    apply Forall_cons; [left; reflexivity|].
    apply Forall_nil.
Defined.

(** ** Elevation lookup: when a value comes back *)

(** The lookup returns a value other than [None] exactly when the
    transport succeeded, the status is no error status, the body is JSON
    and [results[0]] has that value under "elevation"; the value is
    handed back as it is, whatever its JSON type, and no message is shown
    with it. *)
Theorem get_elevation_value_iff
    (requests_get : string -> outcome response)
    (py_str_float : float -> string) (lat lon : float) (v : pyval) :
  v <> PNone ->
  let url := elevation_url py_str_float lat lon in
  let lookup := get_elevation requests_get py_str_float lat lon in
  (fst lookup = v
   <-> exists r body,
         requests_get url = Ok r
         /\ ~ (400 <= status_code r < 600)%Z
         /\ json_body r = Some body
         /\ first_elevation body = Some v)
  /\ (fst lookup = v -> snd lookup = []).
Proof.
  intros Hv. cbv zeta.
  assert (Hcases :
    fst (get_elevation requests_get py_str_float lat lon) = v ->
    (exists r body,
        requests_get (elevation_url py_str_float lat lon) = Ok r
        /\ ~ (400 <= status_code r < 600)%Z
        /\ json_body r = Some body
        /\ first_elevation body = Some v)
    /\ snd (get_elevation requests_get py_str_float lat lon) = []).
  { intros Hfst.
    destruct (requests_get (elevation_url py_str_float lat lon))
      as [r|e] eqn:Hr.
    - destruct (Z_le_dec 400 (status_code r)) as [Hlo|Hlo];
        [destruct (Z_lt_dec (status_code r) 600) as [Hhi|Hhi]|].
      + pose proof (get_elevation_error_status requests_get py_str_float
                      lat lon r Hr (conj Hlo Hhi)) as H.
        cbv zeta in H. rewrite H in Hfst. simpl in Hfst. congruence.
      + assert (Hs : ~ (400 <= status_code r < 600)%Z) by lia.
        destruct (json_body r) as [body|] eqn:Hb.
        * pose proof (get_elevation_body requests_get py_str_float
                        lat lon r body Hr Hs Hb) as H.
          cbv zeta in H.
          destruct (first_elevation body) as [elevation|] eqn:Hfirst.
          -- rewrite H in Hfst |- *. simpl in Hfst. subst elevation.
             split; [|reflexivity].
             exists r, body. now repeat split.
          -- destruct H as [H _]. congruence.
        * pose proof (get_elevation_not_json requests_get py_str_float
                        lat lon r Hr Hs Hb) as H.
          cbv zeta in H. rewrite H in Hfst. simpl in Hfst. congruence.
      + assert (Hs : ~ (400 <= status_code r < 600)%Z) by lia.
        destruct (json_body r) as [body|] eqn:Hb.
        * pose proof (get_elevation_body requests_get py_str_float
                        lat lon r body Hr Hs Hb) as H.
          cbv zeta in H.
          destruct (first_elevation body) as [elevation|] eqn:Hfirst.
          -- rewrite H in Hfst |- *. simpl in Hfst. subst elevation.
             split; [|reflexivity].
             exists r, body. now repeat split.
          -- destruct H as [H _]. congruence.
        * pose proof (get_elevation_not_json requests_get py_str_float
                        lat lon r Hr Hs Hb) as H.
          cbv zeta in H. rewrite H in Hfst. simpl in Hfst. congruence.
    - pose proof (get_elevation_transport_failure requests_get py_str_float
                    lat lon e Hr) as H.
      cbv zeta in H. rewrite H in Hfst. simpl in Hfst. congruence. }
  split; [split|].
  - intros H. now apply Hcases.
  - intros (r & body & Hr & Hs & Hb & Hfirst).
    pose proof (get_elevation_body requests_get py_str_float
                  lat lon r body Hr Hs Hb) as H.
    cbv zeta in H. rewrite Hfirst in H. now rewrite H.
  - intros H. now apply Hcases.
Qed.

Lemma get_elevation_value_iff_witness :
  let requests_get :=
    answers 200
      (Some (PDict [("results",
                     PList [PDict [("latitude", PFloat 19.076);
                                   ("longitude", PFloat 72.8777);
                                   ("elevation", PInt 14)]])])) in
  let url := elevation_url show_float 19.076 72.8777 in
  let lookup := get_elevation requests_get show_float 19.076 72.8777 in
  (fst lookup = PInt 14
   <-> exists r body,
         requests_get url = Ok r
         /\ ~ (400 <= status_code r < 600)%Z
         /\ json_body r = Some body
         /\ first_elevation body = Some (PInt 14))
  /\ (fst lookup = PInt 14 -> snd lookup = []).
Proof.
  apply (get_elevation_value_iff
           (answers 200
              (Some (PDict [("results",
                             PList [PDict [("latitude", PFloat 19.076);
                                           ("longitude", PFloat 72.8777);
                                           ("elevation", PInt 14)]])])))
           show_float 19.076 72.8777 (PInt 14)).
  discriminate.
Defined.

(** ** PDF report: the table of nearby properties *)

Lemma cell_texts_app (ops1 ops2 : list pdf_op) :
  cell_texts (ops1 ++ ops2)%list = (cell_texts ops1 ++ cell_texts ops2)%list.
Proof.
  induction ops1 as [|op ops1 IH]; simpl; [reflexivity|].
  destruct (cell_text op); simpl; now rewrite IH.
Qed.

Lemma cell_texts_rows (fmt_6f : float -> string)
    (rows : list (float * float * string)) :
  cell_texts (flat_map (exposure_row_cells fmt_6f) rows)
  = flat_map (fun row => [fmt_6f (fst (fst row)); fmt_6f (snd (fst row)); snd row])
             rows.
Proof.
  induction rows as [|[[row_lat row_lon] row_risk] rows IH]; simpl;
    [reflexivity|].
  now rewrite IH.
Qed.

Lemma length_row_texts (fmt_6f : float -> string)
    (rows : list (float * float * string)) :
  List.length
    (flat_map (fun row => [fmt_6f (fst (fst row)); fmt_6f (snd (fst row)); snd row])
              rows)
  = (3 * List.length rows)%nat.
Proof.
  induction rows as [|row rows IH]; simpl; [reflexivity|].
  rewrite IH. lia.
Qed.

(** The report shows eleven fixed cells (title, seven summary lines and
    the three column headers) that do not depend on the exposure frame,
    then three cells per row of the frame, in the order of the frame:
    the latitude and the longitude formatted with six decimals and the
    risk label as it is. *)
Theorem create_pdf_report_table
    (fmt_6f py_str_float : float -> string) (lat lon : float)
    (elevation : option float) (flood_risk urban_flood : string)
    (fire_station : option string) (response_time : option float)
    (exposure_df : DataFrame) :
  let report :=
    create_pdf_report fmt_6f py_str_float lat lon elevation flood_risk
      urban_flood fire_station response_time exposure_df in
  let header :=
    create_pdf_report fmt_6f py_str_float lat lon elevation flood_risk
      urban_flood fire_station response_time
      {| df_lat := []; df_lon := []; df_risk := [] |} in
  let rows := iterrows exposure_df in
  List.length (cell_texts header) = 11%nat
  /\ cell_texts report
     = (cell_texts header
        ++ flat_map (fun row => [fmt_6f (fst (fst row));
                                 fmt_6f (snd (fst row));
                                 snd row]) rows)%list
  /\ List.length (cell_texts report) = (11 + 3 * List.length rows)%nat.
Proof.
  cbv zeta.
  assert (Hreport :
    cell_texts (create_pdf_report fmt_6f py_str_float lat lon elevation
                  flood_risk urban_flood fire_station response_time exposure_df)
    = (cell_texts (create_pdf_report fmt_6f py_str_float lat lon elevation
                     flood_risk urban_flood fire_station response_time
                     {| df_lat := []; df_lon := []; df_risk := [] |})
       ++ flat_map (fun row => [fmt_6f (fst (fst row));
                                fmt_6f (snd (fst row));
                                snd row]) (iterrows exposure_df))%list).
  { unfold create_pdf_report.
    rewrite !cell_texts_app, !cell_texts_rows.
    unfold iterrows at 2. simpl combine. simpl flat_map at 2.
    now rewrite app_nil_r. }
  split; [reflexivity|]. split; [exact Hreport|].
  rewrite Hreport, length_app, length_row_texts. reflexivity.
Qed.

(** ** Rounding is monotone *)
Module RoundingFacts.

Import Binary64 Rounding Binary64Facts.
Local Open Scope Z_scope.

Lemma sticky_range (a b : Z) : 0 <= sticky a b <= 1.
Proof. unfold sticky. destruct (a mod b =? 0); lia. Qed.

(** Halving a doubled number with a sticky bit. *)
Lemma halve_div (A s M : Z) :
  0 <= s <= 1 -> 0 < M -> (2 * A + s) / (2 * M) = A / M.
Proof.
  intros Hs HM. symmetry.
  pose proof (Z.div_mod A M ltac:(lia)) as HA.
  pose proof (Z.mod_pos_bound A M HM) as Hr.
  apply Z.div_unique with (r := 2 * (A mod M) + s); [lia|]. nia.
Qed.

Lemma halve_mod (A s M : Z) :
  0 <= s <= 1 -> 0 < M -> (2 * A + s) mod (2 * M) = 2 * (A mod M) + s.
Proof.
  intros Hs HM. symmetry.
  pose proof (Z.div_mod A M ltac:(lia)) as HA.
  pose proof (Z.mod_pos_bound A M HM) as Hr.
  apply Z.mod_unique with (q := A / M); [lia|]. nia.
Qed.

Lemma halve_sticky (A s M : Z) :
  0 <= s <= 1 -> 0 < M ->
  sticky (2 * A + s) (2 * M) = Z.max (sticky A M) s.
Proof.
  intros Hs HM. unfold sticky. rewrite halve_mod by assumption.
  pose proof (Z.mod_pos_bound A M HM) as Hr.
  destruct (A mod M =? 0) eqn:E1; destruct (2 * (A mod M) + s =? 0) eqn:E2;
    rewrite ?Z.eqb_eq, ?Z.eqb_neq in *; lia.
Qed.

Lemma sticky_mul (a b c : Z) : 0 < b -> 0 < c ->
  sticky a (b * c) = Z.max (sticky a b) (sticky (a / b) c).
Proof.
  intros Hb Hc. unfold sticky. rewrite mod_mul_zero by assumption.
  destruct (a mod b =? 0), ((a / b) mod c =? 0); reflexivity.
Qed.

(** *** One shift *)

Lemma shr_1_bits (mrs : shr_record) :
  0 <= shr_m mrs ->
  shr_m (shr_1 mrs) = shr_m mrs / 2
  /\ shr_r (shr_1 mrs) = Z.odd (shr_m mrs)
  /\ shr_s (shr_1 mrs) = shr_r mrs || shr_s mrs.
Proof.
  destruct mrs as [m r s]. simpl. intros Hm.
  destruct m as [|[p|p|]|p]; simpl; try lia.
  - repeat split; reflexivity.
  - repeat split.
    change (Z.pos p~1) with (2 * Z.pos p + 1).
    apply Z.div_unique with (r := 1); lia.
  - repeat split.
    change (Z.pos p~0) with (2 * Z.pos p).
    apply Z.div_unique with (r := 0); lia.
  - repeat split.
Qed.

Lemma shift_code_0 (P : Z) : shift_code 0 P = P.
Proof.
  unfold shift_code, sticky. change (2 ^ (0 + 1)) with 2.
  pose proof (Z.div_mod P 2 ltac:(lia)).
  pose proof (Z.mod_pos_bound P 2 ltac:(lia)).
  destruct (P mod 2 =? 0) eqn:E; rewrite ?Z.eqb_eq, ?Z.eqb_neq in E; lia.
Qed.

Lemma code_shr_1 (mrs : shr_record) :
  0 <= shr_m mrs ->
  0 <= shr_m (shr_1 mrs) /\ code (shr_1 mrs) = shift_code 1 (code mrs).
Proof.
  intros Hm. destruct (shr_1_bits mrs Hm) as (M & R & S).
  split; [rewrite M; apply Z.div_pos; lia|].
  unfold code. rewrite M, R, S.
  unfold shift_code. change (2 ^ (1 + 1)) with (2 * 2).
  set (m := shr_m mrs) in *.
  set (c := (if shr_r mrs then 2 else 0) + (if shr_s mrs then 1 else 0)).
  assert (Hc : 0 <= c < 4) by (subst c; destruct (shr_r mrs), (shr_s mrs); lia).
  replace (4 * m + (if shr_r mrs then 2 else 0) + (if shr_s mrs then 1 else 0))
    with (2 * (2 * m + c / 2) + c mod 2).
  2:{ pose proof (Z.div_mod c 2 ltac:(lia)). lia. }
  pose proof (Z.mod_pos_bound c 2 ltac:(lia)) as Hc2.
  rewrite halve_div, halve_sticky by lia.
  assert (Hq : (2 * m + c / 2) / 2 = m).
  { symmetry. apply Z.div_unique with (r := c / 2); [|lia].
    assert (c / 2 < 2) by (apply Z.div_lt_upper_bound; lia).
    assert (0 <= c / 2) by (apply Z.div_pos; lia). lia. }
  rewrite Hq.
  pose proof (Z.div_mod m 2 ltac:(lia)) as Hm2. rewrite Zmod_odd in Hm2.
  assert (Hst : Z.max (sticky (2 * m + c / 2) 2) (c mod 2)
                = if shr_r mrs || shr_s mrs then 1 else 0).
  { unfold sticky.
    replace ((2 * m + c / 2) mod 2) with (c / 2).
    2:{ apply Z.mod_unique with (q := m); [|lia].
        assert (c / 2 < 2) by (apply Z.div_lt_upper_bound; lia).
        assert (0 <= c / 2) by (apply Z.div_pos; lia). lia. }
    subst c. destruct (shr_r mrs), (shr_s mrs); reflexivity. }
  rewrite Hst. destruct (Z.odd m); lia.
Qed.

Lemma shift_code_succ (n P : Z) :
  0 <= n -> shift_code 1 (shift_code n P) = shift_code (n + 1) P.
Proof.
  intros Hn. unfold shift_code at 1 2. change (2 ^ (1 + 1)) with (2 * 2).
  assert (Pn : 0 < 2 ^ (n + 1)) by (apply Z.pow_pos_nonneg; lia).
  rewrite halve_div, halve_sticky by (try apply sticky_range; lia).
  unfold shift_code.
  replace (2 ^ (n + 1 + 1)) with (2 ^ (n + 1) * 2)
    by (rewrite (Z.pow_add_r 2 (n + 1) 1) by lia; reflexivity).
  rewrite <- Z.div_div by lia.
  rewrite sticky_mul by lia. lia.
Qed.

(** *** Several shifts *)

Lemma iter_pos_iter {A : Type} (f : A -> A) (n : positive) (x : A) :
  iter_pos f n x = Pos.iter f x n.
Proof.
  revert x. induction n as [n IH|n IH|]; intros x; simpl.
  - rewrite !IH. now rewrite !Pos.iter_swap.
  - now rewrite !IH.
  - reflexivity.
Qed.

Lemma code_iter_shr_1 (n : positive) (mrs : shr_record) :
  0 <= shr_m mrs ->
  0 <= shr_m (iter_pos shr_1 n mrs)
  /\ code (iter_pos shr_1 n mrs) = shift_code (Z.pos n) (code mrs).
Proof.
  intros Hm. rewrite iter_pos_iter.
  induction n as [|n IH] using Pos.peano_ind.
  - simpl. now apply code_shr_1.
  - rewrite Pos.iter_succ. destruct IH as [H0 Hc].
    destruct (code_shr_1 _ H0) as [H1 Hc1]. split; [exact H1|].
    rewrite Hc1, Hc, shift_code_succ by lia.
    f_equal. lia.
Qed.

Lemma code_of_loc (m : Z) (l : location) :
  shr_m (shr_record_of_loc m l) = m
  /\ code (shr_record_of_loc m l) = 4 * m + loc_code l.
Proof. destruct l as [|[| |]]; unfold code; simpl; split; lia. Qed.

(** [shr_fexp] moves the position to the grid of the format. *)
Lemma code_shr_fexp (m e : Z) (l : location) :
  0 <= m ->
  e <= fexp64 (Zdigits2 m + e) ->
  let n := fexp64 (Zdigits2 m + e) - e in
  0 <= shr_m (fst (shr_fexp prec emax m e l))
  /\ code (fst (shr_fexp prec emax m e l)) = shift_code n (4 * m + loc_code l)
  /\ snd (shr_fexp prec emax m e l) = e + n.
Proof.
  intros Hm He n. unfold shr_fexp, shr. fold (fexp64 (Zdigits2 m + e)).
  fold n. destruct (code_of_loc m l) as [M0 C0].
  destruct n as [|p|p] eqn:En; simpl fst; simpl snd.
  - rewrite shift_code_0, M0, C0. repeat split; lia.
  - destruct (code_iter_shr_1 p (shr_record_of_loc m l)) as [H0 Hc];
      [rewrite M0; exact Hm|].
    rewrite Hc, C0. repeat split; assumption.
  - exfalso. subst n. lia.
Qed.

(** *** The position of a fraction *)

Lemma pos_code_shift (N K n : Z) :
  0 < K -> 0 <= n -> shift_code n (pos_code N K) = pos_code N (K * 2 ^ n).
Proof.
  intros HK Hn. unfold shift_code, pos_code at 1 2.
  assert (Pn : 0 < 2 ^ n) by (apply Z.pow_pos_nonneg; lia).
  replace (2 ^ (n + 1)) with (2 * 2 ^ n)
    by (rewrite Z.pow_add_r by lia; change (2 ^ 1) with 2; ring).
  rewrite halve_div, halve_sticky by (try apply sticky_range; lia).
  unfold pos_code. rewrite <- Z.div_div by lia.
  rewrite sticky_mul by lia. lia.
Qed.

Lemma pos_code_exact (N : Z) : pos_code N 1 = 4 * N.
Proof.
  unfold pos_code, sticky. rewrite Z.div_1_r, Z.mod_1_r.
  change (0 =? 0) with true. cbv iota. lia.
Qed.

Lemma pos_code_quot (N K : Z) : 0 < K -> pos_code N K / 4 = N / K.
Proof.
  intros HK. unfold pos_code. change 4 with (2 * 2).
  rewrite halve_div by (try apply sticky_range; lia).
  rewrite Z.div_div by lia.
  rewrite (Z.mul_comm K 2). apply Z.div_mul_cancel_l; lia.
Qed.

(** The location that a division reports is the position of the
    fraction. *)
Lemma pos_code_location (N K : Z) :
  0 <= N -> 0 < K ->
  4 * (N / K) + loc_code (new_location K (N mod K)) = pos_code N K.
Proof.
  intros HN HK.
  pose proof (Z.div_mod N K ltac:(lia)) as HNK.
  pose proof (Z.mod_pos_bound N K HK) as Hr.
  set (q := N / K) in *. set (r := N mod K) in *.
  unfold pos_code, sticky.
  assert (Hlow : 2 * r < K ->
                 2 * N / K = 2 * q /\ (2 * N) mod K = 2 * r).
  { intros H. split; symmetry.
    - apply Z.div_unique with (r := 2 * r); lia.
    - apply Z.mod_unique with (q := 2 * q); lia. }
  assert (Hhigh : K <= 2 * r ->
                  2 * N / K = 2 * q + 1 /\ (2 * N) mod K = 2 * r - K).
  { intros H. split; symmetry.
    - apply Z.div_unique with (r := 2 * r - K); lia.
    - apply Z.mod_unique with (q := 2 * q + 1); lia. }
  unfold new_location, new_location_even, new_location_odd.
  destruct (Z.even K) eqn:Ev.
  - destruct (Z.eqb_spec r 0) as [E0|E0].
    + destruct (Hlow ltac:(lia)) as [-> ->]. cbn [loc_code].
      destruct (Z.eqb_spec (2 * r) 0); lia.
    + destruct (Z.compare_spec (2 * r) K) as [E|E|E]; cbn [loc_code].
      * destruct (Hhigh ltac:(lia)) as [-> ->].
        destruct (Z.eqb_spec (2 * r - K) 0); lia.
      * destruct (Hlow E) as [-> ->].
        destruct (Z.eqb_spec (2 * r) 0); lia.
      * destruct (Hhigh ltac:(lia)) as [-> ->].
        destruct (Z.eqb_spec (2 * r - K) 0); lia.
  - assert (Hodd : 2 * r <> K).
    { intros H. rewrite <- H in Ev. rewrite Z.even_mul in Ev. discriminate. }
    destruct (Z.eqb_spec r 0) as [E0|E0].
    + destruct (Hlow ltac:(lia)) as [-> ->]. cbn [loc_code].
      destruct (Z.eqb_spec (2 * r) 0); lia.
    + destruct (Z.compare_spec (2 * r + 1) K) as [E|E|E]; cbn [loc_code].
      * destruct (Hlow ltac:(lia)) as [-> ->].
        destruct (Z.eqb_spec (2 * r) 0); lia.
      * destruct (Hlow ltac:(lia)) as [-> ->].
        destruct (Z.eqb_spec (2 * r) 0); lia.
      * destruct (Hhigh ltac:(lia)) as [-> ->].
        destruct (Z.eqb_spec (2 * r - K) 0); lia.
Qed.

(** The order of the positions is the order of the fractions. *)
Lemma pos_code_mono (N1 K1 N2 K2 : Z) :
  0 < K1 -> 0 < K2 ->
  N1 * K2 <= N2 * K1 -> pos_code N1 K1 <= pos_code N2 K2.
Proof.
  intros HK1 HK2 H. unfold pos_code, sticky.
  pose proof (Z.div_mod (2 * N1) K1 ltac:(lia)) as D1.
  pose proof (Z.mod_pos_bound (2 * N1) K1 HK1) as R1.
  pose proof (Z.div_mod (2 * N2) K2 ltac:(lia)) as D2.
  pose proof (Z.mod_pos_bound (2 * N2) K2 HK2) as R2.
  set (a1 := 2 * N1 / K1) in *. set (r1 := (2 * N1) mod K1) in *.
  set (a2 := 2 * N2 / K2) in *. set (r2 := (2 * N2) mod K2) in *.
  assert (Hcross : (K1 * a1 + r1) * K2 <= (K2 * a2 + r2) * K1) by nia.
  assert (Ha : a1 <= a2).
  { destruct (Z_le_gt_dec a1 a2) as [|Hgt]; [assumption|exfalso].
    assert (a2 + 1 <= a1) by lia.
    assert (K1 * K2 * (a2 + 1) <= K1 * K2 * a1)
      by (apply Z.mul_le_mono_nonneg_l; nia).
    nia. }
  destruct (Z.eq_dec a1 a2) as [Heq|Hne].
  - rewrite Heq in *.
    destruct (r1 =? 0) eqn:E1; destruct (r2 =? 0) eqn:E2;
      rewrite ?Z.eqb_eq, ?Z.eqb_neq in *; try lia; exfalso; nia.
  - destruct (r1 =? 0), (r2 =? 0); lia.
Qed.

(** *** Rounding a position *)

Lemma code_bits (mrs : shr_record) :
  code mrs / 4 = shr_m mrs
  /\ code mrs mod 4
     = (if shr_r mrs then 2 else 0) + (if shr_s mrs then 1 else 0).
Proof.
  unfold code.
  set (c := (if shr_r mrs then 2 else 0) + (if shr_s mrs then 1 else 0)).
  assert (Hc : 0 <= c < 4) by (subst c; destruct (shr_r mrs), (shr_s mrs); lia).
  replace (4 * shr_m mrs + (if shr_r mrs then 2 else 0)
           + (if shr_s mrs then 1 else 0)) with (4 * shr_m mrs + c)
    by (subst c; lia).
  split; symmetry.
  - apply Z.div_unique with (r := c); lia.
  - apply Z.mod_unique with (q := shr_m mrs); lia.
Qed.

Lemma rne_code_spec (mrs : shr_record) :
  round_nearest_even (shr_m mrs) (loc_of_shr_record mrs) = rne_code (code mrs).
Proof.
  unfold rne_code. destruct (code_bits mrs) as [-> ->].
  destruct mrs as [m [|] [|]]; simpl; try reflexivity.
  rewrite <- Z.negb_even. destruct (Z.even m); reflexivity.
Qed.

Lemma rne_code_bounds (P : Z) : P / 4 <= rne_code P <= P / 4 + 1.
Proof.
  unfold rne_code.
  destruct ((P mod 4 =? 3) || (P mod 4 =? 2) && Z.odd (P / 4)); lia.
Qed.

Lemma rne_code_mono (P1 P2 : Z) : P1 <= P2 -> rne_code P1 <= rne_code P2.
Proof.
  intros H.
  pose proof (Z.div_mod P1 4 ltac:(lia)) as D1.
  pose proof (Z.mod_pos_bound P1 4 ltac:(lia)) as R1.
  pose proof (Z.div_mod P2 4 ltac:(lia)) as D2.
  pose proof (Z.mod_pos_bound P2 4 ltac:(lia)) as R2.
  destruct (Z.eq_dec (P1 / 4) (P2 / 4)) as [Heq|Hne].
  - unfold rne_code. rewrite Heq in *.
    assert (Hc : P1 mod 4 <= P2 mod 4) by lia.
    destruct (P1 mod 4 =? 3) eqn:A3; destruct (P2 mod 4 =? 3) eqn:B3;
      destruct (P1 mod 4 =? 2) eqn:A2; destruct (P2 mod 4 =? 2) eqn:B2;
      destruct (Z.odd (P2 / 4)); simpl;
      rewrite ?Z.eqb_eq, ?Z.eqb_neq in *; lia.
  - pose proof (rne_code_bounds P1). pose proof (rne_code_bounds P2).
    assert (P1 / 4 <= P2 / 4) by (apply Z.div_le_mono; lia). lia.
Qed.

(** *** What [binary_round_aux] returns

    For a mantissa with enough digits ([e] is not above the exponent of
    the format), the result is the rounding of the position of the
    input on the grid of the format. *)
Lemma Zdigits2_ge (m k : Z) : 0 <= k -> 2 ^ k <= m -> k + 1 <= Zdigits2 m.
Proof.
  intros Hk Hm.
  assert (0 < 2 ^ k) by (apply Z.pow_pos_nonneg; lia).
  destruct m as [|p|p]; try lia. simpl.
  pose proof (digits2_pos_bounds p) as [_ Hhi].
  destruct (Z_le_gt_dec (k + 1) (Z.pos (digits2_pos p))); [assumption|exfalso].
  assert (2 ^ Z.pos (digits2_pos p) <= 2 ^ k) by (apply Z.pow_le_mono_r; lia).
  lia.
Qed.

Lemma Zdigits2_bounds (m : Z) :
  0 < m -> 2 ^ (Zdigits2 m - 1) <= m < 2 ^ Zdigits2 m.
Proof.
  destruct m as [|p|p]; try lia. intros _. apply digits2_pos_bounds.
Qed.

(** On the grid of the format a mantissa has at most 53 digits, and
    exactly 53 above the smallest exponent. *)
Lemma grid_mantissa (m e : Z) :
  0 <= m ->
  e <= fexp64 (Zdigits2 m + e) ->
  let E := fexp64 (Zdigits2 m + e) in
  -1074 <= E
  /\ m / 2 ^ (E - e) < 2 ^ 53
  /\ (-1074 < E -> 2 ^ 52 <= m / 2 ^ (E - e)).
Proof.
  intros Hm He E. subst E. rewrite fexp64_eq in *.
  set (d := Zdigits2 m) in *.
  set (E := Z.max (d + e - 53) (-1074)) in *.
  assert (Hn : 0 <= E - e) by lia.
  assert (Pn : 0 < 2 ^ (E - e)) by (apply Z.pow_pos_nonneg; lia).
  split; [lia|].
  destruct (Z.eq_dec m 0) as [->|Hm0].
  - rewrite Z.div_0_l by lia. split; [reflexivity|].
    intros HE. exfalso. simpl in d. subst d. lia.
  - destruct (Zdigits2_bounds m ltac:(lia)) as [Hlo Hhi]. fold d in Hlo, Hhi.
    assert (Hd : 0 <= d) by (apply Zdigits2_nonneg).
    split.
    + apply Z.div_lt_upper_bound; [lia|].
      rewrite <- Z.pow_add_r by lia.
      assert (2 ^ d <= 2 ^ (E - e + 53)) by (apply Z.pow_le_mono_r; lia).
      lia.
    + intros HE. assert (HEq : E = d + e - 53) by lia.
      apply Z.div_le_lower_bound; [lia|].
      rewrite <- Z.pow_add_r by lia.
      replace (E - e + 52) with (d - 1) by lia. exact Hlo.
Qed.

Lemma rounded_spec (s : bool) (m e : Z) (l : location) :
  0 <= m ->
  e <= fexp64 (Zdigits2 m + e) ->
  let E := fexp64 (Zdigits2 m + e) in
  binary_round_aux prec emax s m e l
  = rounded s (shift_code (E - e) (4 * m + loc_code l)) E.
Proof.
  intros Hm He E.
  destruct (grid_mantissa m e Hm He) as (HE & Hlt & Hnorm). fold E in HE, Hlt, Hnorm.
  unfold binary_round_aux.
  destruct (code_shr_fexp m e l Hm He) as (M0 & C1 & X1). fold E in C1, X1.
  pose proof (shr_fexp_spec m e l Hm) as (Hs & _).
  cbv zeta in Hs. fold E in Hs.
  replace (Z.max 0 (E - e)) with (E - e) in Hs by lia.
  destruct (shr_fexp prec emax m e l) as [mrs1 e1].
  cbn [fst snd] in M0, C1, X1, Hs.
  replace (e + (E - e)) with E in X1 by lia. subst e1.
  rewrite rne_code_spec, C1.
  set (P := shift_code (E - e) (4 * m + loc_code l)) in *.
  (* the mantissa on the grid *)
  assert (HP4 : P / 4 = m / 2 ^ (E - e)).
  { destruct (code_bits mrs1) as [Hq _]. now rewrite C1, Hs in Hq. }
  pose proof (rne_code_bounds P) as HR. rewrite HP4 in HR.
  set (M := rne_code P) in *.
  assert (HM0 : 0 <= M).
  { assert (0 <= m / 2 ^ (E - e)) by (apply Z.div_pos; [lia|apply Z.pow_pos_nonneg; lia]).
    lia. }
  unfold rounded, finish. fold M.
  pose proof (shr_fexp_spec M E loc_Exact HM0) as (M2 & X2 & _).
  cbv zeta in M2, X2.
  destruct (shr_fexp prec emax M E loc_Exact) as [mrs2 e2].
  cbn [fst snd] in M2, X2. change (Z.sub emax prec) with 971.
  destruct (Z_lt_le_dec M (2 ^ 53)) as [Hsmall|Hbig].
  - (* no carry *)
    assert (Hd : Zdigits2 M <= 53) by (apply Zdigits2_le; lia).
    rewrite fexp64_eq in M2, X2.
    replace (Z.max 0 (Z.max (Zdigits2 M + E - 53) (-1074) - E)) with 0
      in M2, X2 by lia.
    rewrite Z.pow_0_r, Z.div_1_r in M2. rewrite Z.add_0_r in X2.
    rewrite M2, X2.
    destruct M as [|p|p]; [reflexivity | | lia].
    rewrite (proj2 (Z.ltb_lt _ _) Hsmall). reflexivity.
  - (* the rounding carried to the next exponent *)
    assert (HM : M = 2 ^ 53) by lia.
    rewrite HM in *. change (Zdigits2 (2 ^ 53)) with 54 in M2, X2.
    rewrite fexp64_eq in M2, X2.
    replace (Z.max 0 (Z.max (54 + E - 53) (-1074) - E)) with 1 in M2, X2 by lia.
    change (2 ^ 53 / 2 ^ 1) with 4503599627370496 in M2.
    rewrite M2, X2. reflexivity.
Qed.

(** *** Rounding a fraction *)

Lemma rounded_fraction (s : bool) (m e : Z) (l : location) (N K : Z) :
  0 <= N -> 0 < K ->
  m = N / K ->
  4 * m + loc_code l = pos_code N K ->
  e <= fexp64 (Zdigits2 m + e) ->
  let E := fexp64 (Zdigits2 m + e) in
  binary_round_aux prec emax s m e l
  = rounded s (pos_code N (K * 2 ^ (E - e))) E
  /\ on_grid N (K * 2 ^ (E - e)) E.
Proof.
  intros HN HK Hm Hl He E.
  assert (Hm0 : 0 <= m) by (subst m; apply Z.div_pos; lia).
  assert (Pn : 0 < 2 ^ (E - e)) by (apply Z.pow_pos_nonneg; subst E; lia).
  split.
  - rewrite (rounded_spec s m e l Hm0 He). fold E.
    rewrite Hl, pos_code_shift by (subst E; lia). reflexivity.
  - destruct (grid_mantissa m e Hm0 He) as (HE & Hlt & Hnorm).
    fold E in HE, Hlt, Hnorm.
    unfold on_grid. rewrite <- Z.div_div, <- Hm by lia.
    repeat split; try assumption; nia.
Qed.

(** *** The order of the rounded floats *)

Lemma SFleb_lex (m1 : positive) (e1 : Z) (m2 : positive) (e2 : Z) :
  e1 < e2 \/ (e1 = e2 /\ Z.pos m1 <= Z.pos m2) ->
  SFleb (S754_finite false m1 e1) (S754_finite false m2 e2) = true.
Proof.
  unfold SFleb, SFcompare.
  change (Pos.compare_cont Eq m1 m2) with (Pos.compare m1 m2).
  intros [H|[H1 H2]].
  - now rewrite (proj2 (Z.compare_lt_iff e1 e2) H).
  - subst e2. rewrite Z.compare_refl.
    destruct (Pos.compare_spec m1 m2); try reflexivity. lia.
Qed.

Lemma finish_mono (M1 E1 M2 E2 : Z) :
  0 <= M1 <= 2 ^ 53 -> 0 <= M2 <= 2 ^ 53 ->
  (E1 < E2 /\ 2 ^ 52 <= M2) \/ (E1 = E2 /\ M1 <= M2) ->
  SFleb (finish false M1 E1) (finish false M2 E2) = true.
Proof.
  intros H1 H2 Hord. unfold finish.
  assert (P52 : 0 < 2 ^ 52) by reflexivity.
  change (2 ^ 53) with 9007199254740992 in *.
  change (2 ^ 52) with 4503599627370496 in *.
  destruct M1 as [|p1|p1]; [| |lia]; (destruct M2 as [|p2|p2]; [| |lia]).
  - reflexivity.
  - destruct (Z.pos p2 <? 9007199254740992);
      [destruct (E2 <=? 971) | destruct (E2 + 1 <=? 971)]; reflexivity.
  - exfalso. lia.
  - destruct (Z.ltb_spec (Z.pos p1) 9007199254740992) as [A1|A1];
      destruct (Z.ltb_spec (Z.pos p2) 9007199254740992) as [A2|A2].
    + destruct (Z.leb_spec E1 971) as [B1|B1];
        destruct (Z.leb_spec E2 971) as [B2|B2];
        try reflexivity; try (apply SFleb_lex; lia); exfalso; lia.
    + destruct (Z.leb_spec E1 971) as [B1|B1];
        destruct (Z.leb_spec (E2 + 1) 971) as [B2|B2];
        try reflexivity; try (apply SFleb_lex; lia); exfalso; lia.
    + destruct (Z.leb_spec (E1 + 1) 971) as [B1|B1];
        destruct (Z.leb_spec E2 971) as [B2|B2];
        try reflexivity; try (apply SFleb_lex; lia); exfalso; lia.
    + destruct (Z.leb_spec (E1 + 1) 971) as [B1|B1];
        destruct (Z.leb_spec (E2 + 1) 971) as [B2|B2];
        try reflexivity; try (apply SFleb_lex; lia); exfalso; lia.
Qed.

Lemma div_lt_bound (N K q : Z) : 0 < K -> N / K < q -> N < K * q.
Proof.
  intros HK H. pose proof (Z.div_mod N K ltac:(lia)).
  pose proof (Z.mod_pos_bound N K HK). nia.
Qed.

Lemma div_ge_bound (N K q : Z) : 0 < K -> q <= N / K -> K * q <= N.
Proof.
  intros HK H. pose proof (Z.div_mod N K ltac:(lia)).
  pose proof (Z.mod_pos_bound N K HK). nia.
Qed.

Lemma rounded_range (N K E : Z) :
  on_grid N K E -> 0 <= rne_code (pos_code N K) <= 2 ^ 53.
Proof.
  intros (HN & HK & HE & Hlt & Hnorm).
  pose proof (rne_code_bounds (pos_code N K)) as H.
  rewrite pos_code_quot in H by assumption.
  assert (0 <= N / K) by (apply Z.div_pos; lia). lia.
Qed.

(** Of two fractions on the grid, the smaller one is rounded to the
    smaller float. *)
Lemma rounded_mono (N1 K1 E1 N2 K2 E2 : Z) :
  on_grid N1 K1 E1 -> on_grid N2 K2 E2 ->
  N1 * K2 * 2 ^ (E1 + 1074) <= N2 * K1 * 2 ^ (E2 + 1074) ->
  SFleb (rounded false (pos_code N1 K1) E1) (rounded false (pos_code N2 K2) E2)
  = true.
Proof.
  intros G1 G2 Hord.
  pose proof (rounded_range _ _ _ G1) as R1.
  pose proof (rounded_range _ _ _ G2) as R2.
  destruct G1 as (HN1 & HK1 & HE1 & Hlt1 & Hnorm1).
  destruct G2 as (HN2 & HK2 & HE2 & Hlt2 & Hnorm2).
  unfold rounded. apply finish_mono; try assumption.
  assert (T1 : 0 < 2 ^ (E1 + 1074)) by (apply Z.pow_pos_nonneg; lia).
  assert (T2 : 0 < 2 ^ (E2 + 1074)) by (apply Z.pow_pos_nonneg; lia).
  destruct (Z.compare_spec E1 E2) as [Heq|Hlt|Hgt].
  - right. split; [exact Heq|]. subst E2.
    apply rne_code_mono, pos_code_mono; try assumption.
    apply Z.mul_le_mono_pos_r in Hord; assumption.
  - left. split; [exact Hlt|].
    pose proof (rne_code_bounds (pos_code N2 K2)) as H.
    rewrite pos_code_quot in H by assumption.
    specialize (Hnorm2 ltac:(lia)). lia.
  - exfalso.
    specialize (Hnorm1 ltac:(lia)).
    apply div_ge_bound in Hnorm1; [|assumption].
    apply div_lt_bound in Hlt2; [|assumption].
    assert (Hpow : 2 * 2 ^ (E2 + 1074) <= 2 ^ (E1 + 1074)).
    { replace (E1 + 1074) with ((E1 - E2 - 1) + (1 + (E2 + 1074))) by lia.
      rewrite (Z.pow_add_r 2 (E1 - E2 - 1)) by lia.
      rewrite (Z.pow_add_r 2 1) by lia. change (2 ^ 1) with 2.
      assert (0 < 2 ^ (E1 - E2 - 1)) by (apply Z.pow_pos_nonneg; lia).
      nia. }
    set (T := 2 ^ (E2 + 1074)) in *.
    assert (A0 : 0 <= K1 * 2 ^ 52 * K2)
      by (apply Z.mul_nonneg_nonneg; [apply Z.mul_nonneg_nonneg|]; lia).
    assert (A1 : K1 * 2 ^ 52 * K2 <= N1 * K2)
      by (apply Z.mul_le_mono_nonneg_r; lia).
    assert (A : K1 * 2 ^ 52 * K2 * (2 * T) <= N1 * K2 * 2 ^ (E1 + 1074))
      by (apply Z.mul_le_mono_nonneg; lia).
    assert (B : N2 * K1 * T < K2 * 2 ^ 53 * K1 * T).
    { apply Z.mul_lt_mono_pos_r; [assumption|].
      apply Z.mul_lt_mono_pos_r; assumption. }
    change (2 ^ 53) with (2 ^ 52 * 2) in B.
    lia.
Qed.

(** The value transfer: two results that stand for [c2 / c1] times the
    inputs are in the order of the inputs. *)
Lemma scaled_order (c1 c2 V1 V2 N1 K1 T1 N2 K2 T2 : Z) :
  0 < c1 -> 0 < c2 -> 0 < K1 -> 0 < K2 ->
  c1 * (N1 * T1) = c2 * (V1 * K1) ->
  c1 * (N2 * T2) = c2 * (V2 * K2) ->
  V1 <= V2 ->
  N1 * K2 * T1 <= N2 * K1 * T2.
Proof.
  intros Hc1 Hc2 HK1 HK2 H1 H2 HV.
  apply Z.mul_le_mono_pos_l with (p := c1); [assumption|].
  replace (c1 * (N1 * K2 * T1)) with (c1 * (N1 * T1) * K2) by ring.
  replace (c1 * (N2 * K1 * T2)) with (c1 * (N2 * T2) * K1) by ring.
  rewrite H1, H2.
  replace (c2 * (V1 * K1) * K2) with (c2 * K1 * K2 * V1) by ring.
  replace (c2 * (V2 * K2) * K1) with (c2 * K1 * K2 * V2) by ring.
  apply Z.mul_le_mono_nonneg_l; [|assumption].
  apply Z.mul_nonneg_nonneg; [apply Z.mul_nonneg_nonneg|]; lia.
Qed.

(** The value of a valid float, in units of [2^-1074]. *)
Lemma SFleb_finite (m1 : positive) (e1 : Z) (m2 : positive) (e2 : Z) :
  SFleb (S754_finite false m1 e1) (S754_finite false m2 e2) = true ->
  e1 < e2 \/ (e1 = e2 /\ Z.pos m1 <= Z.pos m2).
Proof.
  unfold SFleb, SFcompare.
  change (Pos.compare_cont Eq m1 m2) with (Pos.compare m1 m2).
  destruct (Z.compare_spec e1 e2) as [E|E|E]; intros H.
  - right. split; [exact E|].
    destruct (Pos.compare_spec m1 m2) as [F|F|F]; try discriminate H; lia.
  - now left.
  - discriminate H.
Qed.

Lemma SFleb_value (m1 : positive) (e1 : Z) (m2 : positive) (e2 : Z) :
  valid_binary (S754_finite false m1 e1) = true ->
  valid_binary (S754_finite false m2 e2) = true ->
  SFleb (S754_finite false m1 e1) (S754_finite false m2 e2) = true ->
  Z.pos m1 * 2 ^ (e1 + 1074) <= Z.pos m2 * 2 ^ (e2 + 1074).
Proof.
  intros V1 V2 H.
  destruct (valid_finite false m1 e1 V1) as (Hmin1 & _).
  destruct (valid_finite false m2 e2 V2) as (Hmin2 & _).
  destruct (valid_mantissa_bounds false m1 e1 V1) as (Hhi1 & _).
  destruct (valid_mantissa_bounds false m2 e2 V2) as (_ & Hlo2).
  assert (T1 : 0 < 2 ^ (e1 + 1074)) by (apply Z.pow_pos_nonneg; lia).
  destruct (SFleb_finite _ _ _ _ H) as [E|[E L]].
  - specialize (Hlo2 ltac:(lia)).
    replace (e2 + 1074) with ((e2 - e1 - 1) + (1 + (e1 + 1074))) by lia.
    rewrite (Z.pow_add_r 2 (e2 - e1 - 1)) by lia.
    rewrite (Z.pow_add_r 2 1) by lia. change (2 ^ 1) with 2.
    assert (0 < 2 ^ (e2 - e1 - 1)) by (apply Z.pow_pos_nonneg; lia).
    set (T := 2 ^ (e1 + 1074)) in *. set (U := 2 ^ (e2 - e1 - 1)) in *.
    change (2 ^ 53) with (2 ^ 52 * 2) in Hhi1.
    assert (Z.pos m1 * T <= 2 ^ 52 * 2 * T) by nia.
    assert (1 * (2 * T) <= U * (2 * T))
      by (apply Z.mul_le_mono_nonneg_r; lia).
    assert (2 ^ 52 * (1 * (2 * T)) <= Z.pos m2 * (U * (2 * T)))
      by (apply Z.mul_le_mono_nonneg; lia).
    lia.
  - subst e2. apply Z.mul_le_mono_nonneg_r; lia.
Qed.

(** *** Dividing by 40 and multiplying by 60 *)

Lemma rounds_mono (c1 c2 V1 V2 : Z) (r1 r2 : spec_float) :
  0 < c1 -> 0 < c2 ->
  rounds c1 c2 V1 r1 -> rounds c1 c2 V2 r2 -> V1 <= V2 ->
  SFleb r1 r2 = true.
Proof.
  intros Hc1 Hc2 (N1 & K1 & E1 & -> & G1 & Q1) (N2 & K2 & E2 & -> & G2 & Q2) HV.
  apply rounded_mono; try assumption.
  destruct G1 as (_ & HK1 & _). destruct G2 as (_ & HK2 & _).
  exact (scaled_order c1 c2 V1 V2 N1 K1 _ N2 K2 _ Hc1 Hc2 HK1 HK2 Q1 Q2 HV).
Qed.

(** A rounded non-negative number is a zero, a positive number or
    [+inf]. *)
Lemma rounds_sign (c1 c2 V : Z) (r : spec_float) :
  rounds c1 c2 V r ->
  r = S754_zero false \/ r = S754_infinity false
  \/ exists m e, r = S754_finite false m e.
Proof.
  intros (N & K & E & -> & G & _).
  pose proof (rounded_range _ _ _ G) as [H0 _].
  unfold rounded, finish. destruct (rne_code (pos_code N K)) as [|p|p]; [| |lia].
  - now left.
  - destruct (Z.pos p <? 2 ^ 53);
      [destruct (E <=? 971) | destruct (E + 1 <=? 971)]; eauto.
Qed.

Lemma SFdiv_core_forty (m : positive) (e : Z) :
  let e' := Z.min (fexp64 (Z.pos (digits2_pos m) + e - 6)) (e + 47) in
  let N := Z.pos m * 2 ^ (e + 47 - e') in
  SFdiv_core_binary prec emax (Z.pos m) e 5629499534213120 (-47)
  = (N / 5629499534213120, e',
     new_location 5629499534213120 (N mod 5629499534213120)).
Proof.
  intros e' N. unfold SFdiv_core_binary.
  change (Zdigits2 5629499534213120) with 53.
  change (Zdigits2 (Z.pos m)) with (Z.pos (digits2_pos m)).
  fold (fexp64 (Z.pos (digits2_pos m) + e - (53 + -47))).
  replace (Z.pos (digits2_pos m) + e - (53 + -47))
    with (Z.pos (digits2_pos m) + e - 6) by lia.
  replace (e - -47) with (e + 47) by lia.
  fold e'.
  assert (Hs : 0 <= e + 47 - e') by (subst e'; lia).
  set (m' := match e + 47 - e' with
             | Z.pos _ => Z.shiftl (Z.pos m) (e + 47 - e')
             | 0 => Z.pos m
             | Z.neg _ => 0
             end).
  assert (Hm' : m' = N).
  { subst m' N. destruct (e + 47 - e') as [|p|p] eqn:E.
    - rewrite Z.pow_0_r. lia.
    - rewrite Z.shiftl_mul_pow2 by lia. reflexivity.
    - lia. }
  rewrite Hm'. unfold Z.div, Z.modulo.
  destruct (Z.div_eucl N 5629499534213120) as [q r]. reflexivity.
Qed.

Lemma SFdiv_forty (m : positive) (e : Z) :
  valid_binary (S754_finite false m e) = true ->
  rounds 40 1 (Z.pos m * 2 ^ (e + 1074))
    (SF64div (S754_finite false m e) sf_forty).
Proof.
  intros V.
  destruct (valid_finite false m e V) as (Hmin & Hd53 & _).
  pose proof (digits2_pos_bounds m) as [Hdlo _].
  unfold SF64div, SFdiv, sf_forty. rewrite SFdiv_core_forty.
  change (xorb false false) with false.
  set (d := Z.pos (digits2_pos m)) in *.
  rewrite fexp64_eq.
  replace (Z.min (Z.max (d + e - 6 - 53) (-1074)) (e + 47))
    with (Z.max (d + e - 59) (-1074)) by lia.
  set (e' := Z.max (d + e - 59) (-1074)).
  set (D := 5629499534213120).
  set (N := Z.pos m * 2 ^ (e + 47 - e')).
  assert (Ha : 0 <= e + 47 - e') by lia.
  assert (HN : 0 <= N)
    by (apply Z.mul_nonneg_nonneg; [lia | apply Z.pow_nonneg; lia]).
  assert (HD : 0 < D) by reflexivity.
  assert (Hq0 : 0 <= N / D) by (apply Z.div_pos; lia).
  (* the quotient has enough digits *)
  assert (Hpre : e' <= fexp64 (Zdigits2 (N / D) + e')).
  { rewrite fexp64_eq.
    destruct (Z.eq_dec e' (-1074)) as [->|Hne]; [lia|].
    assert (He' : e' = d + e - 59) by lia.
    assert (H105 : 2 ^ 105 <= N).
    { subst N. replace (e + 47 - e') with (106 - d) by lia.
      replace 105 with ((d - 1) + (106 - d)) by lia.
      rewrite Z.pow_add_r by lia.
      apply Z.mul_le_mono_nonneg_r; [apply Z.pow_nonneg; lia | exact Hdlo]. }
    assert (H52 : 2 ^ 52 <= N / D).
    { apply Z.div_le_lower_bound; [lia|].
      eapply Z.le_trans; [|exact H105]. vm_compute. discriminate. }
    pose proof (Zdigits2_ge (N / D) 52 ltac:(lia) H52). lia. }
  destruct (rounded_fraction false (N / D) e' (new_location D (N mod D)) N D
              HN HD eq_refl (pos_code_location N D HN HD) Hpre)
    as [Hres Hgrid].
  set (E := fexp64 (Zdigits2 (N / D) + e')) in *.
  exists N, (D * 2 ^ (E - e')), E.
  split; [exact Hres|]. split; [exact Hgrid|].
  destruct Hgrid as (_ & _ & HE & _).
  subst N.
  replace (40 * (Z.pos m * 2 ^ (e + 47 - e') * 2 ^ (E + 1074)))
    with (40 * Z.pos m * (2 ^ (e + 47 - e') * 2 ^ (E + 1074))) by ring.
  rewrite <- Z.pow_add_r by lia.
  replace (e + 47 - e' + (E + 1074)) with ((e + 1074) + 47 + (E - e')) by lia.
  rewrite !Z.pow_add_r by lia.
  change D with (40 * 2 ^ 47). ring.
Qed.

Lemma SFmul_sixty (m : positive) (e : Z) :
  valid_binary (S754_finite false m e) = true ->
  rounds 1 60 (Z.pos m * 2 ^ (e + 1074))
    (SF64mul (S754_finite false m e) sf_sixty).
Proof.
  intros V.
  destruct (valid_finite false m e V) as (Hmin & Hd53 & _).
  destruct (valid_mantissa_bounds false m e V) as (_ & Hlo).
  unfold SF64mul, SFmul, sf_sixty.
  change (xorb false false) with false.
  rewrite Pos2Z.inj_mul.
  set (c := Z.pos 8444249301319680).
  set (N := Z.pos m * c).
  set (e' := e + -47).
  assert (HN : 0 <= N) by (subst N c; lia).
  assert (Hpre : e' <= fexp64 (Zdigits2 N + e')).
  { rewrite fexp64_eq. subst e'.
    destruct (Z_le_gt_dec (e + -47) (-1074)) as [|Hgt]; [lia|].
    specialize (Hlo ltac:(lia)).
    assert (H104 : 2 ^ 104 <= N).
    { subst N c. change (2 ^ 104) with (2 ^ 52 * 2 ^ 52).
      apply Z.mul_le_mono_nonneg; lia. }
    pose proof (Zdigits2_ge N 104 ltac:(lia) H104). lia. }
  assert (Hm : N = N / 1) by (now rewrite Z.div_1_r).
  assert (Hl : 4 * N + loc_code loc_Exact = pos_code N 1)
    by (rewrite pos_code_exact; cbn [loc_code]; lia).
  destruct (rounded_fraction false N e' loc_Exact N 1
              HN ltac:(lia) Hm Hl Hpre) as [Hres Hgrid].
  set (E := fexp64 (Zdigits2 N + e')) in *.
  exists N, (1 * 2 ^ (E - e')), E.
  split; [exact Hres|]. split; [exact Hgrid|].
  destruct Hgrid as (_ & _ & HE & _).
  subst N e'.
  replace (E + 1074) with ((e + 1074) + -47 + (E - (e + -47))) by lia.
  assert (Hn : 0 <= E - (e + -47)) by (subst E; lia).
  set (n := E - (e + -47)) in *.
  change c with (60 * 2 ^ 47).
  destruct (Z_le_gt_dec 47 (e + 1074)) as [Hbig|Hsmall].
  - replace (e + 1074 + -47 + n) with ((e + 1074 - 47) + n) by lia.
    rewrite (Z.pow_add_r 2 (e + 1074 - 47)) by lia.
    replace (2 ^ (e + 1074)) with (2 ^ (e + 1074 - 47) * 2 ^ 47)
      by (rewrite <- Z.pow_add_r by lia; f_equal; lia).
    ring.
  - replace (2 ^ 47) with (2 ^ (47 - (e + 1074)) * 2 ^ (e + 1074))
      by (rewrite <- Z.pow_add_r by lia; f_equal; lia).
    replace n with ((47 - (e + 1074)) + (e + 1074 + -47 + n)) at 2 by lia.
    rewrite (Z.pow_add_r 2 (47 - (e + 1074))) by lia.
    ring.
Qed.

(** *** An operation that scales non-negative floats *)

Section ScaledOperation.

Variable f : spec_float -> spec_float.
Variables c1 c2 : Z.
Hypothesis c1_pos : 0 < c1.
Hypothesis c2_pos : 0 < c2.
Hypothesis f_zero : forall s, f (S754_zero s) = S754_zero s.
Hypothesis f_infinity : f (S754_infinity false) = S754_infinity false.
Hypothesis f_finite : forall m e,
  valid_binary (S754_finite false m e) = true ->
  rounds c1 c2 (Z.pos m * 2 ^ (e + 1074)) (f (S754_finite false m e)).

Lemma scaled_not_negative (x : spec_float) (s : bool) :
  valid_binary x = true ->
  SFleb (S754_zero false) x = true ->
  SFleb (S754_zero s) (f x) = true.
Proof.
  intros V H. destruct x as [sx|[|]| |[|] m e]; try discriminate H.
  - rewrite f_zero. reflexivity.
  - rewrite f_infinity. reflexivity.
  - destruct (rounds_sign _ _ _ _ (f_finite m e V)) as [->|[->|(m' & e' & ->)]];
      reflexivity.
Qed.

Lemma scaled_mono (x1 x2 : spec_float) :
  valid_binary x1 = true -> valid_binary x2 = true ->
  SFleb (S754_zero false) x1 = true ->
  SFleb x1 x2 = true ->
  SFleb (f x1) (f x2) = true.
Proof.
  intros V1 V2 H0 H12.
  destruct x1 as [s1|[|]| |[|] m1 e1]; try discriminate H0.
  - (* a zero *)
    rewrite f_zero. apply scaled_not_negative; [exact V2|].
    destruct x2 as [s2|[|]| |[|] m2 e2]; try discriminate H12; reflexivity.
  - (* +inf *)
    destruct x2 as [s2|[|]| |[|] m2 e2]; try discriminate H12.
    rewrite f_infinity. reflexivity.
  - (* a positive number *)
    destruct x2 as [s2|[|]| |[|] m2 e2]; try discriminate H12.
    + rewrite f_infinity.
      destruct (rounds_sign _ _ _ _ (f_finite m1 e1 V1))
        as [->|[->|(m' & e' & ->)]]; reflexivity.
    + apply (rounds_mono c1 c2 (Z.pos m1 * 2 ^ (e1 + 1074))
               (Z.pos m2 * 2 ^ (e2 + 1074)));
        try assumption; try (now apply f_finite).
      now apply SFleb_value.
Qed.

End ScaledOperation.

Lemma SFdiv_forty_mono (x1 x2 : spec_float) :
  valid_binary x1 = true -> valid_binary x2 = true ->
  SFleb (S754_zero false) x1 = true ->
  SFleb x1 x2 = true ->
  SFleb (S754_zero false) (SF64div x1 sf_forty) = true
  /\ SFleb (SF64div x1 sf_forty) (SF64div x2 sf_forty) = true.
Proof.
  intros V1 V2 H0 H12. split.
  - apply (scaled_not_negative (fun x => SF64div x sf_forty) 40 1);
      try assumption.
    + intros []; reflexivity.
    + reflexivity.
    + apply SFdiv_forty.
  - apply (scaled_mono (fun x => SF64div x sf_forty) 40 1);
      try assumption; try reflexivity.
    + intros []; reflexivity.
    + apply SFdiv_forty.
Qed.

Lemma SFmul_sixty_mono (x1 x2 : spec_float) :
  valid_binary x1 = true -> valid_binary x2 = true ->
  SFleb (S754_zero false) x1 = true ->
  SFleb x1 x2 = true ->
  SFleb (S754_zero false) (SF64mul x1 sf_sixty) = true
  /\ SFleb (SF64mul x1 sf_sixty) (SF64mul x2 sf_sixty) = true.
Proof.
  intros V1 V2 H0 H12. split.
  - apply (scaled_not_negative (fun x => SF64mul x sf_sixty) 1 60);
      try assumption.
    + intros []; reflexivity.
    + reflexivity.
    + apply SFmul_sixty.
  - apply (scaled_mono (fun x => SF64mul x sf_sixty) 1 60);
      try assumption; try reflexivity.
    + intros []; reflexivity.
    + apply SFmul_sixty.
Qed.

Lemma SFleb_antisym (x y : spec_float) :
  SFleb x y = true -> SFleb y x = true -> SFeqb x y = true.
Proof.
  unfold SFleb, SFeqb, SFcompare.
  destruct x as [sx|sx| |sx mx ex], y as [sy|sy| |sy my ey];
    try destruct sx; try destruct sy;
    simpl; try discriminate; try reflexivity;
    intros Hxy Hyx; PyFloatOrder.compare_cases.
Qed.

End RoundingFacts.

(** ** Travel time and distance *)

(** The travel time [d / 40 * 60] of a distance that is not negative is
    not negative, and of two such distances the longer one does not get
    the shorter travel time: the division and the multiplication both
    round a number of the same order. *)
Lemma travel_minutes_order (d1 d2 : float) :
  PyFloat.le 0 d1 -> PyFloat.le d1 d2 ->
  PyFloat.le 0 (travel_minutes d1)
  /\ PyFloat.le (travel_minutes d1) (travel_minutes d2).
Proof.
  unfold PyFloat.le, travel_minutes. rewrite !FloatAxioms.leb_spec.
  intros H0 H12.
  pose proof (Prim2SF_valid d1) as V1.
  pose proof (Prim2SF_valid d2) as V2.
  pose proof (Prim2SF_valid (d1 / 40)) as W1.
  pose proof (Prim2SF_valid (d2 / 40)) as W2.
  rewrite !FloatAxioms.mul_spec, !FloatAxioms.div_spec.
  rewrite FloatAxioms.div_spec in W1, W2.
  change (Prim2SF 0) with (S754_zero false) in *.
  change (Prim2SF 40) with Rounding.sf_forty in *.
  change (Prim2SF 60) with Rounding.sf_sixty.
  destruct (RoundingFacts.SFdiv_forty_mono _ _ V1 V2 H0 H12) as [D0 D12].
  exact (RoundingFacts.SFmul_sixty_mono _ _ W1 W2 D0 D12).
Qed.

Lemma le_antisym_eqb (x y : float) :
  PyFloat.le x y -> PyFloat.le y x -> (x =? y) = true.
Proof.
  unfold PyFloat.le. rewrite !FloatAxioms.leb_spec, FloatAxioms.eqb_spec.
  apply RoundingFacts.SFleb_antisym.
Qed.

(** Two distances one unit in the last place apart can get the same
    travel time: the order of the travel times is not strict. *)
Lemma travel_minutes_collision :
  PyFloat.lt 0x1.4000000000002p+3 0x1.4000000000003p+3
  /\ travel_minutes 0x1.4000000000002p+3 = travel_minutes 0x1.4000000000003p+3.
Proof. split; reflexivity. Qed.

(** For distances that are not negative (so none is a NaN), the travel
    time is not negative, it grows with the distance, and a strictly
    longer travel time means a strictly longer distance. *)
Theorem travel_minutes_monotone (d1 d2 : float) :
  PyFloat.le 0 d1 -> PyFloat.le 0 d2 ->
  PyFloat.le 0 (travel_minutes d1)
  /\ (PyFloat.le d1 d2 ->
      PyFloat.le (travel_minutes d1) (travel_minutes d2))
  /\ (PyFloat.lt (travel_minutes d1) (travel_minutes d2) -> PyFloat.lt d1 d2).
Proof.
  intros H1 H2.
  destruct (PyFloatOrder.le_not_nan _ _ H1) as [_ N1].
  destruct (PyFloatOrder.le_not_nan _ _ H2) as [_ N2].
  split; [|split].
  - apply (travel_minutes_order d1 d1); [exact H1|].
    exact (PyFloatOrder.le_refl_r _ _ H1).
  - intros H12. now apply travel_minutes_order.
  - intros Ht. unfold PyFloat.lt.
    destruct (d1 <? d2) eqn:E; [reflexivity|exfalso].
    pose proof (PyFloatOrder.not_lt_le d1 d2 N1 N2 E) as H21.
    destruct (travel_minutes_order d2 d1 H2 H21) as [_ Hle].
    apply PyFloatFacts.le_not_gt in Hle.
    unfold PyFloat.lt in Ht. congruence.
Qed.

Lemma travel_minutes_monotone_witness :
  PyFloat.le 0 (travel_minutes 12.5)
  /\ (PyFloat.le 12.5 40 ->
      PyFloat.le (travel_minutes 12.5) (travel_minutes 40))
  /\ (PyFloat.lt (travel_minutes 12.5) (travel_minutes 40)
      -> PyFloat.lt 12.5 40).
Proof.
  apply (travel_minutes_monotone 12.5 40); reflexivity.
Defined.

(** ** Nearest fire station: nearest by distance *)

(** When no distance is negative (so none is a NaN), the station
    returned is the fastest of the registry, and a station that is not
    farther than it has the very same travel time: the station returned
    is a nearest one, up to distances so close that their travel times
    round to the same float. *)
Theorem estimate_response_time_in_nearest
    (geodesic_km : float * float -> float * float -> float)
    (round1 : float -> float) (registry : list FireStation) (lat lon : float) :
  registry <> [] ->
  Forall (fun fs => PyFloat.le 0 (geodesic_km (lat, lon) (fs_lat fs, fs_lon fs)))
         registry ->
  exists best,
    In best registry
    /\ fst (estimate_response_time_in geodesic_km round1 registry lat lon)
       = Some (fs_name best)
    /\ Forall (fun q =>
                 PyFloat.le (time_to geodesic_km lat lon best)
                            (time_to geodesic_km lat lon q)
                 /\ (PyFloat.le (geodesic_km (lat, lon) (fs_lat q, fs_lon q))
                                (geodesic_km (lat, lon) (fs_lat best, fs_lon best))
                     -> (time_to geodesic_km lat lon q
                         =? time_to geodesic_km lat lon best) = true))
              registry.
Proof.
  intros Hne Hdist.
  destruct (nearest_loop_minimal geodesic_km lat lon registry Hne)
    as (best & Hin & Hloop & Hall).
  exists best. split; [exact Hin|]. split.
  - unfold estimate_response_time_in. now rewrite Hloop.
  - rewrite Forall_forall in Hdist, Hall |- *.
    intros q Hq. unfold time_to in *.
    pose proof (Hdist q Hq) as Dq. pose proof (Hdist best Hin) as Db.
    destruct (travel_minutes_order _ _ Dq (PyFloatOrder.le_refl_r _ _ Dq))
      as [Tq _].
    destruct (travel_minutes_order _ _ Db (PyFloatOrder.le_refl_r _ _ Db))
      as [Tb _].
    destruct (PyFloatOrder.le_not_nan _ _ Tq) as [_ Nq].
    destruct (PyFloatOrder.le_not_nan _ _ Tb) as [_ Nb].
    assert (Hfast : PyFloat.le
                      (travel_minutes (geodesic_km (lat, lon) (fs_lat best, fs_lon best)))
                      (travel_minutes (geodesic_km (lat, lon) (fs_lat q, fs_lon q))))
      by (apply PyFloatOrder.not_lt_le; [exact Nq | exact Nb | exact (Hall q Hq)]).
    split; [exact Hfast|].
    intros Hnear. apply le_antisym_eqb; [|exact Hfast].
    now apply travel_minutes_order.
Qed.

Lemma estimate_response_time_in_nearest_witness :
  exists best,
    In best tie_registry
    /\ fst (estimate_response_time_in flat_km keep_float tie_registry 0 0)
       = Some (fs_name best)
    /\ Forall (fun q =>
                 PyFloat.le (time_to flat_km 0 0 best) (time_to flat_km 0 0 q)
                 /\ (PyFloat.le (flat_km (0, 0) (fs_lat q, fs_lon q))
                                (flat_km (0, 0) (fs_lat best, fs_lon best))
                     -> (time_to flat_km 0 0 q =? time_to flat_km 0 0 best)
                        = true))
              tie_registry.
Proof.
  apply (estimate_response_time_in_nearest flat_km keep_float tie_registry 0 0).
  - discriminate.
  - apply Forall_cons; [vm_compute; reflexivity|].
    apply Forall_cons; [vm_compute; reflexivity|].
    apply Forall_cons; [vm_compute; reflexivity|].
    apply Forall_nil.
Defined.

(** ** Addition is monotone *)
Module SignedFacts.

Import Binary64 Rounding Signed Binary64Facts RoundingFacts.
Local Open Scope Z_scope.

Lemma finish_opp (M E : Z) : finish true M E = SFopp (finish false M E).
Proof.
  unfold finish. destruct M as [|p|p]; try reflexivity.
  destruct (Z.pos p <? 2 ^ 53);
    [destruct (E <=? 971) | destruct (E + 1 <=? 971)]; reflexivity.
Qed.

Lemma Zdigits2_shift (m k : Z) :
  0 < m -> 0 <= k -> Zdigits2 (m * 2 ^ k) = Zdigits2 m + k.
Proof.
  intros Hm Hk.
  destruct (Zdigits2_bounds m Hm) as [Hlo Hhi].
  pose proof (Zdigits2_nonneg m) as Hd.
  assert (Hd1 : 1 <= Zdigits2 m).
  { destruct m as [|p|p]; try lia. simpl. lia. }
  assert (Pk : 0 < 2 ^ k) by (apply Z.pow_pos_nonneg; lia).
  apply Z.le_antisymm.
  - apply Zdigits2_le; [|lia]. split; [nia|].
    rewrite Z.pow_add_r by lia. nia.
  - pose proof (Zdigits2_ge (m * 2 ^ k) (Zdigits2 m - 1 + k) ltac:(lia)) as H.
    rewrite Z.pow_add_r in H by lia.
    specialize (H ltac:(nia)). lia.
Qed.

(** [binary_round] rounds the number it is given. *)
Lemma binary_round_rounds (m : positive) (e : Z) :
  -1074 <= e ->
  rounds 1 1 (Z.pos m * 2 ^ (e + 1074)) (binary_round prec emax false m e)
  /\ binary_round prec emax true m e
     = SFopp (binary_round prec emax false m e).
Proof.
  intros He. unfold binary_round.
  fold (fexp64 (Z.pos (digits2_pos m) + e)).
  set (E := fexp64 (Z.pos (digits2_pos m) + e)).
  destruct (shl_align_spec m e E) as [Hsnd Hfst].
  destruct (shl_align m e E) as [mz ez]. cbn [fst snd] in Hsnd, Hfst.
  rewrite <- Hsnd in Hfst.
  assert (Hez : ez <= e /\ ez <= E) by lia.
  assert (Hdig : Zdigits2 (Z.pos mz) + ez = Z.pos (digits2_pos m) + e).
  { rewrite Hfst, Zdigits2_shift by lia.
    change (Zdigits2 (Z.pos m)) with (Z.pos (digits2_pos m)). lia. }
  assert (Hpre : ez <= fexp64 (Zdigits2 (Z.pos mz) + ez))
    by (rewrite Hdig; fold E; lia).
  assert (Hm : Z.pos mz = Z.pos mz / 1) by (now rewrite Z.div_1_r).
  assert (Hl : 4 * Z.pos mz + loc_code loc_Exact = pos_code (Z.pos mz) 1)
    by (rewrite pos_code_exact; cbn [loc_code]; lia).
  destruct (rounded_fraction false (Z.pos mz) ez loc_Exact (Z.pos mz) 1
              ltac:(lia) ltac:(lia) Hm Hl Hpre) as [Hres Hgrid].
  destruct (rounded_fraction true (Z.pos mz) ez loc_Exact (Z.pos mz) 1
              ltac:(lia) ltac:(lia) Hm Hl Hpre) as [Hres' _].
  rewrite Hdig in Hres, Hres', Hgrid. fold E in Hres, Hres', Hgrid.
  split.
  - exists (Z.pos mz), (1 * 2 ^ (E - ez)), E.
    split; [exact Hres|]. split; [exact Hgrid|].
    destruct Hgrid as (_ & _ & HE & _).
    rewrite Hfst.
    replace (1 * (Z.pos m * 2 ^ (e - ez) * 2 ^ (E + 1074)))
      with (Z.pos m * (2 ^ (e - ez) * 2 ^ (E + 1074))) by ring.
    replace (1 * (Z.pos m * 2 ^ (e + 1074) * (1 * 2 ^ (E - ez))))
      with (Z.pos m * (2 ^ (e + 1074) * 2 ^ (E - ez))) by ring.
    rewrite <- !Z.pow_add_r by lia. do 2 f_equal. lia.
  - rewrite Hres', Hres. unfold rounded. apply finish_opp.
Qed.

(** [binary_normalize] rounds the signed number it is given. *)
Lemma binary_normalize_rounds (S e : Z) :
  -1074 <= e ->
  rounds_signed (S * 2 ^ (e + 1074)) (binary_normalize prec emax S e false).
Proof.
  intros He.
  assert (P : 0 < 2 ^ (e + 1074)) by (apply Z.pow_pos_nonneg; lia).
  destruct (binary_round_rounds 1 e He) as [_ _].
  unfold rounds_signed, binary_normalize.
  destruct S as [|p|p].
  - split; [intros _; now exists false|]. split; intros H; lia.
  - destruct (binary_round_rounds p e He) as [H _].
    split; [intros H0; lia|]. split; [intros _; exact H | intros H0; lia].
  - destruct (binary_round_rounds p e He) as [H Hopp].
    split; [intros H0; lia|]. split; [intros H0; lia|]. intros _.
    exists (binary_round prec emax false p e). split; [exact Hopp|].
    replace (- (Z.neg p * 2 ^ (e + 1074))) with (Z.pos p * 2 ^ (e + 1074))
      by lia.
    exact H.
Qed.

(** A valid float is the rounding of its own value. *)
Lemma valid_rounds (m : positive) (e : Z) :
  valid_binary (S754_finite false m e) = true ->
  rounds 1 1 (Z.pos m * 2 ^ (e + 1074)) (S754_finite false m e).
Proof.
  intros V.
  destruct (valid_finite false m e V) as (Hmin & _).
  destruct (valid_mantissa_bounds false m e V) as (Hhi & Hlo).
  assert (Hmax : e <= 971).
  { unfold SpecFloat.valid_binary, bounded in V.
    apply andb_true_iff in V. destruct V as [_ V].
    apply Z.leb_le in V. exact V. }
  exists (Z.pos m), 1, e. split; [|split].
  - unfold rounded, rne_code. rewrite pos_code_exact.
    replace (4 * Z.pos m / 4) with (Z.pos m)
      by (apply Z.div_unique with (r := 0); lia).
    replace ((4 * Z.pos m) mod 4) with 0
      by (apply Z.mod_unique with (q := Z.pos m); lia).
    cbn [Z.eqb orb andb]. unfold finish.
    now rewrite (proj2 (Z.ltb_lt _ _) Hhi), (proj2 (Z.leb_le _ _) Hmax).
  - unfold on_grid. rewrite Z.div_1_r. repeat split; lia.
  - ring.
Qed.

Lemma valid_rounds_signed (x : spec_float) :
  valid_binary x = true -> is_finite x = true -> rounds_signed (sval x) x.
Proof.
  intros V F. destruct x as [s|s| |s m e]; try discriminate F.
  - unfold rounds_signed, sval.
    split; [intros _; now exists s|]. split; intros H; lia.
  - assert (P : 0 < 2 ^ (e + 1074)).
    { destruct (valid_finite s m e V) as (Hmin & _).
      apply Z.pow_pos_nonneg; lia. }
    pose proof (valid_rounds m e V) as H.
    unfold rounds_signed, sval. destruct s; unfold cond_Zopp.
    + split; [intros H0; lia|]. split; [intros H0; lia|]. intros _.
      exists (S754_finite false m e). split; [reflexivity|].
      now rewrite Z.opp_involutive.
    + split; [intros H0; lia|]. split; [intros _; exact H | intros H0; lia].
Qed.

(** *** The order of the rounded signed numbers *)

Lemma SFleb_opp (a b : spec_float) :
  SFleb a b = true -> SFleb (SFopp b) (SFopp a) = true.
Proof.
  unfold SFleb, SFcompare.
  destruct a as [sa|sa| |sa ma ea], b as [sb|sb| |sb mb eb];
    try destruct sa; try destruct sb;
    simpl; try discriminate; try reflexivity;
    intros H; PyFloatOrder.compare_cases.
Qed.

Lemma rounds_signed_mono (V1 V2 : Z) (r1 r2 : spec_float) :
  rounds_signed V1 r1 -> rounds_signed V2 r2 -> V1 <= V2 ->
  SFleb r1 r2 = true.
Proof.
  intros (Z1 & P1 & N1) (Z2 & P2 & N2) HV.
  destruct (Z.lt_trichotomy V1 0) as [H1|[H1|H1]].
  - destruct (N1 H1) as (r1' & -> & R1).
    pose proof (rounds_sign _ _ _ _ R1) as C1.
    destruct (Z.lt_trichotomy V2 0) as [H2|[H2|H2]].
    + destruct (N2 H2) as (r2' & -> & R2).
      apply SFleb_opp.
      apply (rounds_mono 1 1 (- V2) (- V1)); try assumption; lia.
    + destruct (Z2 H2) as (s & ->).
      destruct C1 as [->|[->|(m & e & ->)]]; destruct s; reflexivity.
    + pose proof (rounds_sign _ _ _ _ (P2 H2)) as C2.
      destruct C1 as [->|[->|(m & e & ->)]];
        destruct C2 as [->|[->|(m' & e' & ->)]]; reflexivity.
  - destruct (Z1 H1) as (s & ->).
    destruct (Z.lt_trichotomy V2 0) as [H2|[H2|H2]]; [lia| |].
    + destruct (Z2 H2) as (s' & ->). destruct s, s'; reflexivity.
    + pose proof (rounds_sign _ _ _ _ (P2 H2)) as C2.
      destruct C2 as [->|[->|(m' & e' & ->)]]; destruct s; reflexivity.
  - apply (rounds_mono 1 1 V1 V2); try lia; [now apply P1 | apply P2; lia].
Qed.

Lemma SFleb_negative (m1 : positive) (e1 : Z) (m2 : positive) (e2 : Z) :
  SFleb (S754_finite true m1 e1) (S754_finite true m2 e2)
  = SFleb (S754_finite false m2 e2) (S754_finite false m1 e1).
Proof.
  unfold SFleb, SFcompare.
  change (Pos.compare_cont Eq m1 m2) with (Pos.compare m1 m2).
  change (Pos.compare_cont Eq m2 m1) with (Pos.compare m2 m1).
  rewrite (Z.compare_antisym e1 e2), (Pos.compare_antisym m1 m2).
  destruct (e1 ?= e2); simpl; try reflexivity;
    destruct (m1 ?= m2)%positive; reflexivity.
Qed.

(** The order of two valid floats is the order of their values. *)
Lemma sval_mono (y1 y2 : spec_float) :
  valid_binary y1 = true -> valid_binary y2 = true ->
  is_finite y1 = true -> is_finite y2 = true ->
  SFleb y1 y2 = true -> sval y1 <= sval y2.
Proof.
  intros V1 V2 F1 F2 H.
  destruct y1 as [s1|s1| |s1 m1 e1]; try discriminate F1;
    destruct y2 as [s2|s2| |s2 m2 e2]; try discriminate F2;
    unfold sval, cond_Zopp.
  - lia.
  - destruct s2; [discriminate H|].
    assert (0 <= 2 ^ (e2 + 1074)) by (apply Z.pow_nonneg; lia). nia.
  - destruct s1; [|discriminate H].
    assert (0 <= 2 ^ (e1 + 1074)) by (apply Z.pow_nonneg; lia). nia.
  - assert (0 <= 2 ^ (e1 + 1074)) by (apply Z.pow_nonneg; lia).
    assert (0 <= 2 ^ (e2 + 1074)) by (apply Z.pow_nonneg; lia).
    destruct s1, s2.
    + rewrite SFleb_negative in H.
      pose proof (SFleb_value m2 e2 m1 e1 V2 V1 H). lia.
    + nia.
    + discriminate H.
    + exact (SFleb_value m1 e1 m2 e2 V1 V2 H).
Qed.

(** *** Adding two floats *)

Lemma SFadd_rounds (x y : spec_float) :
  valid_binary x = true -> valid_binary y = true ->
  is_finite x = true -> is_finite y = true ->
  rounds_signed (sval x + sval y) (SF64add x y).
Proof.
  intros Vx Vy Fx Fy.
  destruct x as [sx|sx| |sx mx ex]; try discriminate Fx;
    destruct y as [sy|sy| |sy my ey]; try discriminate Fy.
  - unfold rounds_signed. cbn [sval].
    split; [|split; intros H; lia]. intros _.
    unfold SF64add, SFadd. destruct sx, sy; eauto.
  - change (SF64add (S754_zero sx) (S754_finite sy my ey))
      with (S754_finite sy my ey).
    cbn [sval]. rewrite Z.add_0_l.
    exact (valid_rounds_signed (S754_finite sy my ey) Vy eq_refl).
  - change (SF64add (S754_finite sx mx ex) (S754_zero sy))
      with (S754_finite sx mx ex).
    cbn [sval]. rewrite Z.add_0_r.
    exact (valid_rounds_signed (S754_finite sx mx ex) Vx eq_refl).
  - destruct (valid_finite sx mx ex Vx) as (Hx & _).
    destruct (valid_finite sy my ey Vy) as (Hy & _).
    unfold SF64add, SFadd.
    set (ez := Z.min ex ey).
    destruct (shl_align_spec mx ex ez) as [_ Ha].
    destruct (shl_align_spec my ey ez) as [_ Hb].
    replace (Z.min ex ez) with ez in Ha by lia.
    replace (Z.min ey ez) with ez in Hb by lia.
    rewrite Ha, Hb.
    assert (Hez : -1074 <= ez) by lia.
    pose proof (binary_normalize_rounds
                  (cond_Zopp sx (Z.pos mx * 2 ^ (ex - ez))
                   + cond_Zopp sy (Z.pos my * 2 ^ (ey - ez))) ez Hez) as H.
    replace ((cond_Zopp sx (Z.pos mx * 2 ^ (ex - ez))
              + cond_Zopp sy (Z.pos my * 2 ^ (ey - ez))) * 2 ^ (ez + 1074))
      with (sval (S754_finite sx mx ex) + sval (S754_finite sy my ey)) in H.
    + exact H.
    + cbn [sval].
      replace (ex + 1074) with ((ex - ez) + (ez + 1074)) by lia.
      replace (ey + 1074) with ((ey - ez) + (ez + 1074)) by lia.
      rewrite (Z.pow_add_r 2 (ex - ez)), (Z.pow_add_r 2 (ey - ez)) by lia.
      destruct sx, sy; unfold cond_Zopp; ring.
Qed.

(** Adding to a float that is not a NaN keeps the order of the addends. *)
Lemma SFadd_mono_r (x y1 y2 : spec_float) :
  valid_binary x = true -> valid_binary y1 = true -> valid_binary y2 = true ->
  x <> S754_nan ->
  is_finite y1 = true -> is_finite y2 = true ->
  SFleb y1 y2 = true ->
  SFleb (SF64add x y1) (SF64add x y2) = true.
Proof.
  intros Vx V1 V2 Hnan F1 F2 H.
  destruct (is_finite x) eqn:Fx.
  - apply (rounds_signed_mono (sval x + sval y1) (sval x + sval y2)).
    + now apply SFadd_rounds.
    + now apply SFadd_rounds.
    + pose proof (sval_mono y1 y2 V1 V2 F1 F2 H). lia.
  - destruct x as [sx|sx| |sx mx ex]; try discriminate Fx; [|congruence].
    destruct y1 as [s1|s1| |s1 m1 e1]; try discriminate F1;
      destruct y2 as [s2|s2| |s2 m2 e2]; try discriminate F2;
      destruct sx; reflexivity.
Qed.

(** Subtracting a finite number is adding its opposite. *)
Lemma SFsub_add_opp (x : spec_float) (s : bool) (m : positive) (e : Z) :
  SF64sub x (S754_finite s m e) = SF64add x (S754_finite (negb s) m e).
Proof.
  unfold SF64sub, SF64add, SFsub, SFadd.
  destruct x as [sx|sx| |sx mx ex]; try reflexivity.
  f_equal. destruct s; unfold cond_Zopp; simpl negb; cbv iota; lia.
Qed.

End SignedFacts.

(** A coordinate displaced by an increment of magnitude at most 0.005
    lies between the coordinate minus 0.005 and the coordinate plus
    0.005, as computed in binary64. *)
Lemma add_between (c d : float) :
  PrimFloat.is_nan c = false ->
  PyFloat.le (-0.005) d -> PyFloat.le d 0.005 ->
  PyFloat.le (c - 0.005) (c + d) /\ PyFloat.le (c + d) (c + 0.005).
Proof.
  unfold PyFloat.le. rewrite !FloatAxioms.leb_spec.
  rewrite FloatAxioms.sub_spec, !FloatAxioms.add_spec.
  intros Hc Hlo Hhi. apply PyFloatOrder.is_nan_false in Hc.
  pose proof (Prim2SF_valid c) as Vc. pose proof (Prim2SF_valid d) as Vd.
  change (Prim2SF 0.005) with Binary64.sf_bound in *.
  change (Prim2SF (-0.005)) with (SFopp Binary64.sf_bound) in *.
  unfold Binary64.sf_bound in *.
  rewrite SignedFacts.SFsub_add_opp. cbn [negb SFopp] in *.
  assert (Fd : Signed.is_finite (Prim2SF d) = true).
  { destruct (Prim2SF d) as [s|[|]| |s m e]; try reflexivity;
      try discriminate Hlo; discriminate Hhi. }
  split; apply SignedFacts.SFadd_mono_r;
    try assumption; try reflexivity.
Qed.

(** ** Exposure sampler: where the generated points lie *)




(** ** Scenarios *)

(** At 40 km/h a distance of 40 km takes 60 minutes and 20 km take 30. *)
Lemma travel_minutes_examples :
  travel_minutes 40 = 60 /\ travel_minutes 20 = 30.
Proof. split; reflexivity. Qed.

(** Mumbai, (19.0760, 72.8777), with the elevation service answering
    2.0: the elevation is returned with no message, the flood risk is
    High and the point is in the Mumbai flood zone. *)
Lemma scenario_mumbai :
  let body := PDict [("results", PList [PDict [("elevation", PFloat 2.0)]])] in
  get_elevation (answers 200 (Some body)) show_float 19.0760 72.8777
  = (PFloat 2.0, [])
  /\ classify_flood_risk (Some 2.0) = "High Flood Risk"
  /\ check_urban_flood_risk 19.0760 72.8777
     = "High Urban Flood Risk (Mumbai Flood Zone)".
Proof. cbv zeta. repeat split; reflexivity. Qed.

(** (20.0, 75.0), outside every zone, with the elevation service
    unreachable: the lookup gives [None] and one message, the flood risk
    is Unknown, the urban risk is low and the report still shows "N/A"
    for the elevation. *)
Lemma scenario_unreachable :
  let exposure_df :=
    fst (generate_surrounding_exposure MT19937.numpy (MT19937.seed 0)
           20.0 75.0 5) in
  get_elevation unreachable show_float 20.0 75.0
  = (PNone, ["Error fetching elevation data: connection refused"])
  /\ classify_flood_risk None = "Unknown"
  /\ check_urban_flood_risk 20.0 75.0 = "Low Urban Flood Risk"
  /\ elevation_field
       (create_pdf_report show_float show_float 20.0 75.0 None
          (classify_flood_risk None) (check_urban_flood_risk 20.0 75.0)
          None None exposure_df)
     = "Elevation: N/A meters".
Proof. cbv zeta. repeat split; reflexivity. Qed.
